(** * dpd-local-sdk: session lifecycle and authenticated-request pipeline

    A shallow embedding of [src/lib/auth.ts] (the module-level token cache,
    [authenticate], [getGeoSession], [authenticatedRequest] and the
    [GeoSessionManager] class), of [InMemoryGeoSessionStorage] from the
    types module and of the postcode check of [validateAddress] in
    [src/lib/shipment.ts], followed by the properties of the specification
    that concern them.

    Conventions of the embedding.
    - A [Date] that the code makes from the clock is its time value in
      milliseconds, an integer; a [Date] that comes out of a storage
      adapter is a time value or the invalid date.
    - An [Error] is its [message]; every value thrown inside the modelled
      functions is an [Error].
    - [async] functions run sequentially; they are state-passing functions
      over a [State] that holds the store (token cache or storage adapter),
      the clock, the number of network calls made so far and the trace of
      observable events.  Console output is not part of the trace.
    - The clock moves only while the program waits in [delay]; a network
      call takes no time.
    - The network, [JSON.parse], [JSON.stringify] and the local calendar
      are the environment: a [Runtime] instance.  The string functions
      that go by the Unicode tables are the engine's: a [Strings]
      instance. *)

From stdpp Require Import base strings list gmap pretty.
From Stdlib Require Import Ascii ZArith Lia.

Local Set Warnings "-register-all".
Local Open Scope string_scope.
Local Open Scope Z_scope.
Local Open Scope list_scope.

(** ** JavaScript values obtained from [JSON.parse] *)

(** A number is kept as the decimal text [String(n)] the engine gives for
    it ("1e+21", "0.5", ...; "0" for both zeros): the code tests numbers
    for zero and turns them into text, and does nothing else with
    them. *)
Inductive json : Type :=
| JNull
| JBool (b : bool)
| JNum (text : string)
| JStr (s : string)
| JArr (items : list json)
| JObj (fields : list (string * json)).

(** A JavaScript expression that may be [undefined] has type [option json];
    [None] is [undefined]. *)
Abbreviation jsval := (option json).

Fixpoint assoc (k : string) (fs : list (string * json)) : jsval :=
  match fs with
  | [] => None
  | (k', v) :: rest => if String.eqb k k' then Some v else assoc k rest
  end.

(** [v?.k]: property access with optional chaining.  The properties read by
    the code ([error], [data], [errorMessage], ...) exist on objects only. *)
Definition field (k : string) (v : jsval) : jsval :=
  match v with
  | Some (JObj fs) => assoc k fs
  | _ => None
  end.

(** [!!v] *)
Definition truthy (v : jsval) : bool :=
  match v with
  | None | Some JNull | Some (JBool false) => false
  | Some (JNum text) => negb (String.eqb text "0")
  | Some (JStr s) => negb (String.eqb s "")
  | Some _ => true
  end.

(** [v === null] *)
Definition isNull (v : jsval) : bool :=
  match v with Some JNull => true | _ => false end.

(** [a ?? b] *)
Definition nullish (a b : jsval) : jsval :=
  match a with
  | None | Some JNull => b
  | _ => a
  end.
Infix "???" := nullish (at level 60, right associativity).

(** [a || b] *)
Definition orElse (a b : jsval) : jsval := if truthy a then a else b.
Infix "|?|" := orElse (at level 60, right associativity).

(** [Array.isArray(v)] *)
Definition isArray (v : jsval) : bool :=
  match v with Some (JArr _) => true | _ => false end.

(** [Object.keys(v).length] for a truthy [v] *)
Definition keysLength (v : json) : nat :=
  match v with
  | JObj fs => length fs
  | JArr l => length l
  | JStr s => String.length s
  | _ => 0%nat
  end.

Fixpoint join (sep : string) (l : list string) : string :=
  match l with
  | [] => ""
  | [x] => x
  | x :: rest => x +:+ sep +:+ join sep rest
  end.

(** [String(v)], the conversion applied by template literals and by
    [new Error(v)] *)
Fixpoint ToString (v : json) : string :=
  match v with
  | JNull => "null"
  | JBool true => "true"
  | JBool false => "false"
  | JNum text => text
  | JStr s => s
  | JArr l =>
      join "," (List.map (fun x => match x with JNull => "" | _ => ToString x end) l)
  | JObj _ => "[object Object]"
  end.

(** Truthiness of a [string | null] *)
Definition nonEmpty (s : option string) : bool :=
  match s with
  | Some t => negb (String.eqb t "")
  | None => false
  end.

(** ** HTTP *)

Record Response : Type := mkResponse {
  status : Z;
  statusText : string;
  raw : string            (* [await response.text()] *)
}.

(** [response.ok] *)
Definition ok (r : Response) : bool := (200 <=? status r) && (status r <=? 299).

(** What [await fetch(...)] does: throw (network failure, timeout) or
    resolve to a response. *)
Inductive FetchOutcome : Type :=
| NetErr (message : string)
| Resp (r : Response).

Record DPDCredentials : Type := mkCredentials {
  accountNumber : string;
  username : string;
  password : string
}.

(** [DPD_API] of the configuration module *)
Module DPD_API.
Definition BASE_URL : string := "https://api.dpdlocal.co.uk".
Definition AUTH : string := "/user/?action=login".
Definition TIMEOUT : Z := 30000.
Definition RETRY_ATTEMPTS : Z := 3.
Definition RETRY_DELAY : Z := 1000.
End DPD_API.

(** ** The environment *)

Class Runtime : Type := {
  (** [JSON.parse]; [None] stands for the [SyntaxError] it throws, whose
      engine-made message never starts with "DPD API Error". *)
  JSON_parse : string -> option json;
  JSON_stringify : json -> string;
  (** the outcome of the n-th call of the login endpoint *)
  authNet : nat -> FetchOutcome;
  (** the outcome of the n-th business call *)
  apiNet : nat -> FetchOutcome;
  (** [new Date(d.getFullYear(), d.getMonth(), d.getDate()).getTime()]:
      local midnight of the calendar day of a time value *)
  startOfLocalDay : Z -> Z
}.

(** ** Observable events and the state threaded through the calls *)

Inductive Event : Type :=
| EvAuth (credentials : DPDCredentials)
| EvDispatch (method url : string) (headers : gmap string string) (body : option string)
| EvDelay (ms : Z)
| EvClear.

Record State (C : Type) : Type := mkState {
  store : C;
  clock : Z;
  authCalls : nat;
  apiCalls : nat;
  trace : list Event
}.
Arguments mkState {C}.
Arguments store {C}.
Arguments clock {C}.
Arguments authCalls {C}.
Arguments apiCalls {C}.
Arguments trace {C}.

Inductive Outcome (A : Type) : Type :=
| Raised (message : string)
| Returned (value : A).
Arguments Raised {A}.
Arguments Returned {A}.

Definition M (C A : Type) : Type := State C -> Outcome A * State C.

Definition ret {C A} (a : A) : M C A := fun s => (Returned a, s).

Definition throw {C A} (message : string) : M C A := fun s => (Raised message, s).

Definition bind {C A B} (m : M C A) (k : A -> M C B) : M C B :=
  fun s =>
    match m s with
    | (Returned a, s') => k a s'
    | (Raised e, s') => (Raised e, s')
    end.

Definition tryCatch {C A} (m : M C A) (handler : string -> M C A) : M C A :=
  fun s =>
    match m s with
    | (Returned a, s') => (Returned a, s')
    | (Raised e, s') => handler e s'
    end.

Notation "x <- m ;; k" := (bind m (fun x => k))
  (at level 100, m at next level, right associativity).
Notation "m ;;; k" := (bind m (fun _ => k))
  (at level 100, right associativity).

Definition liftOutcome {C A} (o : Outcome A) : M C A := fun s => (o, s).

Definition getStore {C} : M C C := fun s => (Returned (store s), s).

Definition putStore {C} (c : C) : M C unit :=
  fun s => (Returned tt, mkState c (clock s) (authCalls s) (apiCalls s) (trace s)).

Definition emit {C} (e : Event) : M C unit :=
  fun s => (Returned tt,
            mkState (store s) (clock s) (authCalls s) (apiCalls s) (trace s ++ [e])).

(** [Date.now()] / [new Date()] *)
Definition dateNow {C} : M C Z := fun s => (Returned (clock s), s).

(** [await delay(ms)]: the timer lets at least [ms] milliseconds pass. *)
Definition delay {C} (ms : Z) : M C unit :=
  fun s => (Returned tt,
            mkState (store s) (clock s + Z.max 0 ms) (authCalls s) (apiCalls s)
                    (trace s ++ [EvDelay ms])).

(** ** The module-level token cache (auth.ts, lines 16-24) *)

Record TokenCache : Type := mkTokenCache {
  geoSession : option string;     (* [string | null] *)
  expiry : option Z               (* [Date | null] *)
}.

Definition emptyCache : TokenCache := mkTokenCache None None.

(** What a request yields to its caller: a parsed JSON value or the raw
    response text. *)
Inductive Payload : Type :=
| Parsed (v : json)
| RawText (text : string).

(** One iteration of the request loop either returns or reaches
    [continue]. *)
Inductive Step : Type :=
| Done (p : Payload)
| Again.

Record DPDRequestOptions : Type := mkOptions {
  method : string;
  endpoint : string;
  body : jsval;
  headers : option (gmap string string);
  retry : option bool;
  retryAttempts : option Z
}.

(** [a || b] on strings *)
Definition strOr (a b : string) : string := if String.eqb a "" then b else a.

(** The message of [new Error(v)] *)
Definition errorMessageOf (v : jsval) : string :=
  match v with
  | Some j => ToString j
  | None => ""
  end.

(** [l[0]] *)
Definition index0 (v : jsval) : jsval :=
  match v with
  | Some (JArr (x :: _)) => Some x
  | _ => None
  end.

Definition arrayLength (v : jsval) : Z :=
  match v with
  | Some (JArr l) => Z.of_nat (length l)
  | _ => 0
  end.

Definition valueOr (v : jsval) (d : json) : json :=
  match v with
  | Some j => j
  | None => d
  end.

(** The four label formats of [getAcceptHeader] *)
Definition isLabelFormat (accept : option string) : bool :=
  match accept with
  | Some a =>
      String.eqb a "text/vnd.zebra-zpl" || String.eqb a "text/vnd.citizen-clp"
      || String.eqb a "text/vnd.eltron-epl" || String.eqb a "text/html"
  | None => false
  end.

(** [headers.Accept || headers.accept] *)
Definition acceptHeader (hs : gmap string string) : option string :=
  if nonEmpty (hs !! "Accept") then hs !! "Accept" else hs !! "accept".

Section Auth.
Context `{Runtime}.

(** [await fetch(AUTH url, { Authorization: Basic ... })] followed by
    [await response.text()] *)
Definition fetchAuth {C} (credentials : DPDCredentials) : M C Response :=
  fun s =>
    let s' := mkState (store s) (clock s) (S (authCalls s)) (apiCalls s)
                      (trace s ++ [EvAuth credentials]) in
    match authNet (authCalls s) with
    | NetErr e => (Raised e, s')
    | Resp r => (Returned r, s')
    end.

(** [await fetch(url, { method, headers, body })] followed by
    [await response.text()] *)
Definition fetchApi {C} (method url : string) (hs : gmap string string)
    (body : option string) : M C Response :=
  fun s =>
    let s' := mkState (store s) (clock s) (authCalls s) (S (apiCalls s))
                      (trace s ++ [EvDispatch method url hs body]) in
    match apiNet (apiCalls s) with
    | NetErr e => (Raised e, s')
    | Resp r => (Returned r, s')
    end.

(** [raw ? JSON.parse(raw) : null]; [None] when [JSON.parse] throws *)
Definition parseBody (r : Response) : option json :=
  if String.eqb (raw r) "" then Some JNull else JSON_parse (raw r).

(** Lines 54-82, and again 588-617: from the login response to the token
    or the error thrown.  The token is a string for the rest of the code (it
    is sent as a header); a truthy [geoSession] of another type is taken as
    its string form. *)
Definition readGeoSession (r : Response) : Outcome string :=
  match parseBody r with
  | None =>
      if negb (ok r)
      then Raised ("Authentication failed: " +:+ strOr (raw r) (statusText r))
      else Raised "Invalid JSON response from DPD API"
  | Some payload =>
      let error := field "error" (Some payload) in
      if negb (ok r) then
        Raised (errorMessageOf
                  (field "errorMessage" error ???
                   Some (JStr ("Authentication failed: " +:+ pretty (status r)
                               +:+ " " +:+ statusText r))))
      else if truthy error then
        Raised (errorMessageOf
                  (field "errorMessage" error ??? Some (JStr "Authentication failed")))
      else
        let token := field "geoSession" (field "data" (Some payload)) in
        if negb (truthy token)
        then Raised "No GeoSession token received from DPD"
        else Returned (ToString (valueOr token JNull))
  end.

(** [authenticate] (lines 37-88) *)
Definition authenticate (credentials : DPDCredentials) : M TokenCache string :=
  response <- fetchAuth credentials ;;
  token <- liftOutcome (readGeoSession response) ;;
  now <- dateNow ;;
  putStore (mkTokenCache (Some token) (Some (now + 90 * 60 * 1000))) ;;;
  ret token.

(** [tokenCache.geoSession && tokenCache.expiry && tokenCache.expiry > new Date()] *)
Definition cacheValid (c : TokenCache) (now : Z) : bool :=
  nonEmpty (geoSession c)
  && match expiry c with
     | Some e => now <? e
     | None => false
     end.

(** [getGeoSession] (lines 98-114) *)
Definition getGeoSession (credentials : DPDCredentials) (forceRefresh : bool)
    : M TokenCache string :=
  cache <- getStore ;;
  now <- dateNow ;;
  if negb forceRefresh && cacheValid cache now
  then ret (default "" (geoSession cache))
  else authenticate credentials.

(** [clearGeoSession] (lines 120-123) *)
Definition clearGeoSession : M TokenCache unit :=
  putStore emptyCache ;;; emit EvClear.

(** [hasValidToken] (lines 130-136) *)
Definition hasValidToken : M TokenCache bool :=
  cache <- getStore ;;
  now <- dateNow ;;
  ret (cacheValid cache now).

(** [getTokenExpiry] (lines 143-145) *)
Definition getTokenExpiry : M TokenCache (option Z) :=
  cache <- getStore ;;
  ret (expiry cache).

(** Lines 230-255: error code and message of a label error body.  [None]
    is the [TypeError] of reading a property of [null] at line 251. *)
Definition labelError (errorObj : jsval) : option (json * json) :=
  let errorMessage := JStr "Label generation failed" in
  let errorCode := JStr "UNKNOWN" in
  if truthy errorObj then
    if isArray errorObj then
      let firstError := index0 errorObj in
      Some (valueOr (field "errorCode" firstError |?| Some errorCode) errorCode,
            valueOr (field "errorMessage" firstError |?| Some errorMessage) errorMessage)
    else if truthy (field "errorMessage" errorObj) then
      Some (valueOr (field "errorCode" errorObj |?| field "name" errorObj
                     |?| Some errorCode) errorCode,
            valueOr (field "errorMessage" errorObj) errorMessage)
    else if truthy (field "name" errorObj) then
      let name := valueOr (field "name" errorObj) errorCode in
      let errors := field "errors" errorObj in
      if isArray errors && (0 <? arrayLength errors) then
        match index0 errors with
        | None | Some JNull => None
        | detailedError =>
            Some (valueOr (field "errorCode" detailedError |?| Some name) name,
                  valueOr (field "errorMessage" detailedError
                           |?| field "message" detailedError |?| Some name) name)
        end
      else Some (name, name)
    else Some (errorCode, errorMessage)
  else Some (errorCode, errorMessage).

(** Lines 215-274: the response of a label request *)
Definition labelResponse (r : Response) : Outcome Payload :=
  if negb (ok r) then
    Raised ("Label request failed: " +:+ pretty (status r) +:+ " " +:+ statusText r)
  else
    match JSON_parse (raw r) with
    | None => Returned (RawText (raw r))
    | Some parsed =>
        let p := Some parsed in
        if truthy (field "error" p) || isNull (field "data" p) then
          match labelError (field "error" p) with
          | Some (errorCode, errorMessage) =>
              Raised ("DPD API Error " +:+ ToString errorCode +:+ ": "
                      +:+ ToString errorMessage)
          | None => Returned (RawText (raw r))
          end
        else if truthy (field "data" p)
        then Returned (Parsed (valueOr (field "data" p) JNull))
        else Returned (RawText (raw r))
    end.

(** [data?.data && Object.keys(data.data).length > 0] *)
Definition hasData (data : json) : bool :=
  match field "data" (Some data) with
  | Some d => truthy (Some d) && (0 <? keysLength d)%nat
  | None => false
  end.

(** [data?.error] *)
Definition hasError (data : json) : bool := truthy (field "error" (Some data)).

(** [JSON.stringify(v)], which is [undefined] for [undefined] *)
Definition stringify (v : jsval) : jsval :=
  match v with
  | Some j => Some (JStr (JSON_stringify j))
  | None => None
  end.

(** The argument of [new Error] at lines 311-317 *)
Definition failureMessage (data : json) (r : Response) : string :=
  let error := field "error" (Some data) in
  errorMessageOf
    (field "errorMessage" error ???
     field "errorAction" error ???
     field "obj" error ???
     stringify error ???
     Some (JStr ("Request failed: " +:+ statusText r))).

(** Lines 276-327: the response of any other request *)
Definition jsonResponse (retry : bool) (retryAttempts attempt : Z) (r : Response)
    : M TokenCache Step :=
  match parseBody r with
  | None =>
      if negb (ok r)
      then throw (strOr (raw r) (statusText r))
      else throw "Invalid JSON response from DPD API"
  | Some data =>
      if negb (ok r) || (hasError data && negb (hasData data)) then
        if (status r =? 401) && retry && (attempt <? retryAttempts - 1) then
          clearGeoSession ;;;
          delay (DPD_API.RETRY_DELAY * (attempt + 1)) ;;;
          ret Again
        else throw (failureMessage data r)
      else ret (Done (Parsed data))
  end.

Section Request.
Variable credentials : DPDCredentials.
Variable options : DPDRequestOptions.

(** The destructuring with defaults of lines 172-179 *)
Definition headersOf : gmap string string := default ∅ (headers options).
Definition retryOf : bool := default true (retry options).
Definition retryAttemptsOf : Z := default DPD_API.RETRY_ATTEMPTS (retryAttempts options).

Definition urlOf : string :=
  if String.prefix "http" (endpoint options)
  then endpoint options
  else DPD_API.BASE_URL +:+ endpoint options.

Definition bodyOf : option string :=
  if truthy (body options)
  then Some (JSON_stringify (valueOr (body options) JNull))
  else None.

(** [isLabelRequest] (lines 205-210) *)
Definition isLabelRequest : bool := isLabelFormat (acceptHeader headersOf).

(** Lines 204-327: what is done with the response *)
Definition handleResponse (attempt : Z) (response : Response) : M TokenCache Step :=
  if isLabelRequest
  then p <- liftOutcome (labelResponse response) ;; ret (Done p)
  else jsonResponse retryOf retryAttemptsOf attempt response.

(** The [try] block of lines 184-327 *)
Definition attemptBody (attempt : Z) : M TokenCache Step :=
  token <- getGeoSession credentials (0 <? attempt) ;;
  response <- fetchApi (method options) urlOf
                (headersOf ∪ {[ "Content-Type" := "application/json";
                                "GeoSession" := token ]})
                bodyOf ;;
  handleResponse attempt response.

(** The [for] loop of lines 183-337 with [fuel] iterations left, and
    the [throw] after it. *)
Fixpoint requestLoop (fuel : nat) (attempt : Z) (lastError : option string)
    : M TokenCache Payload :=
  match fuel with
  | O => throw (default "Request failed after retries" lastError)
  | S fuel' =>
      fun s =>
        match attemptBody attempt s with
        | (Returned (Done p), s') => (Returned p, s')
        | (Returned Again, s') => requestLoop fuel' (attempt + 1) lastError s'
        | (Raised e, s') =>
            if negb retryOf || (retryAttemptsOf - 1 <=? attempt)
            then (Raised e, s')
            else (delay (DPD_API.RETRY_DELAY * (attempt + 1)) ;;;
                  requestLoop fuel' (attempt + 1) (Some e)) s'
        end
  end.

(** [authenticatedRequest] (lines 168-340) *)
Definition authenticatedRequest : M TokenCache Payload :=
  requestLoop (Z.to_nat retryAttemptsOf) 0 None.
End Request.

(** [testConnection] (lines 357-385) *)
Definition testConnection (credentials : DPDCredentials)
    : M TokenCache (bool * string) :=
  tryCatch
    (clearGeoSession ;;;
     token <- authenticate credentials ;;
     if String.eqb token ""
     then ret (false, "Authentication succeeded but no token received")
     else ret (true, "Successfully connected to DPD API"))
    (fun e => ret (false, e)).
End Auth.

(** ** Storage adapters (the types module) *)

(** A [Date] object: its time value in milliseconds, or an invalid date,
    whose time value is [NaN] *)
Inductive Date : Type :=
| TimeValue (t : Z)
| InvalidDate.

(** What [storage.get()] resolves to when it is not [null].  The expiry
    is the date that line 508 makes of it: none for a falsy value, the
    invalid date for a value of which [new Date] makes no date. *)
Record StoredSession : Type := mkStored {
  storedGeoSession : option string;
  storedExpiry : option Date
}.

(** [interface GeoSessionStorage] (lines 694-712), over a storage of type
    [S]: each method gives a promise that is awaited; the call resolves
    or rejects with an error ([Raised], with its message), and either way
    it may have changed the storage. *)
Class AsyncStorage (S : Type) : Type := {
  asyncGet : S -> Outcome (option StoredSession) * S;
  asyncSet : string -> Date -> S -> Outcome unit * S;
  asyncClear : S -> Outcome unit * S
}.

(** A [GeoSessionStorage] whose methods always resolve, given by what
    [get] reads and by how [set] and [clear] change the storage *)
Class GeoSessionStorage (S : Type) : Type := {
  storageGet : S -> option StoredSession;
  storageSet : string -> Date -> S -> S;
  storageClear : S -> S
}.

#[export] Instance resolving {S : Type} `{GeoSessionStorage S} : AsyncStorage S := {
  asyncGet m := (Returned (storageGet m), m);
  asyncSet g e m := (Returned tt, storageSet g e m);
  asyncClear m := (Returned tt, storageClear m)
}.

(** [class InMemoryGeoSessionStorage] (lines 718-738): its two private
    fields *)
Record InMemoryGeoSessionStorage : Type := mkInMemory {
  memGeoSession : option string;
  memExpiry : option Date
}.

#[export] Instance inMemoryStorage : GeoSessionStorage InMemoryGeoSessionStorage := {
  storageGet m :=
    if negb (nonEmpty (memGeoSession m)) || negb (bool_decide (is_Some (memExpiry m)))
    then None
    else Some (mkStored (memGeoSession m) (memExpiry m));
  storageSet g e _ := mkInMemory (Some g) (Some e);
  storageClear _ := mkInMemory None None
}.

(** ** [class GeoSessionManager] (auth.ts, lines 414-626) *)

Record GeoSessionManager : Type := mkManager {
  credentials : DPDCredentials;
  maxRetries : Z;
  baseRetryDelay : Z
}.

(** The constructor (lines 427-439); the storage object is the store of the
    state. *)
Definition newGeoSessionManager (c : DPDCredentials)
    (options : option (option Z * option Z)) : GeoSessionManager :=
  mkManager c
    (default 3 (options ≫= fst))
    (default 2000 (options ≫= snd)).

Section Manager.
Context `{Runtime} {S : Type} `{AsyncStorage S}.
Variable this : GeoSessionManager.

(** [await this.storage.m(...)]: the call acts on the storage, which is
    the store of the state, and resolves or rejects. *)
Definition awaitStorage {A : Type} (call : S -> Outcome A * S) : M S A :=
  fun s =>
    (fst (call (store s)),
     mkState (snd (call (store s))) (clock s) (authCalls s) (apiCalls s) (trace s)).

Definition storage_get : M S (option StoredSession) := awaitStorage asyncGet.

Definition storage_set (g : string) (e : Date) : M S unit :=
  awaitStorage (asyncSet g e).

Definition storage_clear : M S unit := awaitStorage asyncClear.

(** [hoursSinceCreation > 12] at line 530.  The quotient of the two
    integers [now - sessionCreatedAt] and [1000 * 60 * 60], rounded to a
    double, exceeds 12 exactly when the numerator exceeds
    [12 * (1000 * 60 * 60)]. *)
Definition over12Hours (now sessionCreatedAt : Z) : bool :=
  12 * (1000 * 60 * 60) <? now - sessionCreatedAt.

(** [isSessionValid] (lines 502-536), [now] being the [new Date()] of
    line 507.  The time value of an invalid date is [NaN]: the
    comparison [expiryDate <= now] of line 511 is false, and so is the
    [===] of line 525, one side of which is [NaN]. *)
Definition isSessionValid (now : Z) (g : option string) (e : option Date) : bool :=
  match e with
  | None => false
  | Some expiry =>
      if negb (nonEmpty g) then false
      else
        match expiry with
        | InvalidDate => true
        | TimeValue expiryDate =>
            if expiryDate <=? now then false
            else if (startOfLocalDay expiryDate =? startOfLocalDay now)
                    && over12Hours now (expiryDate - 90 * 60 * 1000)
            then false
            else true
        end
  end.

(** The private [authenticate] (lines 574-618) *)
Definition managerAuthenticate : M S string :=
  response <- fetchAuth (credentials this) ;;
  liftOutcome (readGeoSession response).

(** The loop of [authenticateWithRetry] (lines 541-569) with [fuel]
    iterations left, and the [throw] after it *)
Fixpoint authRetryLoop (fuel : nat) (attempt : Z) (lastError : option string)
    : M S (string * Z) :=
  match fuel with
  | O =>
      throw ("Failed to authenticate after " +:+ pretty (maxRetries this)
             +:+ " attempts: " +:+ strOr (default "" lastError) "Unknown error")
  | Datatypes.S fuel' =>
      tryCatch
        (token <- managerAuthenticate ;;
         now <- dateNow ;;
         ret (token, now + 90 * 60 * 1000))
        (fun e =>
           (if attempt <? maxRetries this
            then delay (baseRetryDelay this * 2 ^ (attempt - 1))
            else ret tt) ;;;
           authRetryLoop fuel' (attempt + 1) (Some e))
  end.

Definition authenticateWithRetry : M S (string * Z) :=
  authRetryLoop (Z.to_nat (maxRetries this)) 1 None.

(** [stored && this.isSessionValid(stored.geoSession, stored.expiry)] *)
Definition storedValid (now : Z) (stored : option StoredSession) : bool :=
  match stored with
  | Some st => isSessionValid now (storedGeoSession st) (storedExpiry st)
  | None => false
  end.

(** [getValidGeoSession] (lines 452-479) *)
Definition getValidGeoSession : M S string :=
  tryCatch
    (stored <- storage_get ;;
     now <- dateNow ;;
     if storedValid now stored
     then ret (default "" (stored ≫= storedGeoSession))
     else
       fresh <- authenticateWithRetry ;;
       storage_set (fst fresh) (TimeValue (snd fresh)) ;;;
       ret (fst fresh))
    (fun e => throw ("Failed to get valid geo session: " +:+ e)).

(** [refreshGeoSession] (lines 487-490) *)
Definition refreshGeoSession : M S string :=
  storage_clear ;;; getValidGeoSession.

(** [clearGeoSession] of the manager (lines 495-497) *)
Definition managerClearGeoSession : M S unit := storage_clear.
End Manager.

(** ** Address validation (shipment.ts, lines 247-327) *)

(** A string is the text in UTF-8: the ASCII characters are the bytes
    below 128, on which the classes [\d] and [[A-Z]] of the postcode
    pattern are decided, no byte of another character being in them. *)

Definition codeOf (c : ascii) : Z := Z.of_N (Ascii.N_of_ascii c).

Definition charOf (n : Z) : ascii := Ascii.ascii_of_N (Z.to_N n).

(** The ASCII characters of [\s] *)
Definition isSpace (c : ascii) : bool :=
  let n := codeOf c in
  ((9 <=? n) && (n <=? 13)) || (n =? 32).

(** [\d] *)
Definition isDigit (c : ascii) : bool :=
  let n := codeOf c in (48 <=? n) && (n <=? 57).

(** [[A-Z]] *)
Definition isUpper (c : ascii) : bool :=
  let n := codeOf c in (65 <=? n) && (n <=? 90).

Definition isLower (c : ascii) : bool :=
  let n := codeOf c in (97 <=? n) && (n <=? 122).

Fixpoint mapString (f : ascii -> ascii) (s : string) : string :=
  match s with
  | EmptyString => EmptyString
  | String c rest => String (f c) (mapString f rest)
  end.

(** The string functions of the engine that go by the Unicode tables:
    [s.toUpperCase()], [s.toLowerCase()] and [s.replace(/\s/g, "")], the
    class [\s] of which has the Unicode spaces in it. *)
Class Strings : Type := {
  toUpperCase : string -> string;
  toLowerCase : string -> string;
  removeSpaces : string -> string
}.

(** What these functions do to ASCII text: the letters [a-z] and [A-Z]
    change case, and the characters of codes 9 to 13 and 32 are white
    space. *)
Definition asciiUpperCase : string -> string :=
  mapString (fun c => if isLower c then charOf (codeOf c - 32) else c).

Definition asciiLowerCase : string -> string :=
  mapString (fun c => if isUpper c then charOf (codeOf c + 32) else c).

Fixpoint asciiRemoveSpaces (s : string) : string :=
  match s with
  | EmptyString => EmptyString
  | String c rest =>
      if isSpace c then asciiRemoveSpaces rest else String c (asciiRemoveSpaces rest)
  end.

(** The engine on ASCII text *)
Definition asciiStrings : Strings :=
  {| toUpperCase := asciiUpperCase;
     toLowerCase := asciiLowerCase;
     removeSpaces := asciiRemoveSpaces |}.

(** [haystack.includes(needle)] *)
Fixpoint includes (haystack needle : string) : bool :=
  String.prefix needle haystack
  || match haystack with
     | EmptyString => false
     | String _ rest => includes rest needle
     end.

(** A regular expression that is a sequence of character classes with
    bounded repetition, anchored at both ends. *)
Record Atom : Type := mkAtom {
  cls : ascii -> bool;
  atLeast : nat;
  atMost : nat
}.

(** [cls{atLeast,atMost}] followed by the rest of the pattern [k] *)
Fixpoint matchRep (cls : ascii -> bool) (atLeast atMost : nat)
    (k : string -> bool) (s : string) : bool :=
  (match atLeast with O => k s | _ => false end)
  || match atMost, s with
     | Datatypes.S atMost', String c rest =>
         cls c && matchRep cls (Nat.pred atLeast) atMost' k rest
     | _, _ => false
     end.

(** [/^...$/.test(s)] *)
Fixpoint regexTest (re : list Atom) (s : string) : bool :=
  match re with
  | [] => match s with EmptyString => true | _ => false end
  | a :: rest => matchRep (cls a) (atLeast a) (atMost a) (regexTest rest) s
  end.

(** [/^[A-Z]{1,2}\d{1,2}[A-Z]?\d[A-Z]{2}$/] *)
Definition postcodeRegex : list Atom :=
  [ mkAtom isUpper 1 2; mkAtom isDigit 1 2; mkAtom isUpper 0 1;
    mkAtom isDigit 1 1; mkAtom isUpper 2 2 ].

Record ValidateAddressParams : Type := mkParams {
  postcode : string;
  town : string
}.

Record ValidateAddressResult : Type := mkResult {
  valid : bool;
  serviceable : bool;
  message : option string
}.

(** A response of api.postcodes.io; [lookupJson] is what
    [await response.json()] does. *)
Record LookupResponse : Type := mkLookup {
  lookupStatus : Z;
  lookupStatusText : string;
  lookupJson : Outcome json
}.

Inductive LookupOutcome : Type :=
| LookupErr (message : string)
| LookupResp (r : LookupResponse).

Section ValidateAddress.
Context `{Strings}.
(** [fetch] of a postcodes.io URL *)
Variable lookupNet : string -> LookupOutcome.
(** [encodeURIComponent] *)
Variable encodeURIComponent : string -> string.
(** The message of the [TypeError] raised by the engine when [what]
    fails *)
Variable typeError : string -> string.

(** The calls made, in order: the URLs fetched *)
Definition V (A : Type) : Type := list string -> Outcome A * list string.

Definition fetchLookup (url : string) : V LookupResponse :=
  fun calls =>
    match lookupNet url with
    | LookupErr e => (Raised e, calls ++ [url])
    | LookupResp r => (Returned r, calls ++ [url])
    end.

Definition lookupOk (r : LookupResponse) : bool :=
  (200 <=? lookupStatus r) && (lookupStatus r <=? 299).

Definition invalid (m : string) : ValidateAddressResult :=
  mkResult false false (Some m).

(** [`${v}`] for a value that may be [undefined] *)
Definition template (v : jsval) : string :=
  match v with
  | Some j => ToString j
  | None => "undefined"
  end.

(** Lines 283-318: from the parsed body to the result *)
Definition judge (town : string) (data : json) : Outcome ValidateAddressResult :=
  match data with
  | JNull => Raised (typeError "data.result")
  | _ =>
      let result := field "result" (Some data) in
      if negb (truthy result) then Returned (invalid "Invalid postcode")
      else
        let country := field "country" result in
        let serviceable :=
          match country with
          | Some (JStr c) =>
              String.eqb c "England" || String.eqb c "Wales" || String.eqb c "Scotland"
          | _ => false
          end in
        let returnedTown :=
          field "admin_district" result |?| field "parish" result |?| Some (JStr "") in
        let verdict (townMatch : bool) :=
          if negb townMatch then
            Returned (mkResult true serviceable
                        (Some ("Postcode valid but town mismatch. Expected: "
                               +:+ template returnedTown)))
          else
            Returned (mkResult true serviceable
                        (Some (if serviceable
                               then "Address is valid and serviceable by DPD"
                               else "Address is valid but may not be serviceable by DPD ("
                                    +:+ template country +:+ ")"))) in
        if String.eqb town "" then verdict true
        else
          match returnedTown with
          | Some (JStr t) =>
              verdict (includes (toLowerCase t) (toLowerCase town)
                       || includes (toLowerCase town) (toLowerCase t))
          | _ => Raised (typeError "returnedTown.toLowerCase")
          end
  end.

(** [validateAddress] (lines 247-327); the credentials are not used. *)
Definition validateAddress (params : ValidateAddressParams) : V ValidateAddressResult :=
  fun calls =>
    let cleanPostcode := toUpperCase (removeSpaces (postcode params)) in
    if negb (regexTest postcodeRegex cleanPostcode) then
      (Returned (invalid "Invalid UK postcode format"), calls)
    else
      let attempt : Outcome ValidateAddressResult * list string :=
        match fetchLookup ("https://api.postcodes.io/postcodes/"
                           +:+ encodeURIComponent cleanPostcode) calls with
        | (Raised e, calls') => (Raised e, calls')
        | (Returned response, calls') =>
            if negb (lookupOk response) then
              if lookupStatus response =? 404
              then (Returned (invalid "Postcode not found in UK database"), calls')
              else (Raised ("Postcode lookup failed: " +:+ lookupStatusText response),
                    calls')
            else
              match lookupJson response with
              | Raised e => (Raised e, calls')
              | Returned data => (judge (town params) data, calls')
              end
        end in
      match attempt with
      | (Raised e, calls') => (Returned (invalid e), calls')
      | done => done
      end.
End ValidateAddress.

(** ** A concrete environment, for the examples *)

Definition dq : string := String (Ascii.ascii_of_nat 34) EmptyString.

(** ["s"] *)
Definition quoted (s : string) : string := dq +:+ s +:+ dq.

(** [{"data":{"geoSession":"<token>"}}] *)
Definition loginBody (token : string) : string :=
  "{" +:+ quoted "data" +:+ ":{" +:+ quoted "geoSession" +:+ ":" +:+ quoted token +:+ "}}".

Definition loginJson (token : string) : json :=
  JObj [("data", JObj [("geoSession", JStr token)])].

(** [{"data":{"consignmentNumber":"15501234567890"}}] *)
Definition shipmentBody : string :=
  "{" +:+ quoted "data" +:+ ":{" +:+ quoted "consignmentNumber" +:+ ":"
  +:+ quoted "15501234567890" +:+ "}}".

Definition shipmentJson : json :=
  JObj [("data", JObj [("consignmentNumber", JStr "15501234567890")])].

(** [{"error":{"errorMessage":"Invalid service","errorAction":"Check service code"}}] *)
Definition errorBody : string :=
  "{" +:+ quoted "error" +:+ ":{" +:+ quoted "errorMessage" +:+ ":"
  +:+ quoted "Invalid service" +:+ "," +:+ quoted "errorAction" +:+ ":"
  +:+ quoted "Check service code" +:+ "}}".

Definition errorJson : json :=
  JObj [("error", JObj [("errorMessage", JStr "Invalid service");
                        ("errorAction", JStr "Check service code")])].

(** [{"error":{"errorMessage":null,"errorAction":"Check service code"}}] *)
Definition nullMessageBody : string :=
  "{" +:+ quoted "error" +:+ ":{" +:+ quoted "errorMessage" +:+ ":null,"
  +:+ quoted "errorAction" +:+ ":" +:+ quoted "Check service code" +:+ "}}".

Definition nullMessageJson : json :=
  JObj [("error", JObj [("errorMessage", JNull);
                        ("errorAction", JStr "Check service code")])].

(** [{"error":{...},"data":{"consignmentNumber":"15501234567890"}}] *)
Definition warningBody : string :=
  "{" +:+ quoted "error" +:+ ":{" +:+ quoted "errorMessage" +:+ ":"
  +:+ quoted "Invalid service" +:+ "}," +:+ quoted "data" +:+ ":{"
  +:+ quoted "consignmentNumber" +:+ ":" +:+ quoted "15501234567890" +:+ "}}".

Definition warningJson : json :=
  JObj [("error", JObj [("errorMessage", JStr "Invalid service")]);
        ("data", JObj [("consignmentNumber", JStr "15501234567890")])].

(** A ZPL label *)
Definition zplLabel : string := "^XA^FO50,50^A0N,50,50^FDDPD^FS^XZ".

(** [JSON.parse] on the bodies above; anything else is taken not to be
    JSON. *)
Definition sampleParse (text : string) : option json :=
  if String.eqb text (loginBody "T1") then Some (loginJson "T1")
  else if String.eqb text (loginBody "T2") then Some (loginJson "T2")
  else if String.eqb text shipmentBody then Some shipmentJson
  else if String.eqb text errorBody then Some errorJson
  else if String.eqb text warningBody then Some warningJson
  else if String.eqb text nullMessageBody then Some nullMessageJson
  else if String.eqb text "{}" then Some (JObj [])
  else None.

(** [JSON.stringify] on the error objects above *)
Definition sampleStringify (v : json) : string :=
  match v with
  | JObj [("errorMessage", JStr m)] =>
      "{" +:+ quoted "errorMessage" +:+ ":" +:+ quoted m +:+ "}"
  | JObj [] => "{}"
  | JNull => "null"
  | _ => "[object]"
  end.

(** Days of the UTC calendar *)
Definition utcMidnight (t : Z) : Z := 86400000 * (t / 86400000).

Definition nthOutcome (l : list FetchOutcome) (n : nat) : FetchOutcome :=
  nth n l (NetErr "fetch failed").

(** The environment in which the login endpoint answers [logins] and the
    business endpoints answer [answers], call after call, and every later
    call fails at the network. *)
Definition sampleRuntime (logins answers : list FetchOutcome) : Runtime :=
  {| JSON_parse := sampleParse;
     JSON_stringify := sampleStringify;
     authNet := nthOutcome logins;
     apiNet := nthOutcome answers;
     startOfLocalDay := utcMidnight |}.

Definition sampleCredentials : DPDCredentials :=
  mkCredentials "123456" "shop" "secret".

Definition initialState {C} (c : C) (now : Z) : State C := mkState c now 0 0 [].

Definition postRequest (hs : option (gmap string string)) (attempts : option Z)
    : DPDRequestOptions :=
  mkOptions "POST" "/shipping/shipment" None hs None attempts.

Definition labelHeaders : gmap string string := {[ "Accept" := "text/vnd.zebra-zpl" ]}.


(** A storage adapter that is out of reach: every call rejects and leaves
    what is stored, here nothing, as it is. *)
Definition unreachableStorage : AsyncStorage unit :=
  {| asyncGet m := (Raised "storage unreachable", m);
     asyncSet _ _ m := (Raised "storage unreachable", m);
     asyncClear m := (Raised "storage unreachable", m) |}.

(** The delays and the number of login calls of a trace *)
Definition delaysOf (t : list Event) : list Z :=
  omap (fun e => match e with EvDelay ms => Some ms | _ => None end) t.

Definition isDispatch (e : Event) : bool :=
  match e with EvDispatch _ _ _ _ => true | _ => false end.

Definition dispatchesOf (t : list Event) : nat := length (List.filter isDispatch t).

Definition isClear (e : Event) : bool :=
  match e with EvClear => true | _ => false end.

Definition clearsOf (t : list Event) : nat := length (List.filter isClear t).

(** ** Vocabulary of the statements *)

Section Vocabulary.
Context `{Runtime}.

(** What the n-th login call gives: the token or the error thrown *)
Definition authAttempt (n : nat) : Outcome string :=
  match authNet n with
  | NetErr e => Raised e
  | Resp r => readGeoSession r
  end.

(** The state right after a business call was dispatched with [token] *)
Definition dispatched (options : DPDRequestOptions) (token : string)
    (s : State TokenCache) : State TokenCache :=
  mkState (store s) (clock s) (authCalls s) (S (apiCalls s))
    (trace s ++ [EvDispatch (method options) (urlOf options)
                   (headersOf options ∪ {[ "Content-Type" := "application/json";
                                           "GeoSession" := token ]})
                   (bodyOf options)]).

(** The state right after [await delay(ms)] *)
Definition delayed {C} (ms : Z) (s : State C) : State C := snd (delay ms s).

(** The state right after a login call *)
Definition loggedIn {C} (c : DPDCredentials) (s : State C) : State C :=
  mkState (store s) (clock s) (S (authCalls s)) (apiCalls s) (trace s ++ [EvAuth c]).

(** The calendar-staleness rule in the words of the specification: the
    expiry falls on the current calendar day and the session was issued,
    90 minutes before its expiry, more than 12 hours before [now]. *)
Definition calendarStale (now expiresAt : Z) : Prop :=
  startOfLocalDay expiresAt = startOfLocalDay now
  /\ 12 * 3600000 < now - (expiresAt - 90 * 60000).

(** [expiryDate <= now] at line 511, which is false for an invalid
    date *)
Definition expired (now : Z) (expiry : Date) : bool :=
  match expiry with
  | TimeValue expiresAt => expiresAt <=? now
  | InvalidDate => false
  end.

(** The state right after [clearGeoSession()] *)
Definition cleared (s : State TokenCache) : State TokenCache := snd (clearGeoSession s).

(** The state right after a login with [creds] that gave [token] *)
Definition authenticated (creds : DPDCredentials) (token : string)
    (s : State TokenCache) : State TokenCache :=
  mkState (mkTokenCache (Some token) (Some (clock s + 90 * 60 * 1000)))
          (clock s) (S (authCalls s)) (apiCalls s) (trace s ++ [EvAuth creds]).

(** Whether a 401 answer to a request clears the cache *)
Definition clearsOn401 (opts : DPDRequestOptions) (r : Response) : bool :=
  negb (isLabelRequest opts) && bool_decide (is_Some (parseBody r)).

(** The state in which the attempt after a 401 starts *)
Definition after401 (opts : DPDRequestOptions) (attempt : Z) (r : Response)
    (s : State TokenCache) : State TokenCache :=
  delayed (DPD_API.RETRY_DELAY * (attempt + 1))
          (if clearsOn401 opts r then cleared s else s).


(** The outcome of a dispatch is a failure other than a 401, and [e] is
    the message of the error that the attempt throws for it: a transport
    error; for a request that is not a label request, a body that is not
    JSON, or a JSON body under a status outside 2xx or with an error and
    no data; for a label request, a status outside 2xx. *)
Inductive terminalFailure (opts : DPDRequestOptions) : FetchOutcome -> string -> Prop :=
| transportError (e : string) :
    terminalFailure opts (NetErr e) e
| unparseableBody (r : Response) :
    isLabelRequest opts = false ->
    parseBody r = None ->
    status r <> 401 ->
    terminalFailure opts (Resp r)
      (if negb (ok r) then strOr (raw r) (statusText r)
       else "Invalid JSON response from DPD API")
| upstreamError (r : Response) (data : json) :
    isLabelRequest opts = false ->
    parseBody r = Some data ->
    (negb (ok r) || (hasError data && negb (hasData data))) = true ->
    status r <> 401 ->
    terminalFailure opts (Resp r) (failureMessage data r)
| labelRequestFailed (r : Response) :
    isLabelRequest opts = true ->
    ok r = false ->
    status r <> 401 ->
    terminalFailure opts (Resp r)
      ("Label request failed: " +:+ pretty (status r) +:+ " " +:+ statusText r).

Section OfManager.
Context {S : Type} `{GeoSessionStorage S}.
Variable this : GeoSessionManager.

(** The state in which the loop of [authenticateWithRetry] ends after
    [fuel] failed logins in a row, the first being attempt number
    [attempt] *)
Fixpoint failedLogins (fuel : nat) (attempt : Z) (s : State S) : State S :=
  match fuel with
  | O => s
  | Datatypes.S fuel' =>
      let s1 := loggedIn (credentials this) s in
      failedLogins fuel' (attempt + 1)
        (if attempt <? maxRetries this
         then delayed (baseRetryDelay this * 2 ^ (attempt - 1)) s1
         else s1)
  end.

(** The events of [fuel] failed logins in a row: a login call, then the
    wait that follows it if another attempt is left *)
Fixpoint failedTrace (fuel : nat) (attempt : Z) : list Event :=
  match fuel with
  | O => []
  | Datatypes.S fuel' =>
      EvAuth (credentials this)
      :: (if attempt <? maxRetries this
          then [EvDelay (baseRetryDelay this * 2 ^ (attempt - 1))]
          else [])
      ++ failedTrace fuel' (attempt + 1)
  end.

(** The error thrown at lines 566-568 *)
Definition exhausted (lastError : option string) : string :=
  "Failed to authenticate after " +:+ pretty (maxRetries this) +:+ " attempts: "
  +:+ strOr (default "" lastError) "Unknown error".

(** The state right after [storage.set(token, e)], [e] being the time
    value of the expiry *)
Definition saved (token : string) (e : Z) (s : State S) : State S :=
  mkState (storageSet token (TimeValue e) (store s)) (clock s) (authCalls s)
          (apiCalls s) (trace s).
End OfManager.
End Vocabulary.

(** [outer] carries [inner] somewhere inside it. *)
Definition wraps (outer inner : string) : Prop :=
  exists before after, outer = before +:+ inner +:+ after.

(** All the characters of [s] are of the class [cls]. *)
Fixpoint allOf (cls : ascii -> bool) (s : string) : bool :=
  match s with
  | EmptyString => true
  | String c rest => cls c && allOf cls rest
  end.

(** The postcode pattern read as a grammar: one or two area letters, one
    or two district digits, an optional letter, the sector digit and the
    two unit letters, and nothing else. *)
Definition postcodePattern (s : string) : Prop :=
  exists area district sub sector unit,
    s = area +:+ district +:+ sub +:+ sector +:+ unit
    /\ (allOf isUpper area = true /\ (1 <= String.length area <= 2)%nat)
    /\ (allOf isDigit district = true /\ (1 <= String.length district <= 2)%nat)
    /\ (allOf isUpper sub = true /\ (String.length sub <= 1)%nat)
    /\ (allOf isDigit sector = true /\ String.length sector = 1%nat)
    /\ (allOf isUpper unit = true /\ String.length unit = 2%nat).

(** Answers and a cache for the examples *)
Definition okResp (text : string) : FetchOutcome := Resp (mkResponse 200 "OK" text).

Definition unauthorized (text : string) : FetchOutcome :=
  Resp (mkResponse 401 "Unauthorized" text).

Definition serverError (text : string) : FetchOutcome :=
  Resp (mkResponse 500 "Internal Server Error" text).

Definition cachedT1 : TokenCache := mkTokenCache (Some "T1") (Some 5400000).

(** ** Further functions: labels, shipments, tracking and their callers *)

(** The other entries of [DPD_API.ENDPOINTS] *)
Module DPD_ENDPOINTS.
Definition SHIPMENT : string := "/shipping/shipment".
Definition LABEL : string := "/shipping/shipment".
Definition TRACKING : string := "/shipping/network/".
End DPD_ENDPOINTS.

(** [getAcceptHeader] of the label-format module: a [switch] on the
    format with a [default] case *)
Definition getAcceptHeader (format : string) : string :=
  if String.eqb format "html" then "text/html"
  else if String.eqb format "zpl" then "text/vnd.zebra-zpl"
  else if String.eqb format "clp" then "text/vnd.citizen-clp"
  else if String.eqb format "epl" then "text/vnd.eltron-epl"
  else "text/vnd.zebra-zpl".

(** [getTrackingUrl] of the configuration module *)
Definition getTrackingUrl (parcelNumber : json) : string :=
  "https://track.dpdlocal.co.uk/?parcelNumber=" +:+ ToString parcelNumber.

(** What the caller of [authenticatedRequest] sees of its result *)

(** [!!response] *)
Definition payloadTruthy (p : Payload) : bool :=
  match p with
  | RawText text => negb (String.eqb text "")
  | Parsed v => truthy (Some v)
  end.

(** [typeof response === "object"] *)
Definition payloadIsObject (p : Payload) : bool :=
  match p with
  | Parsed (JObj _) | Parsed (JArr _) | Parsed JNull => true
  | _ => false
  end.

(** [typeof response === "string"] *)
Definition payloadIsString (p : Payload) : bool :=
  match p with
  | RawText _ | Parsed (JStr _) => true
  | _ => false
  end.

(** The payload as a JavaScript value *)
Definition payloadValue (p : Payload) : json :=
  match p with
  | RawText text => JStr text
  | Parsed v => v
  end.

(** [v?.[0]] *)
Definition elementAt0 (v : jsval) : jsval :=
  match v with
  | Some (JArr (x :: _)) => Some x
  | Some (JStr (String c _)) => Some (JStr (String c EmptyString))
  | Some (JObj fs) => assoc "0" fs
  | _ => None
  end.

Definition obind {A B} (o : Outcome A) (k : A -> Outcome B) : Outcome B :=
  match o with
  | Raised e => Raised e
  | Returned a => k a
  end.

Module LabelResult.
(** [GenerateLabelResult] *)
Record t : Type := mk {
  success : bool;
  labelUrl : option string;
  labelData : jsval;
  error : option string
}.
End LabelResult.

Module ShipmentResult.
(** [CreateShipmentResult] *)
Record t : Type := mk {
  success : bool;
  shipmentId : jsval;
  consignmentNumber : jsval;
  parcelNumber : jsval;
  trackingUrl : option string;
  error : option string;
  errorCode : option string
}.
End ShipmentResult.

(** [ShipmentStatusUpdate] as [trackShipment] builds it *)
Record ShipmentStatusUpdate : Type := mkUpdate {
  updateStatus : string;
  updateTimestamp : string;
  updateMessage : jsval;
  updateLocation : jsval
}.

Module TrackResult.
(** [TrackShipmentResult] *)
Record t : Type := mk {
  success : bool;
  status : option string;
  statusHistory : option (list ShipmentStatusUpdate);
  estimatedDelivery : jsval;
  actualDelivery : jsval;
  error : option string
}.
End TrackResult.

Module AuthStatus.
(** The result of [getAuthStatus]; [expiresAt] is [Some None] for [null]
    and [None] when the property is not there. *)
Record t : Type := mk {
  authenticated : bool;
  expiresAt : option (option Z)
}.
End AuthStatus.

Module CompleteResult.
(** [CreateShipmentResult & { labelUrl?: string }] *)
Record t : Type := mk {
  shipment : ShipmentResult.t;
  labelUrl : option string
}.
End CompleteResult.

(** [{ ...result, error }] *)
Definition withError (result : ShipmentResult.t) (e : string) : ShipmentResult.t :=
  ShipmentResult.mk (ShipmentResult.success result) (ShipmentResult.shipmentId result)
    (ShipmentResult.consignmentNumber result) (ShipmentResult.parcelNumber result)
    (ShipmentResult.trackingUrl result) (Some e) (ShipmentResult.errorCode result).

(** [sanitizeHeaders] of the logger module *)
Definition sanitizeHeaders (headers : option (gmap string string))
    : option (gmap string string) :=
  match headers with
  | None => None
  | Some hs =>
      Some (delete "set-cookie"
              (delete "Set-Cookie"
                 (delete "GeoSession"
                    (delete "authorization"
                       (delete "Authorization" hs)))))
  end.

(** The pricing of the configuration module.  The functions below
    compare amounts and choose among them without any arithmetic; the
    amounts are whole numbers (of pence) here. *)
Record ServicePricing : Type := mkServicePricing {
  basePrice : Z;
  perKgPrice : Z;
  customerPrice : Z
}.

Record Pricing : Type := mkPricing {
  freeDeliveryThreshold : Z;
  flatDeliveryFee : Z;
  minimumOrderValue : Z;
  services : gmap string ServicePricing
}.

(** [calculateDeliveryFee] of the configuration module; [service] is
    [None] when the argument is [undefined], for which "12" stands. *)
Definition calculateDeliveryFee (subtotal : Z) (service : option string)
    (pricing : Pricing) : Z :=
  if freeDeliveryThreshold pricing <=? subtotal then 0
  else
    match services pricing !! default "12" service with
    | Some s => if customerPrice s =? 0 then flatDeliveryFee pricing else customerPrice s
    | None => flatDeliveryFee pricing
    end.

(** [qualifiesForFreeDelivery] *)
Definition qualifiesForFreeDelivery (subtotal : Z) (pricing : Pricing) : bool :=
  freeDeliveryThreshold pricing <=? subtotal.

(** [statusMap] of [mapDPDStatus] (shipment.ts, lines 423-432) *)
Definition statusMap : list (string * string) :=
  [ ("CREATED", "created");
    ("LABEL GENERATED", "label_generated");
    ("COLLECTED", "collected");
    ("IN TRANSIT", "in_transit");
    ("OUT FOR DELIVERY", "out_for_delivery");
    ("DELIVERED", "delivered");
    ("FAILED", "failed");
    ("CANCELLED", "cancelled") ].

Fixpoint statusOf (key : string) (m : list (string * string)) : option string :=
  match m with
  | [] => None
  | (k, v) :: rest => if String.eqb key k then Some v else statusOf key rest
  end.

(** [mapDPDStatus] (lines 422-435).  The key read is in upper case, so
    that it names no property that [statusMap] inherits. *)
Definition mapDPDStatus `{Strings} (dpdStatus : string) : string :=
  strOr (default "" (statusOf (toUpperCase dpdStatus) statusMap)) "created".

(** [calculateParcels] (lines 441-449), for a weight that is a whole number
    of kilograms below 2^53: the quotient by 30 of such a weight is either
    a whole number, which the division gives exactly, or at least 1/30
    away from one, more than the rounding of the division can move it, so
    that [Math.ceil] of the rounded quotient is the ceiling of the
    quotient. *)
Definition calculateParcels (totalWeight : Z) : Z :=
  if totalWeight <=? 30 then 1 else - ((- totalWeight) / 30).

Section Shipment.
Context `{Runtime} `{Strings}.
(** The message of the [TypeError] raised by the engine when [what]
    fails *)
Variable typeError : string -> string.

(** The options of the request of [generateLabel] (lines 191-207) *)
Definition generateLabelOptions (params : json) : DPDRequestOptions :=
  let contentType :=
    match field "format" (Some params) with
    | Some (JStr format) =>
        if String.eqb format "thermal" then "text/vnd.citizen-clp" else "text/html"
    | _ => "text/html"
    end in
  mkOptions "GET"
    (DPD_ENDPOINTS.LABEL +:+ "/" +:+ template (field "shipmentId" (Some params))
     +:+ "/label/")
    None (Some {[ "Accept" := contentType ]}) None None.

Definition labelFailure (e : string) : LabelResult.t :=
  LabelResult.mk false None None (Some e).

(** Lines 209-224 of [generateLabel]: from the response to the result *)
Definition readLabel (response : Payload) : LabelResult.t :=
  if negb (payloadTruthy response)
     || (payloadIsObject response
         && negb (truthy (field "data" (Some (payloadValue response)))))
  then labelFailure "No label data received from DPD"
  else
    LabelResult.mk true None
      (if payloadIsString response
       then Some (payloadValue response)
       else field "data" (Some (payloadValue response)))
      None.

(** [generateLabel] (shipment.ts, lines 186-231); [params] is the object
    passed, of which [shipmentId] and [format] are read. *)
Definition generateLabel (credentials : DPDCredentials) (params : json)
    : M TokenCache LabelResult.t :=
  tryCatch
    (match params with
     | JNull => throw (typeError "params")
     | _ =>
         response <- authenticatedRequest credentials (generateLabelOptions params) ;;
         ret (readLabel response)
     end)
    (fun e => ret (labelFailure e)).

(** [storageAdapter.uploadLabel(labelData, fileName)] *)
Variable uploadLabel : json -> string -> Outcome string.

(** [generateAndUploadLabel] (dpd-service.ts, lines 179-217) *)
Definition generateAndUploadLabel (shipmentId : json) (labelFormat : string)
    (credentials : DPDCredentials) : M TokenCache LabelResult.t :=
  tryCatch
    (labelResult <- generateLabel credentials
                      (JObj [("shipmentId", shipmentId);
                             ("labelFormat", JStr labelFormat)]) ;;
     if negb (LabelResult.success labelResult)
        || negb (truthy (LabelResult.labelData labelResult))
     then ret labelResult
     else
       timestamp <- dateNow ;;
       let extension := if String.eqb labelFormat "html" then "html" else "txt" in
       let fileName :=
         ToString shipmentId +:+ "-" +:+ pretty timestamp +:+ "." +:+ extension in
       labelUrl <- liftOutcome
                     (uploadLabel (valueOr (LabelResult.labelData labelResult) JNull)
                                  fileName) ;;
       ret (LabelResult.mk true (Some labelUrl) (LabelResult.labelData labelResult) None))
    (fun e => ret (labelFailure e)).

Definition shipmentFailure (e code : string) : ShipmentResult.t :=
  ShipmentResult.mk false None None None None (Some e) (Some code).

(** Lines 132-165 of [createShipment]: from the response to the result *)
Definition readShipment (response : Payload) : Outcome ShipmentResult.t :=
  match response with
  | Parsed JNull => Raised (typeError "response.data")
  | _ =>
      let responseData := field "data" (Some (payloadValue response)) in
      let shipmentId := field "shipmentId" responseData in
      let first := elementAt0 (field "consignment" responseData) in
      let firstDetail := elementAt0 (field "consignmentDetail" responseData) in
      let consignmentNumber :=
        field "consignmentNumber" first |?| field "consignmentNumber" firstDetail in
      let parcelNumbers :=
        field "parcelNumbers" first |?| field "parcelNumbers" firstDetail in
      let parcelNumber := elementAt0 parcelNumbers in
      if negb (truthy consignmentNumber) || negb (truthy shipmentId)
         || negb (truthy parcelNumber)
      then
        Returned (shipmentFailure
                    ("Missing required data: "
                     +:+ (if negb (truthy shipmentId) then "shipmentId"
                          else if negb (truthy consignmentNumber) then "consignmentNumber"
                          else "parcelNumber"))
                    "INCOMPLETE_RESPONSE")
      else
        Returned (ShipmentResult.mk true shipmentId consignmentNumber parcelNumber
                    (Some (getTrackingUrl (valueOr parcelNumber JNull))) None None)
  end.

(** The parameters of a shipment with the business configuration, and the
    request body that lines 44-120 build from them and from the time of
    the call: the weights are divided and rounded to two decimals in
    floating point, which is left to the environment; building the body
    throws when an object it reads from is missing. *)
Variable ShipmentParams : Type.
Variable shipmentRequest : ShipmentParams -> Z -> Outcome json.

(** [createShipment] (shipment.ts, lines 38-173) *)
Definition createShipment (credentials : DPDCredentials) (params : ShipmentParams)
    : M TokenCache ShipmentResult.t :=
  tryCatch
    (now <- dateNow ;;
     body <- liftOutcome (shipmentRequest params now) ;;
     response <- authenticatedRequest credentials
                   (mkOptions "POST" DPD_ENDPOINTS.SHIPMENT (Some body) None None None) ;;
     liftOutcome (readShipment response))
    (fun e => ret (shipmentFailure e "SHIPMENT_CREATION_FAILED")).

(** [new Date(v).toISOString()] *)
Variable toISOString : jsval -> Outcome string.

(** [mapDPDStatus(v)] for a value that need not be a string *)
Definition mapStatusOf (v : jsval) : Outcome string :=
  match v with
  | Some (JStr s) => Returned (mapDPDStatus s)
  | _ => Raised (typeError "dpdStatus.toUpperCase")
  end.

(** The callback of [history.map] (lines 391-396), event after event *)
Fixpoint mapEvents (events : list json) : Outcome (list ShipmentStatusUpdate) :=
  match events with
  | [] => Returned []
  | event :: rest =>
      match event with
      | JNull => Raised (typeError "event.status")
      | _ =>
          obind (mapStatusOf (field "status" (Some event))) (fun status =>
          obind (toISOString (field "timestamp" (Some event))) (fun timestamp =>
          obind (mapEvents rest) (fun updates =>
          Returned (mkUpdate status timestamp
                      (field "message" (Some event))
                      (field "location" (Some event)) :: updates))))
      end
  end.

Definition trackFailure (e : string) : TrackResult.t :=
  TrackResult.mk false None None None None (Some e).

(** Lines 379-406 of [trackShipment]: from the response to the result *)
Definition readTracking (response : Payload) : Outcome TrackResult.t :=
  match response with
  | Parsed JNull => Raised (typeError "response.data")
  | _ =>
      let data := field "data" (Some (payloadValue response)) in
      if negb (truthy data) then Returned (trackFailure "No tracking data available")
      else
        obind (mapStatusOf (field "status" data ??? Some (JStr "UNKNOWN"))) (fun status =>
        obind (if truthy (field "history" data)
               then match field "history" data with
                    | Some (JArr events) =>
                        obind (mapEvents events) (fun updates => Returned (Some updates))
                    | _ => Raised (typeError "response.data.history.map")
                    end
               else Returned None) (fun statusHistory =>
        Returned (TrackResult.mk true (Some status) statusHistory
                    (field "estimatedDelivery" data) (field "actualDelivery" data)
                    None)))
  end.

(** The options of the request of [trackShipment] (lines 372-375) *)
Definition trackShipmentOptions (params : json) : DPDRequestOptions :=
  mkOptions "GET"
    (DPD_ENDPOINTS.TRACKING +:+ template (field "consignmentNumber" (Some params)))
    None None None None.

(** [trackShipment] (shipment.ts, lines 364-413); [params] is the object
    passed, of which [consignmentNumber] is read. *)
Definition trackShipment (credentials : DPDCredentials) (params : json)
    : M TokenCache TrackResult.t :=
  tryCatch
    (match params with
     | JNull => throw (typeError "params")
     | _ =>
         response <- authenticatedRequest credentials (trackShipmentOptions params) ;;
         liftOutcome (readTracking response)
     end)
    (fun e => ret (trackFailure e)).

(** Steps 3 and 4 of [createCompleteShipment] (lines 85-134): the costs and
    the dates, which are computed in floating point and on the local
    calendar, and the shipping data made of them, of the result of the
    shipment and of the URL of the label at [now]; the cost throws on a
    service that has no price.  [dbAdapter.updateOrder] then stores the
    data.  [ShipmentParams] stands for the order identifier, the
    parameters and the configuration together. *)
Variable shippingData : ShipmentParams -> ShipmentResult.t -> string -> Z -> Outcome json.
Variable updateOrder : ShipmentParams -> json -> Outcome unit.

(** [createCompleteShipment] (dpd-service.ts, lines 46-167);
    [credentials] is [config.credentials] and [labelFormat] is
    [config.labels.format]. *)
Definition createCompleteShipment (params : ShipmentParams) (labelFormat : string)
    (credentials : DPDCredentials) : M TokenCache CompleteResult.t :=
  tryCatch
    (shipmentResult <- createShipment credentials params ;;
     if negb (ShipmentResult.success shipmentResult)
        || negb (truthy (ShipmentResult.consignmentNumber shipmentResult))
        || negb (truthy (ShipmentResult.shipmentId shipmentResult))
        || negb (truthy (ShipmentResult.parcelNumber shipmentResult))
     then ret (CompleteResult.mk shipmentResult None)
     else
       labelResult <- generateAndUploadLabel
                        (valueOr (ShipmentResult.shipmentId shipmentResult) JNull)
                        labelFormat credentials ;;
       if negb (LabelResult.success labelResult)
          || negb (nonEmpty (LabelResult.labelUrl labelResult))
       then ret (CompleteResult.mk
                   (withError shipmentResult
                      ("Shipment created but label generation failed: "
                       +:+ default "undefined" (LabelResult.error labelResult)))
                   None)
       else
         now <- dateNow ;;
         data <- liftOutcome
                   (shippingData params shipmentResult
                      (default "" (LabelResult.labelUrl labelResult)) now) ;;
         tryCatch (liftOutcome (updateOrder params data))
                  (fun e => throw ("Shipment created but failed to update order: "
                                   +:+ e)) ;;;
         ret (CompleteResult.mk
                (ShipmentResult.mk true None
                   (ShipmentResult.consignmentNumber shipmentResult) None
                   (ShipmentResult.trackingUrl shipmentResult) None None)
                (LabelResult.labelUrl labelResult)))
    (fun e => ret (CompleteResult.mk (shipmentFailure e "COMPLETE_SHIPMENT_FAILED") None)).

(** [getAuthStatus] (dpd-service.ts, lines 327-342) *)
Definition getAuthStatus (credentials : DPDCredentials) : M TokenCache AuthStatus.t :=
  tryCatch
    (token <- getGeoSession credentials false ;;
     ret (AuthStatus.mk (negb (String.eqb token "")) (Some None)))
    (fun _ => ret (AuthStatus.mk false None)).

End Shipment.

(** ** Vocabulary of the further statements *)

Section MoreVocabulary.
Context `{Runtime}.

(** The headers [authenticatedRequest] sends with [token] *)
Definition sentHeaders (opts : DPDRequestOptions) (token : string) : gmap string string :=
  headersOf opts ∪ {[ "Content-Type" := "application/json"; "GeoSession" := token ]}.

(** An event [authenticatedRequest] may add to the trace: a login with the
    credentials given, a dispatch of the request described by the options,
    a wait, a clearing of the cache. *)
Definition requestEvent (creds : DPDCredentials) (opts : DPDRequestOptions)
    (e : Event) : Prop :=
  match e with
  | EvAuth c => c = creds
  | EvDispatch m u h b =>
      m = method opts /\ u = urlOf opts /\ b = bodyOf opts
      /\ exists token, h = sentHeaders opts token
  | EvDelay ms => exists attempt, 0 <= attempt /\ ms = DPD_API.RETRY_DELAY * (attempt + 1)
  | EvClear => True
  end.

(** The cache with [token] in it, expiring 90 minutes after [now] *)
Definition cacheOf (token : string) (now : Z) : TokenCache :=
  mkTokenCache (Some token) (Some (now + 90 * 60 * 1000)).

(** The [Accept] header of the request of [generateLabel] *)
Definition labelContentType (params : json) : string :=
  match field "format" (Some params) with
  | Some (JStr format) =>
      if String.eqb format "thermal" then "text/vnd.citizen-clp" else "text/html"
  | _ => "text/html"
  end.

(** The URL of the label of a shipment *)
Definition labelUrlOf (shipmentId : jsval) : string :=
  DPD_API.BASE_URL +:+ "/shipping/shipment/" +:+ template shipmentId +:+ "/label/".

(** The dispatches of a trace are [GET] requests of [url], without a body,
    that carry the header [Accept: accept]. *)
Definition labelDispatches (url accept : string) (t : list Event) : Prop :=
  Forall (fun e => match e with
                   | EvDispatch m u h b =>
                       m = "GET" /\ u = url /\ h !! "Accept" = Some accept /\ b = None
                   | _ => True
                   end) t.

(** The header names that [sanitizeHeaders] removes *)
Definition sensitiveHeaders : list string :=
  [ "Authorization"; "authorization"; "GeoSession"; "Set-Cookie"; "set-cookie" ].

(** The time the waits of a trace take *)
Definition elapsed (t : list Event) : Z :=
  foldr (fun ms total => Z.max 0 ms + total) 0 (delaysOf t).

(** The internal statuses of a shipment *)
Definition internalStatuses : list string :=
  [ "created"; "label_generated"; "collected"; "in_transit"; "out_for_delivery";
    "delivered"; "failed"; "cancelled" ].
End MoreVocabulary.

(** ** The request pipeline *)

Section RequestPipeline.
Context `{Runtime}.
Variable creds : DPDCredentials.
Variable opts : DPDRequestOptions.

Lemma attemptBody_dispatch attempt s t s1 r :
  getGeoSession creds (0 <? attempt) s = (Returned t, s1) ->
  apiNet (apiCalls s1) = Resp r ->
  attemptBody creds opts attempt s
  = handleResponse opts attempt r (dispatched opts t s1).
Proof.
  intros Hget Hnet. unfold attemptBody, bind. rewrite Hget.
  unfold fetchApi. rewrite Hnet. reflexivity.
Qed.

Lemma attemptBody_network_error attempt s t s1 e :
  getGeoSession creds (0 <? attempt) s = (Returned t, s1) ->
  apiNet (apiCalls s1) = NetErr e ->
  attemptBody creds opts attempt s = (Raised e, dispatched opts t s1).
Proof.
  intros Hget Hnet. unfold attemptBody, bind. rewrite Hget.
  unfold fetchApi. rewrite Hnet. reflexivity.
Qed.

Lemma attemptBody_login_error attempt s e s1 :
  getGeoSession creds (0 <? attempt) s = (Raised e, s1) ->
  attemptBody creds opts attempt s = (Raised e, s1).
Proof. intros Hget. unfold attemptBody, bind. now rewrite Hget. Qed.

Lemma requestLoop_done fuel attempt last s p s1 :
  attemptBody creds opts attempt s = (Returned (Done p), s1) ->
  requestLoop creds opts (S fuel) attempt last s = (Returned p, s1).
Proof. intros Hbody. simpl. now rewrite Hbody. Qed.

Lemma requestLoop_again fuel attempt last s s1 :
  attemptBody creds opts attempt s = (Returned Again, s1) ->
  requestLoop creds opts (S fuel) attempt last s
  = requestLoop creds opts fuel (attempt + 1) last s1.
Proof. intros Hbody. simpl. now rewrite Hbody. Qed.

Lemma requestLoop_raised fuel attempt last s e s1 :
  attemptBody creds opts attempt s = (Raised e, s1) ->
  requestLoop creds opts (S fuel) attempt last s
  = if negb (retryOf opts) || (retryAttemptsOf opts - 1 <=? attempt)
    then (Raised e, s1)
    else requestLoop creds opts fuel (attempt + 1) (Some e)
           (delayed (DPD_API.RETRY_DELAY * (attempt + 1)) s1).
Proof.
  intros Hbody. simpl. rewrite Hbody.
  destruct (negb (retryOf opts) || (retryAttemptsOf opts - 1 <=? attempt)); reflexivity.
Qed.

(** A label request answered with a 2xx status and a body that is not
    JSON yields the body as it is. *)
Lemma handleResponse_label_text attempt r s :
  isLabelRequest opts = true ->
  ok r = true ->
  JSON_parse (raw r) = None ->
  handleResponse opts attempt r s = (Returned (Done (RawText (raw r))), s).
Proof.
  intros Hlabel Hok Hparse. unfold handleResponse. rewrite Hlabel.
  unfold bind, liftOutcome, labelResponse. rewrite Hok, Hparse. reflexivity.
Qed.

(** A 2xx JSON body with an error and a non-empty data payload is
    returned. *)
Lemma handleResponse_warning attempt r data s :
  isLabelRequest opts = false ->
  ok r = true ->
  parseBody r = Some data ->
  hasData data = true ->
  handleResponse opts attempt r s = (Returned (Done (Parsed data)), s).
Proof.
  intros Hlabel Hok Hparse Hdata. unfold handleResponse. rewrite Hlabel.
  unfold jsonResponse. rewrite Hparse, Hok, Hdata.
  rewrite andb_false_r. reflexivity.
Qed.
End RequestPipeline.

Section RequestDelays.
Context `{Runtime}.
Variable creds : DPDCredentials.
Variable opts : DPDRequestOptions.

Lemma delaysOf_app (a b : list Event) : delaysOf (a ++ b) = delaysOf a ++ delaysOf b.
Proof. apply omap_app. Qed.

Lemma authenticate_delays s :
  delaysOf (trace (snd (authenticate creds s))) = delaysOf (trace s).
Proof.
  unfold authenticate, bind, fetchAuth.
  destruct (authNet (authCalls s)) as [e|r]; simpl.
  - rewrite delaysOf_app. simpl. apply app_nil_r.
  - unfold liftOutcome. destruct (readGeoSession r); simpl;
      rewrite delaysOf_app; simpl; apply app_nil_r.
Qed.

Lemma getGeoSession_delays force s :
  delaysOf (trace (snd (getGeoSession creds force s))) = delaysOf (trace s).
Proof.
  unfold getGeoSession, bind, getStore, dateNow.
  destruct (negb force && cacheValid (store s) (clock s)).
  - reflexivity.
  - apply authenticate_delays.
Qed.

Lemma handleResponse_delays attempt r s :
  delaysOf (trace (snd (handleResponse opts attempt r s)))
  = delaysOf (trace s)
    ++ match fst (handleResponse opts attempt r s) with
       | Returned Again => [DPD_API.RETRY_DELAY * (attempt + 1)]
       | _ => []
       end.
Proof.
  unfold handleResponse. destruct (isLabelRequest opts).
  - unfold bind, liftOutcome. destruct (labelResponse r); simpl; now rewrite app_nil_r.
  - unfold jsonResponse. destruct (parseBody r) as [data|].
    + destruct (negb (ok r) || (hasError data && negb (hasData data))).
      * destruct ((status r =? 401) && retryOf opts
                  && (attempt <? retryAttemptsOf opts - 1)); simpl.
        -- rewrite !delaysOf_app. simpl. now rewrite app_nil_r.
        -- now rewrite app_nil_r.
      * simpl. now rewrite app_nil_r.
    + destruct (negb (ok r)); simpl; now rewrite app_nil_r.
Qed.

Lemma attemptBody_delays attempt s :
  delaysOf (trace (snd (attemptBody creds opts attempt s)))
  = delaysOf (trace s)
    ++ match fst (attemptBody creds opts attempt s) with
       | Returned Again => [DPD_API.RETRY_DELAY * (attempt + 1)]
       | _ => []
       end.
Proof.
  pose proof (getGeoSession_delays (0 <? attempt) s) as Hget.
  destruct (getGeoSession creds (0 <? attempt) s) as [[e|t] s1] eqn:Eget.
  - rewrite (attemptBody_login_error _ _ _ _ _ _ Eget). simpl in *.
    now rewrite app_nil_r.
  - destruct (apiNet (apiCalls s1)) as [e|r] eqn:Enet.
    + rewrite (attemptBody_network_error _ _ _ _ _ _ _ Eget Enet). simpl in *.
      rewrite delaysOf_app, Hget. simpl. now rewrite !app_nil_r.
    + rewrite (attemptBody_dispatch _ _ _ _ _ _ _ Eget Enet).
      rewrite handleResponse_delays. f_equal. simpl in *.
      rewrite delaysOf_app, Hget. simpl. now rewrite app_nil_r.
Qed.

(** An attempt reaches [continue] only when another attempt is left. *)
Lemma attemptBody_again attempt s s1 :
  attemptBody creds opts attempt s = (Returned Again, s1) ->
  attempt < retryAttemptsOf opts - 1.
Proof.
  unfold attemptBody, bind.
  destruct (getGeoSession creds (0 <? attempt) s) as [[e|t] s0]; [discriminate|].
  destruct (fetchApi _ _ _ _ s0) as [[e|r] s2]; [discriminate|].
  unfold handleResponse. destruct (isLabelRequest opts).
  - unfold bind, liftOutcome. destruct (labelResponse r); discriminate.
  - unfold jsonResponse. destruct (parseBody r) as [data|].
    + destruct (negb (ok r) || (hasError data && negb (hasData data))); [|discriminate].
      destruct ((status r =? 401) && retryOf opts
                && (attempt <? retryAttemptsOf opts - 1)) eqn:Econd; [|discriminate].
      intros _. apply andb_prop in Econd as [_ Hlt]. lia.
    + destruct (negb (ok r)); discriminate.
Qed.

(** The waits of the loop started at [attempt] are
    [RETRY_DELAY * (attempt + 1)], [RETRY_DELAY * (attempt + 2)], ...,
    one for each attempt that is followed by another one. *)
Lemma requestLoop_delays fuel : forall attempt last s,
  Z.of_nat fuel = Z.max 0 (retryAttemptsOf opts - attempt) ->
  exists m : nat,
    (m <= Nat.pred fuel)%nat
    /\ delaysOf (trace (snd (requestLoop creds opts fuel attempt last s)))
       = delaysOf (trace s)
         ++ List.map (fun k => DPD_API.RETRY_DELAY * (attempt + Z.of_nat k + 1)) (seq 0 m).
Proof.
  induction fuel as [|fuel IH]; intros attempt last s Hfuel.
  - exists 0%nat. split; [lia|]. simpl. now rewrite app_nil_r.
  - pose proof (attemptBody_delays attempt s) as Hd.
    destruct (attemptBody creds opts attempt s) as [[e|[p|]] s1] eqn:Ebody.
    + rewrite (requestLoop_raised _ _ _ _ _ _ _ _ Ebody).
      destruct (negb (retryOf opts) || (retryAttemptsOf opts - 1 <=? attempt)) eqn:Estop.
      * exists 0%nat. split; [lia|]. simpl in *. now rewrite Hd, !app_nil_r.
      * apply orb_false_elim in Estop as [_ Hmore].
        destruct (IH (attempt + 1) (Some e)
                     (delayed (DPD_API.RETRY_DELAY * (attempt + 1)) s1))
          as (m & Hm & Htrace); [lia|].
        exists (S m). split; [lia|].
        rewrite Htrace. unfold delayed. simpl in *.
        rewrite delaysOf_app, Hd. simpl. rewrite app_nil_r, <- app_assoc. simpl.
        f_equal. f_equal; [f_equal; lia|].
        rewrite <- seq_shift, List.map_map. apply List.map_ext. intros k. f_equal. lia.
    + rewrite (requestLoop_done _ _ _ _ _ _ _ _ Ebody).
      exists 0%nat. split; [lia|]. simpl in *. now rewrite Hd, !app_nil_r.
    + rewrite (requestLoop_again _ _ _ _ _ _ _ Ebody).
      pose proof (attemptBody_again _ _ _ Ebody) as Hmore.
      destruct (IH (attempt + 1) last s1) as (m & Hm & Htrace); [lia|].
      exists (S m). split; [lia|].
      rewrite Htrace. simpl in *. rewrite Hd, <- app_assoc. simpl.
      f_equal. f_equal; [f_equal; lia|].
      rewrite <- seq_shift, List.map_map. apply List.map_ext. intros k. f_equal. lia.
Qed.
End RequestDelays.

Section RequestOutcomes.
Context `{Runtime}.
Variable creds : DPDCredentials.
Variable opts : DPDRequestOptions.

Lemma to_nat_succ (n : Z) : 1 <= n -> Z.to_nat n = S (Z.to_nat (n - 1)).
Proof. intros Hn. lia. Qed.

Lemma authenticate_ok s token :
  authAttempt (authCalls s) = Returned token ->
  authenticate creds s = (Returned token, authenticated creds token s).
Proof.
  unfold authAttempt, authenticate, bind, fetchAuth, liftOutcome.
  destruct (authNet (authCalls s)) as [e|r]; [discriminate|].
  intros ->. reflexivity.
Qed.

Lemma authenticate_failed s e :
  authAttempt (authCalls s) = Raised e ->
  authenticate creds s = (Raised e, loggedIn creds s).
Proof.
  unfold authAttempt, authenticate, bind, fetchAuth, liftOutcome.
  destruct (authNet (authCalls s)) as [e'|r].
  - now intros [= ->].
  - now intros ->.
Qed.

Lemma getGeoSession_forced s : getGeoSession creds true s = authenticate creds s.
Proof. reflexivity. Qed.

(** A JSON failure (a status outside 2xx, or an error without data)
    that is not a 401 with attempts left is thrown with the message of
    lines 311-317. *)
Lemma handleResponse_failure attempt r data s :
  isLabelRequest opts = false ->
  parseBody r = Some data ->
  (negb (ok r) || (hasError data && negb (hasData data))) = true ->
  ((status r =? 401) && retryOf opts && (attempt <? retryAttemptsOf opts - 1)) = false ->
  handleResponse opts attempt r s = (Raised (failureMessage data r), s).
Proof.
  intros Hlabel Hparse Hfail Hno. unfold handleResponse. rewrite Hlabel.
  unfold jsonResponse. now rewrite Hparse, Hfail, Hno.
Qed.

(** A 401 with a JSON (or empty) body, with retry on and attempts left:
    the cache is cleared, the pipeline waits and goes on. *)
Lemma handleResponse_unauthorized attempt r data s :
  isLabelRequest opts = false ->
  parseBody r = Some data ->
  status r = 401 ->
  retryOf opts = true ->
  attempt < retryAttemptsOf opts - 1 ->
  handleResponse opts attempt r s
  = (Returned Again, delayed (DPD_API.RETRY_DELAY * (attempt + 1)) (cleared s)).
Proof.
  intros Hlabel Hparse Hstatus Hretry Hmore. unfold handleResponse. rewrite Hlabel.
  unfold jsonResponse. rewrite Hparse.
  assert (ok r = false) as -> by (unfold ok; rewrite Hstatus; reflexivity).
  rewrite Hstatus, Hretry. simpl.
  assert ((attempt <? retryAttemptsOf opts - 1) = true) as -> by lia.
  reflexivity.
Qed.

(** A 401 on a label request, or with a body that is not JSON, is thrown
    without touching the cache. *)
Lemma handleResponse_unauthorized_opaque attempt r s :
  status r = 401 ->
  isLabelRequest opts = true \/ parseBody r = None ->
  exists e, handleResponse opts attempt r s = (Raised e, s).
Proof.
  intros Hstatus Hcase.
  assert (ok r = false) as Hok by (unfold ok; rewrite Hstatus; reflexivity).
  unfold handleResponse. destruct (isLabelRequest opts).
  - unfold bind, liftOutcome, labelResponse. rewrite Hok. simpl. eauto.
  - destruct Hcase as [|Hparse]; [discriminate|].
    unfold jsonResponse. rewrite Hparse, Hok. simpl. eauto.
Qed.

Lemma requestLoop_unauthorized fuel attempt last s t s1 r :
  retryOf opts = true ->
  attempt < retryAttemptsOf opts - 1 ->
  getGeoSession creds (0 <? attempt) s = (Returned t, s1) ->
  apiNet (apiCalls s1) = Resp r ->
  status r = 401 ->
  exists last',
    requestLoop creds opts (S fuel) attempt last s
    = requestLoop creds opts fuel (attempt + 1) last'
        (after401 opts attempt r (dispatched opts t s1)).
Proof.
  intros Hretry Hmore Hget Hnet Hstatus.
  pose proof (attemptBody_dispatch creds opts _ _ _ _ _ Hget Hnet) as Hbody.
  assert ((retryAttemptsOf opts - 1 <=? attempt) = false) as Hleft by lia.
  unfold after401, clearsOn401.
  destruct (isLabelRequest opts) eqn:Hlabel.
  - destruct (handleResponse_unauthorized_opaque attempt r (dispatched opts t s1) Hstatus)
      as [e He]; [now left|].
    rewrite He in Hbody. exists (Some e).
    now rewrite (requestLoop_raised _ _ _ _ _ _ _ _ Hbody), Hretry, Hleft.
  - destruct (parseBody r) as [data|] eqn:Hparse.
    + rewrite (handleResponse_unauthorized attempt r data _ Hlabel Hparse Hstatus Hretry Hmore)
        in Hbody.
      exists last. rewrite (requestLoop_again _ _ _ _ _ _ _ Hbody).
      rewrite bool_decide_true by eauto. reflexivity.
    + destruct (handleResponse_unauthorized_opaque attempt r (dispatched opts t s1) Hstatus)
        as [e He]; [now right|].
      rewrite He in Hbody. exists (Some e).
      rewrite (requestLoop_raised _ _ _ _ _ _ _ _ Hbody), Hretry, Hleft.
      rewrite bool_decide_false by (intros [? ?]; discriminate). reflexivity.
Qed.
End RequestOutcomes.

Section RequestClaims.
Context `{Runtime}.
Variable creds : DPDCredentials.
Variable opts : DPDRequestOptions.

(** C3 (as amended).  With retry on and at least two attempts allowed, a
    401 answer to the first dispatch makes the pipeline wait
    [RETRY_DELAY * 1] and run a second attempt that logs in again
    whatever the cache holds; when that login gives a token and the
    second dispatch yields a payload, the call returns that payload and
    raises nothing.  The cache is cleared before the wait exactly when
    the request is not a label request and the 401 body is empty or
    JSON ([clearsOn401]); a label request or a body that is not JSON
    leaves the cache as it is until the new login overwrites it. *)
Theorem C3_unauthorized_recovery s t1 s1 r1 t2 r2 p :
  retryOf opts = true ->
  2 <= retryAttemptsOf opts ->
  getGeoSession creds false s = (Returned t1, s1) ->
  apiNet (apiCalls s1) = Resp r1 ->
  status r1 = 401 ->
  authAttempt (authCalls s1) = Returned t2 ->
  apiNet (S (apiCalls s1)) = Resp r2 ->
  (forall s', handleResponse opts 1 r2 s' = (Returned (Done p), s')) ->
  authenticatedRequest creds opts s
  = (Returned p,
     dispatched opts t2
       (authenticated creds t2 (after401 opts 0 r1 (dispatched opts t1 s1)))).
Proof.
  intros Hretry Hn Hget Hnet Hstatus Hlogin Hnet2 Hdone.
  unfold authenticatedRequest. rewrite (to_nat_succ (retryAttemptsOf opts)) by lia.
  destruct (requestLoop_unauthorized creds opts (Z.to_nat (retryAttemptsOf opts - 1))
              0 None s t1 s1 r1 Hretry ltac:(lia) Hget Hnet Hstatus) as [last' ->].
  rewrite (to_nat_succ (retryAttemptsOf opts - 1)) by lia.
  apply requestLoop_done.
  set (s2 := after401 opts 0 r1 (dispatched opts t1 s1)).
  assert (authCalls s2 = authCalls s1) as Hauth
    by (unfold s2, after401; destruct (clearsOn401 opts r1); reflexivity).
  assert (apiCalls s2 = S (apiCalls s1)) as Hapi
    by (unfold s2, after401; destruct (clearsOn401 opts r1); reflexivity).
  rewrite (attemptBody_dispatch creds opts (0 + 1) s2 t2 (authenticated creds t2 s2) r2).
  - apply Hdone.
  - change (0 <? 0 + 1) with true. rewrite getGeoSession_forced.
    apply authenticate_ok. now rewrite Hauth.
  - change (apiCalls (authenticated creds t2 s2)) with (apiCalls s2).
    now rewrite Hapi.
Qed.

(** C4 (as amended).  When a dispatch of a non-label request is answered
    with a 2xx status and a JSON body that has both an error and a
    non-empty data payload, the call returns the parsed body, which
    carries the data, and raises nothing: at the first dispatch of a
    call and at any later one. *)
Theorem C4_warning_with_data_returned r data :
  isLabelRequest opts = false ->
  ok r = true ->
  parseBody r = Some data ->
  hasError data = true ->
  hasData data = true ->
  (forall s t s1,
      1 <= retryAttemptsOf opts ->
      getGeoSession creds false s = (Returned t, s1) ->
      apiNet (apiCalls s1) = Resp r ->
      authenticatedRequest creds opts s = (Returned (Parsed data), dispatched opts t s1))
  /\ (forall fuel attempt last s t s1,
         getGeoSession creds (0 <? attempt) s = (Returned t, s1) ->
         apiNet (apiCalls s1) = Resp r ->
         requestLoop creds opts (S fuel) attempt last s
         = (Returned (Parsed data), dispatched opts t s1)).
Proof.
  intros Hlabel Hok Hparse _ Hdata.
  assert (forall fuel attempt last s t s1,
             getGeoSession creds (0 <? attempt) s = (Returned t, s1) ->
             apiNet (apiCalls s1) = Resp r ->
             requestLoop creds opts (S fuel) attempt last s
             = (Returned (Parsed data), dispatched opts t s1)) as Hany.
  { intros fuel attempt last s t s1 Hget Hnet. apply requestLoop_done.
    rewrite (attemptBody_dispatch creds opts _ _ _ _ _ Hget Hnet).
    now apply handleResponse_warning. }
  split; [|exact Hany].
  intros s t s1 Hn Hget Hnet. unfold authenticatedRequest.
  rewrite (to_nat_succ _ Hn). now apply Hany.
Qed.

(** C5.  When a dispatch of a label request (the Accept header is one of
    the four label formats) is answered with a 2xx status and a body
    that [JSON.parse] rejects, the call returns the raw text of the
    response as it is: at the first dispatch of a call and at any later
    one. *)
Theorem C5_label_passthrough r :
  isLabelRequest opts = true ->
  ok r = true ->
  JSON_parse (raw r) = None ->
  (forall s t s1,
      1 <= retryAttemptsOf opts ->
      getGeoSession creds false s = (Returned t, s1) ->
      apiNet (apiCalls s1) = Resp r ->
      authenticatedRequest creds opts s = (Returned (RawText (raw r)), dispatched opts t s1))
  /\ (forall fuel attempt last s t s1,
         getGeoSession creds (0 <? attempt) s = (Returned t, s1) ->
         apiNet (apiCalls s1) = Resp r ->
         requestLoop creds opts (S fuel) attempt last s
         = (Returned (RawText (raw r)), dispatched opts t s1)).
Proof.
  intros Hlabel Hok Hparse.
  assert (forall fuel attempt last s t s1,
             getGeoSession creds (0 <? attempt) s = (Returned t, s1) ->
             apiNet (apiCalls s1) = Resp r ->
             requestLoop creds opts (S fuel) attempt last s
             = (Returned (RawText (raw r)), dispatched opts t s1)) as Hany.
  { intros fuel attempt last s t s1 Hget Hnet. apply requestLoop_done.
    rewrite (attemptBody_dispatch creds opts _ _ _ _ _ Hget Hnet).
    now apply handleResponse_label_text. }
  split; [|exact Hany].
  intros s t s1 Hn Hget Hnet. unfold authenticatedRequest.
  rewrite (to_nat_succ _ Hn). now apply Hany.
Qed.

(** An attempt whose dispatch ends in a terminal failure throws its
    error, the request having been sent. *)
Lemma attemptBody_terminal attempt s t s1 out e :
  terminalFailure opts out e ->
  getGeoSession creds (0 <? attempt) s = (Returned t, s1) ->
  apiNet (apiCalls s1) = out ->
  attemptBody creds opts attempt s = (Raised e, dispatched opts t s1).
Proof.
  intros Hfailure Hget Hnet. destruct Hfailure as [e|r Hlabel Hparse H401
    |r data Hlabel Hparse Hfail H401|r Hlabel Hok H401].
  - now apply attemptBody_network_error.
  - rewrite (attemptBody_dispatch creds opts _ _ _ _ _ Hget Hnet).
    unfold handleResponse. rewrite Hlabel. unfold jsonResponse. rewrite Hparse.
    now destruct (negb (ok r)).
  - rewrite (attemptBody_dispatch creds opts _ _ _ _ _ Hget Hnet).
    apply handleResponse_failure; try assumption.
    assert ((status r =? 401) = false) as -> by lia. reflexivity.
  - rewrite (attemptBody_dispatch creds opts _ _ _ _ _ Hget Hnet).
    unfold handleResponse. rewrite Hlabel.
    unfold bind, liftOutcome, labelResponse. now rewrite Hok.
Qed.

(** C6 (as amended).  A failure of the first dispatch other than a 401 (a
    transport error, a body that is not JSON, an upstream error without
    data, a label request answered outside 2xx) ends the call of
    [authenticatedRequest] with that very error only when retry is off or
    one attempt only is allowed.  With retry on and two attempts or more
    the error is caught and a second attempt runs, which logs in again:
    when its dispatch yields a payload the call returns it and the first
    error never reaches the caller, and when it is the last attempt and
    fails too, it is the second error that is thrown.  Failures other
    than 401 use up attempts as the 401 does. *)
Theorem C6_failure_raised_or_retried s t1 s1 out e :
  getGeoSession creds false s = (Returned t1, s1) ->
  apiNet (apiCalls s1) = out ->
  terminalFailure opts out e ->
  let result := authenticatedRequest creds opts s in
  ((retryOf opts = false /\ 1 <= retryAttemptsOf opts) \/ retryAttemptsOf opts = 1 ->
   result = (Raised e, dispatched opts t1 s1))
  /\ (retryOf opts = true -> 2 <= retryAttemptsOf opts ->
      forall t2, authAttempt (authCalls s1) = Returned t2 ->
        (forall r2 p,
            apiNet (S (apiCalls s1)) = Resp r2 ->
            (forall s', handleResponse opts 1 r2 s' = (Returned (Done p), s')) ->
            fst result = Returned p
            /\ authCalls (snd result) = S (authCalls s1)
            /\ apiCalls (snd result) = S (S (apiCalls s1)))
        /\ (forall out2 e2,
              retryAttemptsOf opts = 2 ->
              apiNet (S (apiCalls s1)) = out2 ->
              terminalFailure opts out2 e2 ->
              fst result = Raised e2
              /\ authCalls (snd result) = S (authCalls s1)
              /\ apiCalls (snd result) = S (S (apiCalls s1)))).
Proof.
  intros Hget Hnet Hfailure result.
  pose proof (attemptBody_terminal 0 s t1 s1 out e Hfailure Hget Hnet) as Hfirst.
  split.
  - intros Hcase. unfold result, authenticatedRequest.
    rewrite (to_nat_succ (retryAttemptsOf opts)) by lia.
    rewrite (requestLoop_raised _ _ _ _ _ _ _ _ Hfirst).
    destruct Hcase as [[-> _] | Hone]; [reflexivity|].
    assert ((retryAttemptsOf opts - 1 <=? 0) = true) as -> by lia.
    now rewrite orb_true_r.
  - intros Hretry Hn t2 Hlogin.
    set (s2 := delayed (DPD_API.RETRY_DELAY * (0 + 1)) (dispatched opts t1 s1)).
    assert (result = requestLoop creds opts (Z.to_nat (retryAttemptsOf opts - 1))
                       (0 + 1) (Some e) s2) as Hrest.
    { unfold result, authenticatedRequest.
      rewrite (to_nat_succ (retryAttemptsOf opts)) by lia.
      rewrite (requestLoop_raised _ _ _ _ _ _ _ _ Hfirst), Hretry.
      now assert ((retryAttemptsOf opts - 1 <=? 0) = false) as -> by lia. }
    assert (getGeoSession creds (0 <? 0 + 1) s2
            = (Returned t2, authenticated creds t2 s2)) as Hget2.
    { change (0 <? 0 + 1) with true. rewrite getGeoSession_forced.
      now apply authenticate_ok. }
    assert (apiCalls (authenticated creds t2 s2) = S (apiCalls s1)) as Hapi
      by reflexivity.
    split.
    + intros r2 p Hnet2 Hdone. rewrite Hrest.
      rewrite (to_nat_succ (retryAttemptsOf opts - 1)) by lia.
      rewrite (requestLoop_done creds opts _ (0 + 1) (Some e) s2 p
                 (dispatched opts t2 (authenticated creds t2 s2))).
      * now repeat split.
      * rewrite (attemptBody_dispatch creds opts _ _ _ _ r2 Hget2)
          by now rewrite Hapi.
        apply Hdone.
    + intros out2 e2 Htwo Hnet2 Hfailure2. rewrite Hrest.
      rewrite (to_nat_succ (retryAttemptsOf opts - 1)) by lia.
      pose proof (attemptBody_terminal (0 + 1) s2 t2 (authenticated creds t2 s2)
                    out2 e2 Hfailure2 Hget2) as Hsecond.
      rewrite (requestLoop_raised _ _ _ _ _ _ _ _ (Hsecond Hnet2)).
      assert ((retryAttemptsOf opts - 1 <=? 0 + 1) = true) as -> by lia.
      rewrite orb_true_r. now repeat split.
Qed.

(** The waits of a call grow linearly: they are [RETRY_DELAY * 1],
    [RETRY_DELAY * 2], ..., [RETRY_DELAY * m], one after each attempt that
    is followed by another, with [m <= retryAttempts - 1]. *)
Lemma request_delays_linear s :
  exists m : nat,
    Z.of_nat m <= Z.max 0 (retryAttemptsOf opts - 1)
    /\ delaysOf (trace (snd (authenticatedRequest creds opts s)))
       = delaysOf (trace s)
         ++ List.map (fun k => DPD_API.RETRY_DELAY * (Z.of_nat k + 1)) (seq 0 m).
Proof.
  destruct (requestLoop_delays creds opts (Z.to_nat (retryAttemptsOf opts)) 0 None s)
    as (m & Hm & Htrace); [lia|].
  exists m. split; [lia|]. exact Htrace.
Qed.
End RequestClaims.

Section MessageClaims.
Context `{Runtime}.
Variable opts : DPDRequestOptions.



End MessageClaims.

(** ** The session manager *)

Section ManagerLemmas.
Context `{Runtime} {S : Type} `{GeoSessionStorage S}.
Variable this : GeoSessionManager.

Lemma managerAuthenticate_run (s : State S) :
  managerAuthenticate this s = (authAttempt (authCalls s), loggedIn (credentials this) s).
Proof.
  unfold managerAuthenticate, authAttempt, bind, fetchAuth, liftOutcome, loggedIn.
  now destruct (authNet (authCalls s)).
Qed.

Lemma authRetryLoop_step fuel attempt last (s : State S) :
  authRetryLoop this (Datatypes.S fuel) attempt last s
  = match authAttempt (authCalls s) with
    | Returned token =>
        (Returned (token, clock s + 90 * 60 * 1000), loggedIn (credentials this) s)
    | Raised e =>
        authRetryLoop this fuel (attempt + 1) (Some e)
          (if attempt <? maxRetries this
           then delayed (baseRetryDelay this * 2 ^ (attempt - 1))
                        (loggedIn (credentials this) s)
           else loggedIn (credentials this) s)
    end.
Proof.
  simpl. unfold tryCatch, bind. rewrite managerAuthenticate_run.
  destruct (authAttempt (authCalls s)) as [e|token]; [|reflexivity].
  now destruct (attempt <? maxRetries this).
Qed.

Lemma failedLogins_authCalls fuel : forall attempt (s : State S),
  authCalls (failedLogins this fuel attempt s) = (authCalls s + fuel)%nat.
Proof.
  induction fuel as [|fuel IH]; intros attempt s; simpl.
  - lia.
  - rewrite IH. destruct (attempt <? maxRetries this); simpl; lia.
Qed.

Lemma failedLogins_store fuel : forall attempt (s : State S),
  store (failedLogins this fuel attempt s) = store s.
Proof.
  induction fuel as [|fuel IH]; intros attempt s; simpl.
  - reflexivity.
  - rewrite IH. now destruct (attempt <? maxRetries this).
Qed.

Lemma failedLogins_trace fuel : forall attempt (s : State S),
  trace (failedLogins this fuel attempt s) = trace s ++ failedTrace this fuel attempt.
Proof.
  induction fuel as [|fuel IH]; intros attempt s; cbn [failedLogins failedTrace].
  - now rewrite app_nil_r.
  - rewrite IH. destruct (attempt <? maxRetries this);
      unfold delayed, loggedIn; cbn [delay snd trace];
      now rewrite <- ?app_assoc.
Qed.

Lemma failedLogins_delays fuel : forall attempt (s : State S),
  Z.of_nat fuel = maxRetries this - attempt + 1 ->
  delaysOf (trace (failedLogins this fuel attempt s))
  = delaysOf (trace s)
    ++ List.map (fun k => baseRetryDelay this * 2 ^ (attempt - 1 + Z.of_nat k))
                (seq 0 (Nat.pred fuel)).
Proof.
  induction fuel as [|fuel IH]; intros attempt s Hfuel.
  - simpl. now rewrite app_nil_r.
  - cbn [failedLogins]. destruct fuel as [|fuel].
    + assert ((attempt <? maxRetries this) = false) as -> by lia.
      cbn [failedLogins loggedIn trace Nat.pred seq List.map].
      rewrite delaysOf_app. cbn. now rewrite !app_nil_r.
    + assert ((attempt <? maxRetries this) = true) as -> by lia.
      rewrite IH by lia. unfold delayed, loggedIn. cbn [delay snd trace].
      rewrite !delaysOf_app.
      change (delaysOf [EvAuth ?c]) with (@nil Z). rewrite app_nil_r, <- app_assoc.
      cbn [Nat.pred seq List.map app].
      change (delaysOf [EvDelay ?x]) with [x]. cbn [app].
      f_equal. f_equal; [do 2 f_equal; lia|].
      rewrite <- seq_shift, List.map_map. apply List.map_ext.
      intros k. do 2 f_equal. lia.
Qed.

(** With a login that always fails, the loop makes [fuel] calls and
    throws the error that names the last one. *)
Lemma authRetryLoop_all_fail (errors : nat -> string) :
  (forall n, authAttempt n = Raised (errors n)) ->
  forall fuel attempt last (s : State S),
    authRetryLoop this fuel attempt last s
    = (Raised (exhausted this (match fuel with
                          | O => last
                          | Datatypes.S k => Some (errors (authCalls s + k)%nat)
                          end)),
       failedLogins this fuel attempt s).
Proof.
  intros Hfail. induction fuel as [|fuel IH]; intros attempt last s.
  - reflexivity.
  - rewrite authRetryLoop_step, Hfail, IH. cbn [failedLogins].
    set (s' := if attempt <? maxRetries this then _ else _).
    assert (authCalls s' = Datatypes.S (authCalls s)) as Hcalls
      by (unfold s'; now destruct (attempt <? maxRetries this)).
    do 3 f_equal. destruct fuel; [|rewrite Hcalls]; do 2 f_equal; lia.
Qed.

(** Whatever the logins do, the loop leaves the store alone, never
    lowers the number of calls, and makes a call before it returns. *)
Lemma authRetryLoop_frame fuel : forall attempt last (s : State S),
  store (snd (authRetryLoop this fuel attempt last s)) = store s
  /\ (authCalls s + match fuel with O => 0 | _ => 1 end
      <= authCalls (snd (authRetryLoop this fuel attempt last s)))%nat
  /\ (forall x, fst (authRetryLoop this fuel attempt last s) = Returned x ->
                (authCalls s < authCalls (snd (authRetryLoop this fuel attempt last s)))%nat).
Proof.
  induction fuel as [|fuel IH]; intros attempt last s.
  - simpl. repeat split; [lia|discriminate].
  - rewrite authRetryLoop_step.
    destruct (authAttempt (authCalls s)) as [e|token].
    + match goal with
      | |- context [authRetryLoop this _ ?a ?l ?s1] =>
          destruct (IH a l s1) as (Hs & Hc & Hr)
      end.
      destruct (attempt <? maxRetries this);
        cbn [store authCalls delayed delay snd loggedIn] in Hs, Hc, Hr |- *;
        (split; [exact Hs|split];
         [destruct fuel; lia | intros x Hx; specialize (Hr x Hx); lia]).
    + cbn. repeat split; [lia|]. intros _ _. lia.
Qed.
End ManagerLemmas.

Section ManagerClaims.
Context `{Runtime} {S : Type} `{GeoSessionStorage S}.
Variable this : GeoSessionManager.

Lemma append_nil_r (s : string) : s +:+ "" = s.
Proof.
  induction s as [|c s IH]; [reflexivity|].
  change (String c (s +:+ "") = String c s). now rewrite IH.
Qed.

Lemma append_assoc (a b c : string) : (a +:+ b) +:+ c = a +:+ b +:+ c.
Proof.
  induction a as [|x a IH]; [reflexivity|].
  change (String x ((a +:+ b) +:+ c) = String x (a +:+ b +:+ c)). now rewrite IH.
Qed.

(** An unexpired session is never calendar-stale: it was issued less
    than 90 minutes ago. *)
Lemma calendarStale_unreachable now expiresAt :
  now < expiresAt -> ~ calendarStale now expiresAt.
Proof. unfold calendarStale. lia. Qed.


(** The staleness branch of [isSessionValid] never decides: the check
    comes down to the token and the hard expiry. *)
Lemma isSessionValid_hard_expiry now g expiresAt :
  isSessionValid now g (Some (TimeValue expiresAt)) = nonEmpty g && (now <? expiresAt).
Proof.
  unfold isSessionValid, over12Hours. destruct (nonEmpty g); simpl; [|reflexivity].
  destruct (expiresAt <=? now) eqn:Hexp.
  - symmetry. lia.
  - assert ((12 * (1000 * 60 * 60) <? now - (expiresAt - 90 * 60 * 1000)) = false)
      as -> by lia.
    rewrite andb_false_r. symmetry. lia.
Qed.

(** An expiry that is an invalid date never expires. *)
Lemma isSessionValid_invalid_date now g :
  isSessionValid now g (Some InvalidDate) = nonEmpty g.
Proof. unfold isSessionValid. now destruct (nonEmpty g). Qed.

(** Over a storage whose methods resolve, the calls of the manager read
    and write it as [storageGet], [storageSet] and [storageClear] say. *)
Lemma storage_get_resolves (s : State S) :
  storage_get s = (Returned (storageGet (store s)), s).
Proof. now destruct s. Qed.

Lemma storage_set_resolves (g : string) (e : Z) (s : State S) :
  storage_set g (TimeValue e) s = (Returned tt, saved g e s).
Proof. reflexivity. Qed.

Lemma storage_clear_resolves (s : State S) :
  storage_clear s
  = (Returned tt,
     mkState (storageClear (store s)) (clock s) (authCalls s) (apiCalls s) (trace s)).
Proof. reflexivity. Qed.

Lemma getValidGeoSession_cached (s : State S) :
  storedValid (clock s) (storageGet (store s)) = true ->
  getValidGeoSession this s
  = (Returned (default "" (storageGet (store s) ≫= storedGeoSession)), s).
Proof.
  intros Hvalid.
  unfold getValidGeoSession, tryCatch. unfold bind at 1.
  rewrite storage_get_resolves. unfold bind, dateNow, ret. now rewrite Hvalid.
Qed.

Lemma getValidGeoSession_fresh (s : State S) :
  storedValid (clock s) (storageGet (store s)) = false ->
  getValidGeoSession this s
  = match authenticateWithRetry this s with
    | (Returned fresh, s1) => (Returned (fst fresh), saved (fst fresh) (snd fresh) s1)
    | (Raised e, s1) => (Raised ("Failed to get valid geo session: " +:+ e), s1)
    end.
Proof.
  intros Hvalid.
  unfold getValidGeoSession, tryCatch. unfold bind at 1.
  rewrite storage_get_resolves. unfold bind at 1. unfold dateNow. rewrite Hvalid.
  unfold bind at 1.
  destruct (authenticateWithRetry this s) as [[e|fresh] s1]; [reflexivity|].
  unfold bind. now rewrite storage_set_resolves.
Qed.

Lemma getValidGeoSession_fresh_calls (s : State S) :
  storedValid (clock s) (storageGet (store s)) = false ->
  (forall t, fst (getValidGeoSession this s) = Returned t ->
             (authCalls s < authCalls (snd (getValidGeoSession this s)))%nat)
  /\ (1 <= maxRetries this ->
      (authCalls s < authCalls (snd (getValidGeoSession this s)))%nat)
  /\ (forall e, fst (getValidGeoSession this s) = Raised e ->
                store (snd (getValidGeoSession this s)) = store s).
Proof.
  intros Hvalid. rewrite (getValidGeoSession_fresh s Hvalid).
  unfold authenticateWithRetry.
  destruct (authRetryLoop_frame this (Z.to_nat (maxRetries this)) 1 None s)
    as (Hstore & Hcalls & Hret).
  destruct (authRetryLoop this (Z.to_nat (maxRetries this)) 1 None s)
    as [[e|fresh] s1]; cbn [fst snd] in *.
  - split; [discriminate|split]; [|now intros].
    intros Hn. rewrite (to_nat_succ _ Hn) in Hcalls. lia.
  - split; [intros t _|split; [intros _|discriminate]]; cbn [saved authCalls];
      apply (Hret fresh eq_refl).
Qed.


(** C2.  With a login that fails on every call and [maxRetries] at
    least 1, [authenticateWithRetry] makes exactly [maxRetries] login
    calls, waits [baseRetryDelay * 2 ^ (attempt - 1)] between attempt
    [attempt] and the next (the events are those of [failedTrace]: call,
    wait, call, wait, ..., call), and throws an error whose message
    carries the message of the last failure ("Unknown error" in its place
    if that message is empty); [getValidGeoSession], finding no valid
    stored session, throws it on under its own prefix. *)
Theorem C2_retry_bound (errors : nat -> string) (s : State S) :
  (forall n, authAttempt n = Raised (errors n)) ->
  1 <= maxRetries this ->
  let n := Z.to_nat (maxRetries this) in
  let lastError := errors (authCalls s + n - 1)%nat in
  let message :=
    "Failed to authenticate after " +:+ pretty (maxRetries this) +:+ " attempts: "
    +:+ strOr lastError "Unknown error" in
  exists s',
    authenticateWithRetry this s = (Raised message, s')
    /\ authCalls s' = (authCalls s + n)%nat
    /\ trace s' = trace s ++ failedTrace this n 1
    /\ delaysOf (trace s')
       = delaysOf (trace s)
         ++ List.map (fun attempt => baseRetryDelay this * 2 ^ (Z.of_nat attempt - 1))
                     (seq 1 (n - 1))
    /\ wraps message lastError
    /\ (storedValid (clock s) (storageGet (store s)) = false ->
        getValidGeoSession this s
        = (Raised ("Failed to get valid geo session: " +:+ message), s')).
Proof.
  intros Hfail Hn n lastError message.
  exists (failedLogins this n 1 s).
  assert (authenticateWithRetry this s = (Raised message, failedLogins this n 1 s)) as Hrun.
  { unfold authenticateWithRetry. fold n.
    rewrite (authRetryLoop_all_fail this errors Hfail).
    unfold message, lastError, exhausted.
    destruct n as [|k] eqn:Hk; [lia|].
    do 6 f_equal. cbn. f_equal. lia. }
  split; [exact Hrun|]. split; [apply failedLogins_authCalls|].
  split; [apply failedLogins_trace|]. split; [|split].
  - rewrite failedLogins_delays by lia. f_equal.
    replace (n - 1)%nat with (Nat.pred n) by lia.
    rewrite <- seq_shift, List.map_map. apply List.map_ext.
    intros k. do 2 f_equal. lia.
  - unfold message, strOr. destruct (String.eqb lastError "") eqn:Hempty.
    + apply String.eqb_eq in Hempty. rewrite Hempty.
      eexists _, "". cbn. now rewrite append_nil_r.
    + exists ("Failed to authenticate after " +:+ pretty (maxRetries this)
              +:+ " attempts: "), "".
      now rewrite append_nil_r, !append_assoc.
  - intros Hvalid. now rewrite (getValidGeoSession_fresh s Hvalid), Hrun.
Qed.
End ManagerClaims.

Section ForceRefresh.
Context `{Runtime}.

(** C8 (as amended).  [getGeoSession] with [forceRefresh = true] skips
    the check of the cached token and logs in at once, without clearing
    the cache first: when the login fails the cache still holds what it
    held, and when it succeeds the cache is overwritten.  It is
    [refreshGeoSession] of the manager that clears the storage before it
    logs in: over a storage that reads nothing after [clear], it never
    returns without a login call, and when it throws the storage is the
    cleared one. *)
Theorem C8_force_refresh (creds : DPDCredentials) (s : State TokenCache) :
  getGeoSession creds true s = authenticate creds s
  /\ (forall e, authAttempt (authCalls s) = Raised e ->
                getGeoSession creds true s = (Raised e, loggedIn creds s)
                /\ store (snd (getGeoSession creds true s)) = store s)
  /\ (forall token, authAttempt (authCalls s) = Returned token ->
                    getGeoSession creds true s
                    = (Returned token, authenticated creds token s))
  /\ (forall (S : Type) (storage : GeoSessionStorage S)
             (this : GeoSessionManager) (m : State S),
         storageGet (storageClear (store m)) = None ->
         (forall token, fst (refreshGeoSession this m) = Returned token ->
                        (authCalls m < authCalls (snd (refreshGeoSession this m)))%nat)
         /\ (forall e, fst (refreshGeoSession this m) = Raised e ->
                       store (snd (refreshGeoSession this m)) = storageClear (store m))).
Proof.
  split; [reflexivity|]. split; [|split].
  - intros e He. rewrite getGeoSession_forced, (authenticate_failed creds s e He).
    split; reflexivity.
  - intros token Htoken. rewrite getGeoSession_forced. now apply authenticate_ok.
  - intros S storage this m Hclear.
    set (m' := mkState (storageClear (store m)) (clock m) (authCalls m) (apiCalls m)
                       (trace m)).
    assert (refreshGeoSession this m = getValidGeoSession this m') as -> by reflexivity.
    assert (storedValid (clock m') (storageGet (store m')) = false) as Hvalid
      by (cbn; now rewrite Hclear).
    destruct (getValidGeoSession_fresh_calls this m' Hvalid) as (Hret & _ & Hraised).
    split.
    + intros token Htoken. apply (Hret token Htoken).
    + intros e He. apply (Hraised e He).
Qed.
End ForceRefresh.

(** ** Address validation *)

Section PostcodePattern.
Lemma matchRep_spec cls hi : forall lo k s,
  matchRep cls lo hi k s = true
  <-> exists pre post,
        s = pre +:+ post /\ allOf cls pre = true
        /\ (lo <= String.length pre <= hi)%nat /\ k post = true.
Proof.
  induction hi as [|hi IH]; intros lo k s.
  - cbn [matchRep]. split.
    + intros Hm. apply orb_true_iff in Hm as [Hm|Hm]; [|discriminate].
      destruct lo; [|discriminate].
      exists "", s. repeat split; auto.
    + intros (pre & post & -> & _ & Hlen & Hk).
      destruct pre; [|cbn in Hlen; lia]. cbn in Hlen.
      destruct lo; [|lia]. change ("" +:+ post) with post. now rewrite Hk.
  - cbn [matchRep]. split.
    + intros Hm. apply orb_true_iff in Hm as [Hm|Hm].
      * destruct lo; [|discriminate].
        exists "", s. repeat split; auto. cbn. lia.
      * destruct s as [|c rest]; [discriminate|].
        apply andb_true_iff in Hm as [Hc Hm].
        apply IH in Hm as (pre & post & -> & Hall & Hlen & Hk).
        exists (String c pre), post. repeat split; auto.
        -- cbn. now rewrite Hc.
        -- cbn. lia.
        -- cbn. lia.
    + intros (pre & post & -> & Hall & Hlen & Hk).
      destruct pre as [|c pre].
      * cbn in Hlen. destruct lo; [|lia]. change ("" +:+ post) with post.
        now rewrite Hk.
      * apply orb_true_iff. right.
        change (String c pre +:+ post) with (String c (pre +:+ post)).
        cbn in Hall. apply andb_true_iff in Hall as [Hc Hall]. rewrite Hc.
        apply IH. exists pre, post. repeat split; auto; cbn in Hlen; lia.
Qed.

(** The pattern read as a grammar: area letters, district digits, an
    optional letter, the sector digit and the two unit letters. *)
Lemma postcodeRegex_spec (s : string) :
  regexTest postcodeRegex s = true <-> postcodePattern s.
Proof.
  unfold postcodeRegex, postcodePattern. cbn [regexTest cls atLeast atMost]. split.
  - intros H1.
    apply matchRep_spec in H1 as (area & r1 & -> & Ha & La & H2).
    apply matchRep_spec in H2 as (district & r2 & -> & Hd & Ld & H3).
    apply matchRep_spec in H3 as (sub & r3 & -> & Hb & Lb & H4).
    apply matchRep_spec in H4 as (sector & r4 & -> & He & Le & H5).
    apply matchRep_spec in H5 as (unit & r5 & -> & Hu & Lu & H6).
    destruct r5; [|discriminate].
    exists area, district, sub, sector, unit. rewrite append_nil_r.
    repeat split; auto; lia.
  - intros (area & district & sub & sector & unit & -> & [Ha La] & [Hd Ld]
            & [Hb Lb] & [He Le] & [Hu Lu]).
    apply matchRep_spec. exists area, (district +:+ sub +:+ sector +:+ unit).
    repeat split; auto; try lia.
    apply matchRep_spec. exists district, (sub +:+ sector +:+ unit).
    repeat split; auto; try lia.
    apply matchRep_spec. exists sub, (sector +:+ unit).
    repeat split; auto; try lia.
    apply matchRep_spec. exists sector, unit.
    repeat split; auto; try lia.
    apply matchRep_spec. exists unit, "".
    rewrite append_nil_r. repeat split; auto; lia.
Qed.
End PostcodePattern.

Section PostcodeClaims.
Context `{Strings}.
Variable lookupNet : string -> LookupOutcome.
Variable encodeURIComponent : string -> string.
Variable typeError : string -> string.

(** C10.  A postcode that, with its white space removed and in upper
    case, both as the engine does them, does not match
    [^[A-Z]{1,2}\d{1,2}[A-Z]?\d[A-Z]{2}$] is answered at once with the
    invalid-format result; no lookup is made. *)
Theorem C10_invalid_postcode_rejected (params : ValidateAddressParams)
    (calls : list string) :
  ~ postcodePattern (toUpperCase (removeSpaces (postcode params))) ->
  validateAddress lookupNet encodeURIComponent typeError params calls
  = (Returned (mkResult false false (Some "Invalid UK postcode format")), calls).
Proof.
  intros Hno. unfold validateAddress.
  destruct (regexTest postcodeRegex (toUpperCase (removeSpaces (postcode params))))
    eqn:Htest.
  - exfalso. apply Hno. now apply postcodeRegex_spec.
  - reflexivity.
Qed.

(** A postcode of the right form is looked up: the first thing done is the
    call of postcodes.io. *)
Lemma valid_postcode_looked_up (params : ValidateAddressParams) (calls : list string) :
  postcodePattern (toUpperCase (removeSpaces (postcode params))) ->
  snd (validateAddress lookupNet encodeURIComponent typeError params calls)
  = calls ++ ["https://api.postcodes.io/postcodes/"
              +:+ encodeURIComponent (toUpperCase (removeSpaces (postcode params)))].
Proof.
  intros Hyes. apply postcodeRegex_spec in Hyes. unfold validateAddress.
  rewrite Hyes. cbn [negb]. unfold fetchLookup.
  destruct (lookupNet _) as [e|response]; [reflexivity|].
  destruct (negb (lookupOk response)).
  - now destruct (lookupStatus response =? 404).
  - destruct (lookupJson response) as [e|data]; [reflexivity|].
    now destruct (judge typeError (town params) data).
Qed.
End PostcodeClaims.

(** ** The statements at concrete inputs *)



Lemma C2_witness :
  let R := sampleRuntime [] [] in
  let this := newGeoSessionManager sampleCredentials None in
  let s := initialState (mkInMemory None None) 0 in
  (forall n, @authAttempt R n = Raised "fetch failed")
  /\ 1 <= maxRetries this
  /\ exists s',
       @authenticateWithRetry R _ this s
       = (Raised "Failed to authenticate after 3 attempts: fetch failed", s')
       /\ authCalls s' = 3%nat
       /\ trace s' = [EvAuth sampleCredentials; EvDelay 2000;
                      EvAuth sampleCredentials; EvDelay 4000;
                      EvAuth sampleCredentials]
       /\ delaysOf (trace s') = [2000; 4000]
       /\ @getValidGeoSession R _ (@resolving _ inMemoryStorage) this s
          = (Raised ("Failed to get valid geo session: "
                     +:+ "Failed to authenticate after 3 attempts: fetch failed"), s').
Proof.
  cbv zeta.
  assert (forall n, @authAttempt (sampleRuntime [] []) n = Raised "fetch failed") as Hfail
    by (intros [|n]; reflexivity).
  split; [exact Hfail|]. split; [discriminate|].
  destruct (@C2_retry_bound (sampleRuntime [] []) _ inMemoryStorage
              (newGeoSessionManager sampleCredentials None)
              (fun _ => "fetch failed")
              (initialState (mkInMemory None None) 0) Hfail)
    as (s' & Hrun & Hcalls & Htrace & Hdelays & _ & Hvalid); [discriminate|].
  exists s'. split; [exact Hrun|]. split; [exact Hcalls|]. split; [exact Htrace|].
  split; [exact Hdelays|].
  apply Hvalid. reflexivity.
Defined.

(** C3, the claim as stated fails: a label request whose first dispatch is
    answered 401, with retry on and two attempts allowed.  The pipeline
    waits and logs in again, but it never clears the cache: when the new
    login fails the cache still holds the old token, and when the new
    login works the label comes back without the cache ever having been
    cleared. *)
Lemma C3_counterexample :
  let opts := postRequest (Some labelHeaders) (Some 2) in
  let s := initialState cachedT1 0 in
  let R := sampleRuntime [] [unauthorized "Unauthorized"] in
  let result := @authenticatedRequest R sampleCredentials opts s in
  let R' := sampleRuntime [okResp (loginBody "T2")]
                          [unauthorized "Unauthorized"; okResp zplLabel] in
  let result' := @authenticatedRequest R' sampleCredentials opts s in
  retryOf opts = true
  /\ 2 <= retryAttemptsOf opts
  /\ (@apiNet R 0 = unauthorized "Unauthorized"
      /\ fst result = Raised "fetch failed"
      /\ store (snd result) = cachedT1
      /\ clearsOf (trace (snd result)) = 0%nat
      /\ delaysOf (trace (snd result)) = [1000])
  /\ (@apiNet R' 0 = unauthorized "Unauthorized"
      /\ fst result' = Returned (RawText zplLabel)
      /\ clearsOf (trace (snd result')) = 0%nat
      /\ delaysOf (trace (snd result')) = [1000]).
Proof. vm_compute. repeat split; discriminate. Qed.

Lemma C3_witness :
  let R := sampleRuntime [okResp (loginBody "T2")]
                         [unauthorized ""; okResp shipmentBody] in
  let opts := postRequest None None in
  let s := initialState cachedT1 0 in
  let result := @authenticatedRequest R sampleCredentials opts s in
  fst result = Returned (Parsed shipmentJson)
  /\ store (snd result) = mkTokenCache (Some "T2") (Some 5401000)
  /\ clearsOf (trace (snd result)) = 1%nat
  /\ delaysOf (trace (snd result)) = [1000]
  /\ dispatchesOf (trace (snd result)) = 2%nat.
Proof.
  cbv zeta.
  rewrite (@C3_unauthorized_recovery
             (sampleRuntime [okResp (loginBody "T2")]
                            [unauthorized ""; okResp shipmentBody])
             sampleCredentials (postRequest None None) (initialState cachedT1 0)
             "T1" (initialState cachedT1 0) (mkResponse 401 "Unauthorized" "")
             "T2" (mkResponse 200 "OK" shipmentBody) (Parsed shipmentJson)).
  - vm_compute. repeat split.
  - reflexivity.
  - discriminate.
  - reflexivity.
  - reflexivity.
  - reflexivity.
  - reflexivity.
  - reflexivity.
  - intros s'. reflexivity.
Defined.

(** C4, the claim as stated fails: a JSON body with an error and a
    non-empty data payload that comes with status 500 is not returned; the
    call throws the message of the error. *)
Lemma C4_counterexample :
  let R := sampleRuntime [] [serverError warningBody] in
  let opts := postRequest None (Some 1) in
  let result := @authenticatedRequest R sampleCredentials opts (initialState cachedT1 0) in
  isLabelRequest opts = false
  /\ @parseBody R (mkResponse 500 "Internal Server Error" warningBody) = Some warningJson
  /\ hasError warningJson = true
  /\ hasData warningJson = true
  /\ fst result = Raised "Invalid service".
Proof. vm_compute. repeat split. Qed.

Lemma C4_witness :
  let R := sampleRuntime [] [okResp warningBody] in
  let opts := postRequest None None in
  let s := initialState cachedT1 0 in
  hasError warningJson = true
  /\ hasData warningJson = true
  /\ @authenticatedRequest R sampleCredentials opts s
     = (Returned (Parsed warningJson), dispatched opts "T1" s).
Proof.
  cbv zeta. split; [reflexivity|]. split; [reflexivity|].
  apply (@C4_warning_with_data_returned
           (sampleRuntime [] [okResp warningBody]) sampleCredentials
           (postRequest None None) (mkResponse 200 "OK" warningBody) warningJson);
    try reflexivity; try discriminate.
Defined.

Lemma C5_witness :
  let R := sampleRuntime [] [okResp zplLabel] in
  let opts := postRequest (Some labelHeaders) None in
  let s := initialState cachedT1 0 in
  isLabelRequest opts = true
  /\ @JSON_parse R zplLabel = None
  /\ @authenticatedRequest R sampleCredentials opts s
     = (Returned (RawText zplLabel), dispatched opts "T1" s).
Proof.
  cbv zeta. split; [reflexivity|]. split; [reflexivity|].
  apply (@C5_label_passthrough
           (sampleRuntime [] [okResp zplLabel]) sampleCredentials
           (postRequest (Some labelHeaders) None) (mkResponse 200 "OK" zplLabel));
    try reflexivity; try discriminate.
Defined.

(** C6, the claim as stated fails: the first attempt ends in a terminal
    failure (status 500, an error and no data), and the call does not
    raise it: it waits, logs in again, dispatches a second time and
    returns the payload of the second answer. *)
Lemma C6_counterexample :
  let R := sampleRuntime [okResp (loginBody "T2")]
                         [serverError errorBody; okResp shipmentBody] in
  let opts := postRequest None None in
  let s := initialState cachedT1 0 in
  let result := @authenticatedRequest R sampleCredentials opts s in
  fst (@attemptBody R sampleCredentials opts 0 s) = Raised "Invalid service"
  /\ fst result = Returned (Parsed shipmentJson)
  /\ dispatchesOf (trace (snd result)) = 2%nat
  /\ delaysOf (trace (snd result)) = [1000].
Proof. vm_compute. repeat split. Qed.

Lemma C6_witness :
  let R := sampleRuntime [okResp (loginBody "T2")]
                         [serverError errorBody; okResp shipmentBody] in
  let opts := postRequest None None in
  let off := mkOptions "POST" "/shipping/shipment" None None (Some false) None in
  let s := initialState cachedT1 0 in
  @getGeoSession R sampleCredentials false s = (Returned "T1", s)
  /\ @terminalFailure R opts (serverError errorBody) "Invalid service"
  /\ @terminalFailure R off (serverError errorBody) "Invalid service"
  /\ fst (@authenticatedRequest R sampleCredentials opts s)
     = Returned (Parsed shipmentJson)
  /\ @authenticatedRequest R sampleCredentials off s
     = (Raised "Invalid service", dispatched off "T1" s)
  /\ fst (@authenticatedRequest
            (sampleRuntime [okResp (loginBody "T2")]
                           [serverError errorBody; NetErr "fetch failed"])
            sampleCredentials (postRequest None (Some 2)) s)
     = Raised "fetch failed".
Proof.
  cbv zeta.
  assert (forall opts : DPDRequestOptions,
             @isLabelRequest opts = false ->
             @terminalFailure
               (sampleRuntime [okResp (loginBody "T2")]
                              [serverError errorBody; okResp shipmentBody])
               opts (serverError errorBody) "Invalid service") as Hfailure.
  { intros opts Hlabel.
    apply (@upstreamError
             (sampleRuntime [okResp (loginBody "T2")]
                            [serverError errorBody; okResp shipmentBody])
             opts (mkResponse 500 "Internal Server Error" errorBody) errorJson);
      [exact Hlabel | reflexivity | reflexivity | discriminate]. }
  split; [reflexivity|].
  split; [apply Hfailure; reflexivity|].
  split; [apply Hfailure; reflexivity|].
  split.
  - destruct (@C6_failure_raised_or_retried
                (sampleRuntime [okResp (loginBody "T2")]
                               [serverError errorBody; okResp shipmentBody])
                sampleCredentials (postRequest None None)
                (initialState cachedT1 0) "T1" (initialState cachedT1 0)
                (serverError errorBody) "Invalid service"
                eq_refl eq_refl (Hfailure (postRequest None None) eq_refl))
      as [_ Hretried].
    destruct (Hretried eq_refl ltac:(vm_compute; discriminate) "T2" eq_refl)
      as [Hsuccess _].
    apply (Hsuccess (mkResponse 200 "OK" shipmentBody) (Parsed shipmentJson));
      [reflexivity|]. intros s'. reflexivity.
  - split.
    + destruct (@C6_failure_raised_or_retried
                  (sampleRuntime [okResp (loginBody "T2")]
                                 [serverError errorBody; okResp shipmentBody])
                  sampleCredentials
                  (mkOptions "POST" "/shipping/shipment" None None (Some false) None)
                  (initialState cachedT1 0) "T1" (initialState cachedT1 0)
                  (serverError errorBody) "Invalid service"
                  eq_refl eq_refl
                  (Hfailure
                     (mkOptions "POST" "/shipping/shipment" None None (Some false) None)
                     eq_refl)) as [Hraised _].
      apply Hraised. left. split; [reflexivity|]. vm_compute. discriminate.
    + destruct (@C6_failure_raised_or_retried
                  (sampleRuntime [okResp (loginBody "T2")]
                                 [serverError errorBody; NetErr "fetch failed"])
                  sampleCredentials (postRequest None (Some 2))
                  (initialState cachedT1 0) "T1" (initialState cachedT1 0)
                  (serverError errorBody) "Invalid service" eq_refl eq_refl)
        as [_ Hretried].
      * apply (@upstreamError
                 (sampleRuntime [okResp (loginBody "T2")]
                                [serverError errorBody; NetErr "fetch failed"])
                 (postRequest None (Some 2))
                 (mkResponse 500 "Internal Server Error" errorBody) errorJson);
          [reflexivity | reflexivity | reflexivity | discriminate].
      * destruct (Hretried eq_refl ltac:(vm_compute; discriminate) "T2" eq_refl)
          as [_ Hfailed].
        apply (Hfailed (NetErr "fetch failed") "fetch failed" eq_refl eq_refl).
        apply transportError.
Defined.



(** C8, the claim as stated fails: [getGeoSession(credentials, true)] with
    a token in the cache and a login that fails leaves the token in the
    cache; nothing cleared it before the login call. *)
Lemma C8_counterexample :
  let R := sampleRuntime [] [] in
  let s := initialState cachedT1 0 in
  let result := @getGeoSession R sampleCredentials true s in
  fst result = Raised "fetch failed"
  /\ trace (snd result) = [EvAuth sampleCredentials]
  /\ store (snd result) = cachedT1
  /\ fst (hasValidToken (snd result)) = Returned true.
Proof. vm_compute. repeat split. Qed.

(** C9, the code at the failing input.  With four attempts allowed, a
    login that works and a network that is down for the business calls,
    the call waits 1000, 2000 and 3000 ms: the wait after the failed
    attempt 2 is [RETRY_DELAY * 3], not [RETRY_DELAY * 2 ^ 2]. *)
Theorem C9_third_wait_not_doubled :
  let R := sampleRuntime (replicate 4 (okResp (loginBody "T2"))) [] in
  let opts := postRequest None (Some 4) in
  let result := @authenticatedRequest R sampleCredentials opts (initialState cachedT1 0) in
  fst result = Raised "fetch failed"
  /\ delaysOf (trace (snd result)) = [1000; 2000; 3000]
  /\ nth 2 (delaysOf (trace (snd result))) 0 = DPD_API.RETRY_DELAY * (2 + 1)
  /\ nth 2 (delaysOf (trace (snd result))) 0 <> DPD_API.RETRY_DELAY * 2 ^ 2.
Proof. vm_compute. repeat split. discriminate. Qed.

Lemma C10_witness :
  let params := mkParams "sw1a 1a" "London" in
  ~ postcodePattern (@toUpperCase asciiStrings
                       (@removeSpaces asciiStrings (postcode params)))
  /\ @validateAddress asciiStrings (fun _ => LookupErr "offline") (fun s => s)
       (fun s => s) params []
     = (Returned (mkResult false false (Some "Invalid UK postcode format")), []).
Proof.
  cbv zeta.
  assert (~ postcodePattern (@toUpperCase asciiStrings
                               (@removeSpaces asciiStrings "sw1a 1a"))) as Hno
    by (intros Hyes; apply postcodeRegex_spec in Hyes; discriminate Hyes).
  split; [exact Hno|].
  apply (@C10_invalid_postcode_rejected asciiStrings (fun _ => LookupErr "offline")
           (fun s => s) (fun s => s) (mkParams "sw1a 1a" "London") [] Hno).
Defined.

(** The end-to-end scenario of the specification: nothing is cached, the
    first login gives T1, the business call is answered 401, the cache is
    cleared, the second login gives T2 and the business call then
    succeeds; two login calls and two business calls were made. *)
Lemma recovery_end_to_end :
  let R := sampleRuntime [okResp (loginBody "T1"); okResp (loginBody "T2")]
                         [unauthorized ""; okResp shipmentBody] in
  let result :=
    @authenticatedRequest R sampleCredentials (postRequest None None)
      (initialState emptyCache 0) in
  fst result = Returned (Parsed shipmentJson)
  /\ authCalls (snd result) = 2%nat
  /\ apiCalls (snd result) = 2%nat
  /\ clearsOf (trace (snd result)) = 1%nat
  /\ store (snd result) = mkTokenCache (Some "T2") (Some 5401000).
Proof. vm_compute. repeat split. Qed.

(** ** Further properties of the request pipeline *)

Section RequestBounds.
Context `{Runtime}.
Variable creds : DPDCredentials.
Variable opts : DPDRequestOptions.

Lemma authenticate_counters s :
  authCalls (snd (authenticate creds s)) = S (authCalls s)
  /\ apiCalls (snd (authenticate creds s)) = apiCalls s.
Proof.
  unfold authenticate, bind, fetchAuth, liftOutcome.
  destruct (authNet (authCalls s)) as [e|r]; [now split|].
  now destruct (readGeoSession r).
Qed.

Lemma getGeoSession_counters force s :
  (authCalls s <= authCalls (snd (getGeoSession creds force s)) <= S (authCalls s))%nat
  /\ apiCalls (snd (getGeoSession creds force s)) = apiCalls s.
Proof.
  unfold getGeoSession, bind, getStore, dateNow.
  destruct (negb force && cacheValid (store s) (clock s)).
  - cbn. lia.
  - destruct (authenticate_counters s) as [-> ->]. lia.
Qed.

Lemma handleResponse_counters attempt r s :
  authCalls (snd (handleResponse opts attempt r s)) = authCalls s
  /\ apiCalls (snd (handleResponse opts attempt r s)) = apiCalls s.
Proof.
  unfold handleResponse. destruct (isLabelRequest opts).
  - unfold bind, liftOutcome. now destruct (labelResponse r).
  - unfold jsonResponse. destruct (parseBody r) as [data|].
    + destruct (negb (ok r) || (hasError data && negb (hasData data))); [|now split].
      now destruct ((status r =? 401) && retryOf opts
                    && (attempt <? retryAttemptsOf opts - 1)).
    + now destruct (negb (ok r)).
Qed.

Lemma attemptBody_counters attempt s :
  (authCalls s <= authCalls (snd (attemptBody creds opts attempt s)) <= S (authCalls s))%nat
  /\ (apiCalls s <= apiCalls (snd (attemptBody creds opts attempt s)) <= S (apiCalls s))%nat.
Proof.
  pose proof (getGeoSession_counters (0 <? attempt) s) as [Hauth Hapi].
  destruct (getGeoSession creds (0 <? attempt) s) as [[e|t] s1] eqn:Eget.
  - rewrite (attemptBody_login_error _ _ _ _ _ _ Eget). cbn [snd] in *. lia.
  - destruct (apiNet (apiCalls s1)) as [e|r] eqn:Enet.
    + rewrite (attemptBody_network_error _ _ _ _ _ _ _ Eget Enet). cbn in *. lia.
    + rewrite (attemptBody_dispatch _ _ _ _ _ _ _ Eget Enet).
      destruct (handleResponse_counters attempt r (dispatched opts t s1)) as [-> ->].
      cbn in *. lia.
Qed.

Lemma requestLoop_counters fuel : forall attempt last s,
  (authCalls s <= authCalls (snd (requestLoop creds opts fuel attempt last s))
   <= authCalls s + fuel)%nat
  /\ (apiCalls s <= apiCalls (snd (requestLoop creds opts fuel attempt last s))
      <= apiCalls s + fuel)%nat.
Proof.
  induction fuel as [|fuel IH]; intros attempt last s.
  - cbn. lia.
  - pose proof (attemptBody_counters attempt s) as Hstep.
    destruct (attemptBody creds opts attempt s) as [[e|[p|]] s1] eqn:Ebody;
      cbn [snd] in Hstep.
    + rewrite (requestLoop_raised _ _ _ _ _ _ _ _ Ebody).
      destruct (negb (retryOf opts) || (retryAttemptsOf opts - 1 <=? attempt)).
      * cbn [snd]. lia.
      * set (s2 := delayed (DPD_API.RETRY_DELAY * (attempt + 1)) s1).
        assert (authCalls s2 = authCalls s1 /\ apiCalls s2 = apiCalls s1) as [Ha Hb]
          by now split.
        specialize (IH (attempt + 1) (Some e) s2). lia.
    + rewrite (requestLoop_done _ _ _ _ _ _ _ _ Ebody). cbn [snd]. lia.
    + rewrite (requestLoop_again _ _ _ _ _ _ _ Ebody).
      specialize (IH (attempt + 1) last s1). lia.
Qed.

(** X1.  A call of [authenticatedRequest] never makes more business calls
    nor more login calls than [retryAttempts] (none when that number is
    zero or negative), whatever the network answers. *)
Theorem request_attempts_bounded s :
  let s' := snd (authenticatedRequest creds opts s) in
  (apiCalls s <= apiCalls s' <= apiCalls s + Z.to_nat (retryAttemptsOf opts))%nat
  /\ (authCalls s <= authCalls s' <= authCalls s + Z.to_nat (retryAttemptsOf opts))%nat.
Proof.
  cbv zeta. unfold authenticatedRequest.
  destruct (requestLoop_counters (Z.to_nat (retryAttemptsOf opts)) 0 None s) as [Ha Hb].
  split; assumption.
Qed.

(** X2.  With [retryAttempts] zero or negative the request is never sent:
    the call throws "Request failed after retries" and changes nothing. *)
Theorem request_without_attempts s :
  retryAttemptsOf opts <= 0 ->
  authenticatedRequest creds opts s = (Raised "Request failed after retries", s).
Proof.
  intros Hn. unfold authenticatedRequest.
  replace (Z.to_nat (retryAttemptsOf opts)) with 0%nat by lia. reflexivity.
Qed.

(** X3.  With [retry] off and at least one attempt allowed, the call is
    its first attempt and nothing more: the state and the outcome of that
    attempt, which never asks for another one; at most one business call
    and no wait. *)
Theorem request_without_retry s :
  retryOf opts = false ->
  1 <= retryAttemptsOf opts ->
  let first := attemptBody creds opts 0 s in
  let result := authenticatedRequest creds opts s in
  snd result = snd first
  /\ (forall p, fst first = Returned (Done p) -> fst result = Returned p)
  /\ (forall e, fst first = Raised e -> fst result = Raised e)
  /\ fst first <> Returned Again
  /\ (apiCalls (snd result) <= S (apiCalls s))%nat
  /\ delaysOf (trace (snd result)) = delaysOf (trace s).
Proof.
  intros Hoff Hn. cbv zeta. unfold authenticatedRequest.
  rewrite (to_nat_succ _ Hn).
  pose proof (attemptBody_counters 0 s) as [_ Hapi].
  pose proof (attemptBody_delays creds opts 0 s) as Hdelays.
  destruct (attemptBody creds opts 0 s) as [[e|[p|]] s1] eqn:Ebody.
  - rewrite (requestLoop_raised _ _ _ _ _ _ _ _ Ebody), Hoff. cbn in *.
    rewrite app_nil_r in Hdelays.
    repeat split; try congruence; try discriminate; lia.
  - rewrite (requestLoop_done _ _ _ _ _ _ _ _ Ebody). cbn in *.
    rewrite app_nil_r in Hdelays.
    repeat split; try congruence; try discriminate; lia.
  - exfalso. pose proof (attemptBody_again creds opts 0 s s1 Ebody) as Hmore.
    revert Ebody. unfold attemptBody, bind.
    destruct (getGeoSession creds (0 <? 0) s) as [[e|t] s0]; [discriminate|].
    destruct (fetchApi _ _ _ _ s0) as [[e|r] s2]; [discriminate|].
    unfold handleResponse. destruct (isLabelRequest opts).
    + unfold bind, liftOutcome. destruct (labelResponse r); discriminate.
    + unfold jsonResponse. rewrite Hoff. destruct (parseBody r) as [data|].
      * destruct (negb (ok r) || (hasError data && negb (hasData data))); [|discriminate].
        rewrite andb_false_r. discriminate.
      * destruct (negb (ok r)); discriminate.
Qed.
End RequestBounds.

Section RequestTrace.
Context `{Runtime}.
Variable creds : DPDCredentials.
Variable opts : DPDRequestOptions.

Lemma authenticate_trace s :
  trace (snd (authenticate creds s)) = trace s ++ [EvAuth creds].
Proof.
  unfold authenticate, bind, fetchAuth, liftOutcome.
  destruct (authNet (authCalls s)) as [e|r]; [reflexivity|].
  now destruct (readGeoSession r).
Qed.

Lemma getGeoSession_trace force s :
  exists evs, trace (snd (getGeoSession creds force s)) = trace s ++ evs
              /\ Forall (requestEvent creds opts) evs.
Proof.
  unfold getGeoSession, bind, getStore, dateNow.
  destruct (negb force && cacheValid (store s) (clock s)).
  - exists []. split; [now rewrite app_nil_r|constructor].
  - exists [EvAuth creds]. split; [apply authenticate_trace|].
    repeat constructor.
Qed.

Lemma handleResponse_trace attempt r s :
  0 <= attempt ->
  exists evs, trace (snd (handleResponse opts attempt r s)) = trace s ++ evs
              /\ Forall (requestEvent creds opts) evs.
Proof.
  intros Hattempt.
  assert (exists evs, trace s = trace s ++ evs /\ Forall (requestEvent creds opts) evs)
    as Hsame by (exists []; split; [now rewrite app_nil_r|constructor]).
  unfold handleResponse. destruct (isLabelRequest opts).
  - unfold bind, liftOutcome. now destruct (labelResponse r).
  - unfold jsonResponse. destruct (parseBody r) as [data|].
    + destruct (negb (ok r) || (hasError data && negb (hasData data))); [|exact Hsame].
      destruct ((status r =? 401) && retryOf opts
                && (attempt <? retryAttemptsOf opts - 1)); [|exact Hsame].
      exists [EvClear; EvDelay (DPD_API.RETRY_DELAY * (attempt + 1))]. split.
      * cbn. now rewrite <- app_assoc.
      * repeat constructor. now exists attempt.
    + now destruct (negb (ok r)).
Qed.

Lemma attemptBody_trace attempt s :
  0 <= attempt ->
  exists evs, trace (snd (attemptBody creds opts attempt s)) = trace s ++ evs
              /\ Forall (requestEvent creds opts) evs.
Proof.
  intros Hattempt.
  destruct (getGeoSession_trace (0 <? attempt) s) as (evs0 & Htrace0 & Hall0).
  destruct (getGeoSession creds (0 <? attempt) s) as [[e|t] s1] eqn:Eget.
  - rewrite (attemptBody_login_error _ _ _ _ _ _ Eget). now exists evs0.
  - assert (Forall (requestEvent creds opts)
              (evs0 ++ [EvDispatch (method opts) (urlOf opts) (sentHeaders opts t)
                          (bodyOf opts)])) as Hall1.
    { apply Forall_app. split; [exact Hall0|]. repeat constructor. now exists t. }
    destruct (apiNet (apiCalls s1)) as [e|r] eqn:Enet.
    + rewrite (attemptBody_network_error _ _ _ _ _ _ _ Eget Enet).
      eexists. split; [|exact Hall1]. cbn in *. rewrite Htrace0.
      now rewrite <- app_assoc.
    + rewrite (attemptBody_dispatch _ _ _ _ _ _ _ Eget Enet).
      destruct (handleResponse_trace attempt r (dispatched opts t s1) Hattempt)
        as (evs2 & Htrace2 & Hall2).
      eexists. split; [|apply Forall_app; split; [exact Hall1|exact Hall2]].
      rewrite Htrace2. cbn in *. rewrite Htrace0. now rewrite <- !app_assoc.
Qed.

Lemma requestLoop_trace fuel : forall attempt last s,
  0 <= attempt ->
  exists evs, trace (snd (requestLoop creds opts fuel attempt last s)) = trace s ++ evs
              /\ Forall (requestEvent creds opts) evs.
Proof.
  induction fuel as [|fuel IH]; intros attempt last s Hattempt.
  - exists []. split; [cbn; now rewrite app_nil_r|constructor].
  - destruct (attemptBody_trace attempt s Hattempt) as (evs1 & Htrace1 & Hall1).
    destruct (attemptBody creds opts attempt s) as [[e|[p|]] s1] eqn:Ebody;
      cbn [snd] in Htrace1.
    + rewrite (requestLoop_raised _ _ _ _ _ _ _ _ Ebody).
      destruct (negb (retryOf opts) || (retryAttemptsOf opts - 1 <=? attempt)).
      * now exists evs1.
      * destruct (IH (attempt + 1) (Some e)
                     (delayed (DPD_API.RETRY_DELAY * (attempt + 1)) s1))
          as (evs2 & Htrace2 & Hall2); [lia|].
        exists (evs1 ++ EvDelay (DPD_API.RETRY_DELAY * (attempt + 1)) :: evs2). split.
        -- rewrite Htrace2. cbn. rewrite Htrace1. now rewrite <- !app_assoc.
        -- apply Forall_app. split; [exact Hall1|]. constructor; [|exact Hall2].
           now exists attempt.
    + rewrite (requestLoop_done _ _ _ _ _ _ _ _ Ebody). now exists evs1.
    + rewrite (requestLoop_again _ _ _ _ _ _ _ Ebody).
      destruct (IH (attempt + 1) last s1) as (evs2 & Htrace2 & Hall2); [lia|].
      exists (evs1 ++ evs2). split.
      * rewrite Htrace2, Htrace1. now rewrite <- app_assoc.
      * apply Forall_app. now split.
Qed.

(** The trace of a call grows by events of the request only. *)
Lemma authenticatedRequest_trace s :
  exists evs, trace (snd (authenticatedRequest creds opts s)) = trace s ++ evs
              /\ Forall (requestEvent creds opts) evs.
Proof. apply requestLoop_trace. lia. Qed.

Lemma sentHeaders_caller token k v :
  headersOf opts !! k = Some v -> sentHeaders opts token !! k = Some v.
Proof. intros Hk. unfold sentHeaders. now apply lookup_union_Some_l. Qed.

Lemma sentHeaders_default token k :
  headersOf opts !! k = None ->
  sentHeaders opts token !! k
  = ({[ "Content-Type" := "application/json"; "GeoSession" := token ]}
       : gmap string string) !! k.
Proof. intros Hk. unfold sentHeaders. now apply lookup_union_r. Qed.

(** X4.  Every business call that [authenticatedRequest] dispatches has
    the method and the URL of the options and sends every header of the
    caller as the caller gave it, a [Content-Type] or [GeoSession] header
    of the caller included: these replace "application/json" and the
    session token, which are sent only when the caller gives none. *)
Theorem caller_headers_take_precedence s :
  exists evs,
    trace (snd (authenticatedRequest creds opts s)) = trace s ++ evs
    /\ Forall (fun e =>
                 match e with
                 | EvDispatch m u h b =>
                     m = method opts /\ u = urlOf opts
                     /\ (forall k v, headersOf opts !! k = Some v -> h !! k = Some v)
                     /\ (headersOf opts !! "Content-Type" = None ->
                         h !! "Content-Type" = Some "application/json")
                     /\ (headersOf opts !! "GeoSession" = None ->
                         exists token, h !! "GeoSession" = Some token)
                 | _ => True
                 end) evs.
Proof.
  destruct (authenticatedRequest_trace s) as (evs & Htrace & Hall).
  exists evs. split; [exact Htrace|].
  eapply Forall_impl; [exact Hall|].
  intros [c|m u h b|ms|]; cbn; try tauto.
  intros (-> & -> & _ & token & ->).
  repeat split.
  - intros k v. apply sentHeaders_caller.
  - intros Hnone. now rewrite (sentHeaders_default token _ Hnone).
  - intros Hnone. exists token. now rewrite (sentHeaders_default token _ Hnone).
Qed.
End RequestTrace.

Section RequestLogins.
Context `{Runtime}.
Variable creds : DPDCredentials.
Variable opts : DPDRequestOptions.

Lemma attemptBody_retry_logs_in attempt s :
  0 < attempt ->
  authCalls (snd (attemptBody creds opts attempt s)) = S (authCalls s).
Proof.
  intros Hattempt.
  assert ((0 <? attempt) = true) as Hforce by lia.
  pose proof (authenticate_counters creds s) as [Hauth _].
  destruct (getGeoSession creds (0 <? attempt) s) as [[e|t] s1] eqn:Eget;
    pose proof Eget as Eget'; rewrite Hforce, getGeoSession_forced in Eget';
    rewrite Eget' in Hauth; cbn [snd] in Hauth.
  - now rewrite (attemptBody_login_error _ _ _ _ _ _ Eget).
  - destruct (apiNet (apiCalls s1)) as [e|r] eqn:Enet.
    + now rewrite (attemptBody_network_error _ _ _ _ _ _ _ Eget Enet).
    + rewrite (attemptBody_dispatch _ _ _ _ _ _ _ Eget Enet).
      now destruct (handleResponse_counters opts attempt r (dispatched opts t s1))
        as [-> _].
Qed.

Lemma requestLoop_logins fuel : forall attempt last s,
  0 < attempt ->
  (apiCalls (snd (requestLoop creds opts fuel attempt last s)) + authCalls s
   <= authCalls (snd (requestLoop creds opts fuel attempt last s)) + apiCalls s)%nat.
Proof.
  induction fuel as [|fuel IH]; intros attempt last s Hattempt.
  - cbn. lia.
  - pose proof (attemptBody_counters creds opts attempt s) as [_ Hapi].
    pose proof (attemptBody_retry_logs_in attempt s Hattempt) as Hauth.
    destruct (attemptBody creds opts attempt s) as [[e|[p|]] s1] eqn:Ebody;
      cbn [snd] in Hapi, Hauth.
    + rewrite (requestLoop_raised _ _ _ _ _ _ _ _ Ebody).
      destruct (negb (retryOf opts) || (retryAttemptsOf opts - 1 <=? attempt)).
      * cbn [snd]. lia.
      * set (s2 := delayed (DPD_API.RETRY_DELAY * (attempt + 1)) s1).
        assert (authCalls s2 = authCalls s1 /\ apiCalls s2 = apiCalls s1) as [Ha Hb]
          by now split.
        specialize (IH (attempt + 1) (Some e) s2). lia.
    + rewrite (requestLoop_done _ _ _ _ _ _ _ _ Ebody). cbn [snd]. lia.
    + rewrite (requestLoop_again _ _ _ _ _ _ _ Ebody).
      specialize (IH (attempt + 1) last s1). lia.
Qed.

(** X5.  Every attempt of [authenticatedRequest] after the first begins
    with a login call, whether or not the cached token is still valid: a
    call that makes [n] business calls makes at least [n - 1] login
    calls. *)
Theorem retries_log_in_again s :
  let s' := snd (authenticatedRequest creds opts s) in
  (apiCalls s' + authCalls s <= authCalls s' + apiCalls s + 1)%nat
  /\ (forall attempt s0, 0 < attempt ->
        authCalls (snd (attemptBody creds opts attempt s0)) = S (authCalls s0)).
Proof.
  cbv zeta. split; [|apply attemptBody_retry_logs_in].
  unfold authenticatedRequest.
  destruct (Z.to_nat (retryAttemptsOf opts)) as [|fuel]; [cbn; lia|].
  pose proof (attemptBody_counters creds opts 0 s) as [Hauth Hapi].
  destruct (attemptBody creds opts 0 s) as [[e|[p|]] s1] eqn:Ebody;
    cbn [snd] in Hapi, Hauth.
  - rewrite (requestLoop_raised _ _ _ _ _ _ _ _ Ebody).
    destruct (negb (retryOf opts) || (retryAttemptsOf opts - 1 <=? 0)).
    + cbn [snd]. lia.
    + set (s2 := delayed (DPD_API.RETRY_DELAY * (0 + 1)) s1).
      assert (authCalls s2 = authCalls s1 /\ apiCalls s2 = apiCalls s1) as [Ha Hb]
        by now split.
      pose proof (requestLoop_logins fuel (0 + 1) (Some e) s2 ltac:(lia)). lia.
  - rewrite (requestLoop_done _ _ _ _ _ _ _ _ Ebody). cbn [snd]. lia.
  - rewrite (requestLoop_again _ _ _ _ _ _ _ Ebody).
    pose proof (requestLoop_logins fuel (0 + 1) None s1 ltac:(lia)). lia.
Qed.
End RequestLogins.

(** ** Further properties of the token cache *)

Section TokenCacheProperties.
Context `{Runtime}.
Variable creds : DPDCredentials.

Lemma nonEmpty_Some (token : string) : token <> "" -> nonEmpty (Some token) = true.
Proof.
  intros Hne. cbn. destruct (String.eqb token "") eqn:Heq; [|reflexivity].
  now apply String.eqb_eq in Heq.
Qed.

(** X6.  After a login that gives a non-empty token, the token sits in
    the cache with an expiry 90 minutes after the login; until then
    [getGeoSession] without [forceRefresh] gives it back with no network
    call, to any credentials (the cache is not keyed by credentials), and
    from then on [getGeoSession] logs in again. *)
Theorem token_cached_for_90_minutes s token :
  authAttempt (authCalls s) = Returned token ->
  token <> "" ->
  authenticate creds s = (Returned token, authenticated creds token s)
  /\ store (authenticated creds token s) = cacheOf token (clock s)
  /\ (forall other s2,
         store s2 = cacheOf token (clock s) ->
         clock s2 < clock s + 90 * 60 * 1000 ->
         getGeoSession other false s2 = (Returned token, s2))
  /\ (forall other s2,
         store s2 = cacheOf token (clock s) ->
         clock s + 90 * 60 * 1000 <= clock s2 ->
         getGeoSession other false s2 = authenticate other s2).
Proof.
  intros Hlogin Hne. split; [now apply authenticate_ok|]. split; [reflexivity|].
  split; intros other s2 Hstore Hclock;
    unfold getGeoSession, bind, getStore, dateNow, cacheValid;
    rewrite Hstore; cbn [cacheOf geoSession expiry negb andb];
    rewrite (nonEmpty_Some token Hne); cbn [andb].
  - assert ((clock s2 <? clock s + 90 * 60 * 1000) = true) as -> by lia. reflexivity.
  - assert ((clock s2 <? clock s + 90 * 60 * 1000) = false) as -> by lia. reflexivity.
Qed.

Lemma testConnection_run s :
  testConnection creds s
  = match authAttempt (authCalls s) with
    | Raised e => (Returned (false, e), loggedIn creds (cleared s))
    | Returned token =>
        (Returned (if String.eqb token ""
                   then (false, "Authentication succeeded but no token received")
                   else (true, "Successfully connected to DPD API")),
         authenticated creds token (cleared s))
    end.
Proof.
  unfold testConnection, tryCatch, bind at 1.
  change (clearGeoSession s) with (Returned tt, cleared s).
  cbv iota beta. unfold bind.
  assert (authCalls (cleared s) = authCalls s) as Hcalls by reflexivity.
  destruct (authAttempt (authCalls s)) as [e|token] eqn:Hlogin.
  - rewrite <- Hcalls in Hlogin.
    now rewrite (authenticate_failed creds (cleared s) e Hlogin).
  - rewrite <- Hcalls in Hlogin.
    rewrite (authenticate_ok creds (cleared s) token Hlogin).
    now destruct (String.eqb token "").
Qed.

(** X7.  [testConnection] never throws and makes exactly one login call.
    It empties the cache first, so that a failed login leaves the cache
    empty whatever it held, and reports the message of the failure; a
    login that gives a non-empty token is reported as a success and the
    token is cached. *)
Theorem testConnection_outcome s :
  let result := testConnection creds s in
  (exists verdict, fst result = Returned verdict)
  /\ authCalls (snd result) = S (authCalls s)
  /\ apiCalls (snd result) = apiCalls s
  /\ (forall e, authAttempt (authCalls s) = Raised e ->
                fst result = Returned (false, e) /\ store (snd result) = emptyCache)
  /\ (forall token, authAttempt (authCalls s) = Returned token -> token <> "" ->
                    fst result = Returned (true, "Successfully connected to DPD API")
                    /\ store (snd result) = cacheOf token (clock s)).
Proof.
  cbv zeta.
  destruct (authAttempt (authCalls s)) as [e|token] eqn:Hlogin.
  - rewrite (testConnection_run s), Hlogin.
    repeat split; eauto; try discriminate. cbn [fst]. congruence.
  - rewrite (testConnection_run s), Hlogin.
    repeat split; eauto; try discriminate.
    all: match goal with Heq : Returned _ = Returned _ |- _ => injection Heq as <- end.
    + cbn [fst]. destruct (String.eqb token "") eqn:Hempty; [|reflexivity].
      now apply String.eqb_eq in Hempty.
    + reflexivity.
Qed.
End TokenCacheProperties.

(** ** Further properties of the session manager *)

Section StorageProperties.

Lemma inMemoryStorage_get (token : string) (e : Date) :
  token <> "" ->
  storageGet (mkInMemory (Some token) (Some e)) = Some (mkStored (Some token) (Some e)).
Proof.
  intros Hne. cbn. destruct (String.eqb token "") eqn:Hempty; [|reflexivity].
  now apply String.eqb_eq in Hempty.
Qed.

(** X8.  The in-memory storage gives back the session last written, reads
    nothing after [clear], and keeps only the last of two writes; a
    session written with an empty token reads as no session. *)
Theorem inMemoryStorage_round_trip (m : InMemoryGeoSessionStorage)
    (token : string) (e : Date) :
  (token <> "" ->
   storageGet (storageSet token e m) = Some (mkStored (Some token) (Some e)))
  /\ storageGet (storageSet "" e m) = None
  /\ storageGet (storageClear m) = None
  /\ storageGet (storageClear (storageSet token e m)) = None
  /\ (forall token' e', storageSet token' e' (storageSet token e m) = storageSet token' e' m)
  /\ storageGet (mkInMemory None None) = None.
Proof.
  repeat split. apply inMemoryStorage_get.
Qed.
End StorageProperties.

Section ManagerProperties.
Context `{Runtime}.
Variable this : GeoSessionManager.

Lemma authRetryLoop_returned {S : Type} `{GeoSessionStorage S} fuel :
  forall attempt last (s s1 : State S) token e,
    authRetryLoop this fuel attempt last s = (Returned (token, e), s1) ->
    e = clock s1 + 90 * 60 * 1000 /\ store s1 = store s.
Proof.
  induction fuel as [|fuel IH]; intros attempt last s s1 token e; [discriminate|].
  rewrite authRetryLoop_step.
  destruct (authAttempt (authCalls s)) as [err|t].
  - intros Hrun. apply IH in Hrun as [-> ->].
    split; [reflexivity|]. now destruct (attempt <? maxRetries this).
  - intros [= <- <- <-]. now split.
Qed.

(** The first [j] logins fail and the next one gives a token, [j] being
    less than the iterations left: the loop returns that token after
    [j + 1] calls. *)
Lemma authRetryLoop_succeeds_after {S : Type} `{GeoSessionStorage S} j :
  forall fuel attempt last (s : State S) token,
    (forall i, (i < j)%nat -> exists e, authAttempt (authCalls s + i)%nat = Raised e) ->
    authAttempt (authCalls s + j)%nat = Returned token ->
    (j < fuel)%nat ->
    authRetryLoop this fuel attempt last s
    = (Returned (token, clock (failedLogins this j attempt s) + 90 * 60 * 1000),
       loggedIn (credentials this) (failedLogins this j attempt s)).
Proof.
  induction j as [|j IH]; intros fuel attempt last s token Hfail Hok Hfuel;
    (destruct fuel as [|fuel]; [lia|]); rewrite authRetryLoop_step.
  - rewrite Nat.add_0_r in Hok. now rewrite Hok.
  - destruct (Hfail 0%nat ltac:(lia)) as [e He]. rewrite Nat.add_0_r in He. rewrite He.
    cbn [failedLogins].
    set (s' := if attempt <? maxRetries this then _ else _).
    assert (authCalls s' = Datatypes.S (authCalls s)) as Hcalls
      by (unfold s'; now destruct (attempt <? maxRetries this)).
    apply IH; [| |lia].
    + intros i Hi. rewrite Hcalls.
      replace (Datatypes.S (authCalls s) + i)%nat with (authCalls s + Datatypes.S i)%nat
        by lia.
      apply Hfail. lia.
    + rewrite Hcalls.
      now replace (Datatypes.S (authCalls s) + j)%nat with (authCalls s + Datatypes.S j)%nat
        by lia.
Qed.

Lemma failedTrace_delays j : forall attempt,
  attempt + Z.of_nat j <= maxRetries this ->
  delaysOf (failedTrace this j attempt)
  = List.map (fun k => baseRetryDelay this * 2 ^ (attempt - 1 + Z.of_nat k)) (seq 0 j).
Proof.
  induction j as [|j IH]; intros attempt Hle; [reflexivity|].
  cbn [failedTrace]. assert ((attempt <? maxRetries this) = true) as -> by lia.
  change (EvAuth ?c :: [?d] ++ ?rest) with ([EvAuth c; d] ++ rest).
  rewrite delaysOf_app, IH by lia.
  change (delaysOf [EvAuth ?c; EvDelay ?x]) with [x]. cbn [app seq List.map].
  f_equal; [do 2 f_equal; lia|].
  rewrite <- seq_shift, List.map_map. apply List.map_ext.
  intros k. do 2 f_equal. lia.
Qed.

(** X9.  When the first [j] logins fail and the next one gives a token,
    with [j < maxRetries], [getValidGeoSession], finding no valid stored
    session, returns that token after exactly [j + 1] login calls and the
    waits [baseRetryDelay * 2 ^ 0], ..., [baseRetryDelay * 2 ^ (j - 1)],
    and writes the token to the storage with an expiry 90 minutes after
    the successful login. *)
Theorem session_acquired_after_failures {S : Type} `{GeoSessionStorage S}
    (s : State S) (j : nat) (token : string) :
  storedValid (clock s) (storageGet (store s)) = false ->
  (forall i, (i < j)%nat -> exists e, authAttempt (authCalls s + i)%nat = Raised e) ->
  authAttempt (authCalls s + j)%nat = Returned token ->
  Z.of_nat j < maxRetries this ->
  let s1 := loggedIn (credentials this) (failedLogins this j 1 s) in
  getValidGeoSession this s
  = (Returned token, saved token (clock s1 + 90 * 60 * 1000) s1)
  /\ authCalls s1 = (authCalls s + j + 1)%nat
  /\ trace s1 = trace s ++ failedTrace this j 1 ++ [EvAuth (credentials this)]
  /\ delaysOf (trace s1)
     = delaysOf (trace s)
       ++ List.map (fun k => baseRetryDelay this * 2 ^ Z.of_nat k) (seq 0 j).
Proof.
  intros Hvalid Hfail Hok Hj s1.
  assert (trace s1 = trace s ++ failedTrace this j 1 ++ [EvAuth (credentials this)])
    as Htrace.
  { unfold s1, loggedIn. cbn [trace]. rewrite failedLogins_trace.
    now rewrite <- app_assoc. }
  split; [|split; [|split]].
  - rewrite (getValidGeoSession_fresh this s Hvalid). unfold authenticateWithRetry.
    rewrite (authRetryLoop_succeeds_after j _ 1 None s token Hfail Hok) by lia.
    reflexivity.
  - unfold s1, loggedIn. cbn [authCalls]. rewrite failedLogins_authCalls. lia.
  - exact Htrace.
  - rewrite Htrace, !delaysOf_app, failedTrace_delays by lia.
    change (delaysOf [EvAuth ?c]) with (@nil Z). now rewrite app_nil_r.
Qed.

(** X10.  With the in-memory storage, a session that [getValidGeoSession]
    has just acquired (its token not empty) is handed back by every call
    made in the following 90 minutes, with no login call and no write. *)
Theorem acquired_session_reused (s s1 : State InMemoryGeoSessionStorage)
    (token : string) :
  storedValid (clock s) (storageGet (store s)) = false ->
  getValidGeoSession this s = (Returned token, s1) ->
  token <> "" ->
  store s1 = mkInMemory (Some token) (Some (TimeValue (clock s1 + 90 * 60 * 1000)))
  /\ (forall s2 : State InMemoryGeoSessionStorage,
         store s2 = store s1 ->
         clock s2 < clock s1 + 90 * 60 * 1000 ->
         getValidGeoSession this s2 = (Returned token, s2)).
Proof.
  intros Hvalid Hrun Hne.
  rewrite (getValidGeoSession_fresh this s Hvalid) in Hrun.
  unfold authenticateWithRetry in Hrun.
  destruct (authRetryLoop this (Z.to_nat (maxRetries this)) 1 None s)
    as [[err|[t e]] s0] eqn:Eloop; [discriminate|].
  apply authRetryLoop_returned in Eloop as [-> _].
  cbn [fst snd] in Hrun. injection Hrun as <- <-.
  split; [reflexivity|].
  assert (storageGet (mkInMemory (Some t) (Some (TimeValue (clock s0 + 90 * 60 * 1000))))
          = Some (mkStored (Some t) (Some (TimeValue (clock s0 + 90 * 60 * 1000)))))
    as Hget by (apply (inMemoryStorage_get t _ Hne)).
  intros s2 Hstore Hclock.
  change (store (saved t (clock s0 + 90 * 60 * 1000) s0))
    with (mkInMemory (Some t) (Some (TimeValue (clock s0 + 90 * 60 * 1000)))) in Hstore.
  change (clock (saved t (clock s0 + 90 * 60 * 1000) s0)) with (clock s0) in Hclock.
  rewrite (getValidGeoSession_cached this s2); rewrite Hstore, Hget.
  - reflexivity.
  - cbn [storedValid storedGeoSession storedExpiry].
    rewrite isSessionValid_hard_expiry, (nonEmpty_Some t Hne). cbn [andb]. lia.
Qed.

(** [getValidGeoSession] over any adapter, step by step *)
Lemma getValidGeoSession_run {S : Type} `{AsyncStorage S} (s : State S) :
  getValidGeoSession this s
  = let s1 := mkState (snd (asyncGet (store s))) (clock s) (authCalls s) (apiCalls s)
                      (trace s) in
    match fst (asyncGet (store s)) with
    | Raised e => (Raised ("Failed to get valid geo session: " +:+ e), s1)
    | Returned stored =>
        if storedValid (clock s) stored
        then (Returned (default "" (stored ≫= storedGeoSession)), s1)
        else
          match authenticateWithRetry this s1 with
          | (Raised e, s2) => (Raised ("Failed to get valid geo session: " +:+ e), s2)
          | (Returned fresh, s2) =>
              let put := asyncSet (fst fresh) (TimeValue (snd fresh)) (store s2) in
              let s3 := mkState (snd put) (clock s2) (authCalls s2) (apiCalls s2)
                                (trace s2) in
              match fst put with
              | Raised e => (Raised ("Failed to get valid geo session: " +:+ e), s3)
              | Returned _ => (Returned (fst fresh), s3)
              end
          end
    end.
Proof.
  cbv zeta.
  unfold getValidGeoSession, tryCatch, bind, storage_get, storage_set, awaitStorage,
    dateNow, ret, throw.
  cbn [store clock authCalls apiCalls trace fst snd].
  destruct (fst (asyncGet (store s))) as [e|stored]; [reflexivity|].
  destruct (storedValid (clock s) stored); [reflexivity|].
  destruct (authenticateWithRetry this _) as [[e|fresh] s2]; [reflexivity|].
  cbn [fst snd].
  now destruct (fst (asyncSet (fst fresh) (TimeValue (snd fresh)) (store s2))).
Qed.

(** X11.  Whatever makes [getValidGeoSession] throw, a rejection of the
    [get] or of the [set] of the storage adapter included, the error it
    throws starts with "Failed to get valid geo session: ".  When it is
    [get] that rejects, no login is made.  Unless it is [set] that
    rejects, the storage is then as [get] left it: a failed login never
    overwrites nor clears the stored session. *)
Theorem acquisition_failure_wrapped {S : Type} `{AsyncStorage S}
    (s : State S) (e : string) :
  fst (getValidGeoSession this s) = Raised e ->
  (exists inner, e = "Failed to get valid geo session: " +:+ inner)
  /\ (forall inner, fst (asyncGet (store s)) = Raised inner ->
                    e = "Failed to get valid geo session: " +:+ inner
                    /\ authCalls (snd (getValidGeoSession this s)) = authCalls s)
  /\ ((forall token expiry m, fst (asyncSet token expiry m) = Returned tt) ->
      store (snd (getValidGeoSession this s)) = snd (asyncGet (store s))).
Proof.
  rewrite getValidGeoSession_run. cbv zeta.
  destruct (fst (asyncGet (store s))) as [e0|stored].
  { intros [= <-]. split; [now exists e0|]. split.
    - now intros inner [= <-].
    - reflexivity. }
  destruct (storedValid (clock s) stored); [discriminate|].
  set (s1 := mkState _ (clock s) (authCalls s) (apiCalls s) (trace s)).
  pose proof (authRetryLoop_frame this (Z.to_nat (maxRetries this)) 1 None s1)
    as (Hstore & _ & _).
  fold (authenticateWithRetry this s1) in Hstore.
  destruct (authenticateWithRetry this s1) as [[e1|fresh] s2]; cbn [fst snd] in *.
  { intros [= <-]. split; [now exists e1|]. split; [discriminate|].
    intros _. exact Hstore. }
  destruct (fst (asyncSet (fst fresh) (TimeValue (snd fresh)) (store s2)))
    as [e2|done] eqn:Eset; [|discriminate].
  intros [= <-]. split; [now exists e2|]. split; [discriminate|].
  intros Hset. specialize (Hset (fst fresh) (TimeValue (snd fresh)) (store s2)).
  rewrite Eset in Hset. discriminate.
Qed.

(** X12.  The 12-hour rule of [isSessionValid] never decides: whatever the
    local calendar, a stored session with a non-empty token is valid
    exactly as long as its expiry is not a date that has passed, so that
    an expiry that is an invalid date never expires; a valid session is
    handed back by [getValidGeoSession] without a login call. *)
Theorem unexpired_session_always_accepted {S : Type} `{GeoSessionStorage S}
    (s : State S) (token : string) (expiry : Date) :
  storageGet (store s) = Some (mkStored (Some token) (Some expiry)) ->
  token <> "" ->
  (forall now, isSessionValid now (Some token) (Some expiry) = negb (expired now expiry))
  /\ (forall now, expired now InvalidDate = false)
  /\ (expired (clock s) expiry = false ->
      getValidGeoSession this s = (Returned token, s))
  /\ (expired (clock s) expiry = true ->
      storedValid (clock s) (storageGet (store s)) = false).
Proof.
  intros Hget Hne.
  assert (forall now, isSessionValid now (Some token) (Some expiry)
                      = negb (expired now expiry)) as Hvalid.
  { intros now. destruct expiry as [expiresAt|].
    - rewrite isSessionValid_hard_expiry, (nonEmpty_Some token Hne). cbn. lia.
    - now rewrite isSessionValid_invalid_date, (nonEmpty_Some token Hne). }
  split; [exact Hvalid|]. split; [reflexivity|]. split.
  - intros Hfuture.
    rewrite (getValidGeoSession_cached this s).
    + now rewrite Hget.
    + rewrite Hget. cbn [storedValid storedGeoSession storedExpiry].
      now rewrite Hvalid, Hfuture.
  - intros Hpast. rewrite Hget. cbn [storedValid storedGeoSession storedExpiry].
    now rewrite Hvalid, Hpast.
Qed.
End ManagerProperties.

(** ** Labels *)

Section AcceptHeader.
Context `{Runtime}.

Lemma getAcceptHeader_cases format :
  getAcceptHeader format = "text/html"
  \/ getAcceptHeader format = "text/vnd.zebra-zpl"
  \/ getAcceptHeader format = "text/vnd.citizen-clp"
  \/ getAcceptHeader format = "text/vnd.eltron-epl".
Proof.
  unfold getAcceptHeader.
  destruct (String.eqb format "html"); [tauto|].
  destruct (String.eqb format "zpl"); [tauto|].
  destruct (String.eqb format "clp"); [tauto|].
  destruct (String.eqb format "epl"); tauto.
Qed.

(** X13.  A request whose [Accept] header is the one [getAcceptHeader]
    gives, for any format name, known or not, is a label request for
    [authenticatedRequest]: its response is never read as a JSON answer,
    so that it never clears the cache, never waits and never asks for
    another attempt by itself. *)
Theorem accept_header_marks_label_request (format : string)
    (opts : DPDRequestOptions) :
  headersOf opts !! "Accept" = Some (getAcceptHeader format) ->
  isLabelRequest opts = true
  /\ forall attempt r s,
       handleResponse opts attempt r s
       = (match labelResponse r with
          | Raised e => Raised e
          | Returned p => Returned (Done p)
          end, s).
Proof.
  intros Haccept.
  assert (isLabelRequest opts = true) as Hlabel.
  { unfold isLabelRequest, acceptHeader. rewrite Haccept.
    destruct (getAcceptHeader_cases format) as [-> | [-> | [-> | ->]]]; reflexivity. }
  split; [exact Hlabel|].
  intros attempt r s. unfold handleResponse. rewrite Hlabel.
  unfold bind, liftOutcome. now destruct (labelResponse r).
Qed.
End AcceptHeader.

Lemma isNull_or_not (v : json) : v = JNull \/ v <> JNull.
Proof. destruct v; (now left) || (right; discriminate). Qed.

Section LabelProperties.
Context `{Runtime}.
Variable typeError : string -> string.
Variable creds : DPDCredentials.

Lemma generateLabelOptions_dispatch (params : json) (token : string) :
  method (generateLabelOptions params) = "GET"
  /\ urlOf (generateLabelOptions params) = labelUrlOf (field "shipmentId" (Some params))
  /\ sentHeaders (generateLabelOptions params) token !! "Accept"
     = Some (labelContentType params)
  /\ bodyOf (generateLabelOptions params) = None.
Proof.
  split; [reflexivity|]. split; [reflexivity|]. split; [|reflexivity].
  apply sentHeaders_caller. unfold headersOf, generateLabelOptions, labelContentType.
  cbn [headers default id]. apply lookup_singleton_eq.
Qed.

Lemma generateLabelOptions_label (params : json) :
  isLabelRequest (generateLabelOptions params) = true.
Proof.
  unfold isLabelRequest, acceptHeader, headersOf, generateLabelOptions.
  cbn [headers default id]. rewrite lookup_singleton_eq.
  destruct (field "format" (Some params)) as [[| | |format| |]|]; try reflexivity.
  now destruct (String.eqb format "thermal").
Qed.

Lemma generateLabel_run (params : json) s :
  params <> JNull ->
  generateLabel typeError creds params s
  = match authenticatedRequest creds (generateLabelOptions params) s with
    | (Raised e, s') => (Returned (labelFailure e), s')
    | (Returned response, s') => (Returned (readLabel response), s')
    end.
Proof.
  intros Hparams. unfold generateLabel, tryCatch, bind, ret.
  destruct params; try contradiction;
    now destruct (authenticatedRequest creds _ s) as [[e|response] s'].
Qed.

Lemma generateLabel_trace (params : json) s :
  exists evs,
    trace (snd (generateLabel typeError creds params s)) = trace s ++ evs
    /\ labelDispatches (labelUrlOf (field "shipmentId" (Some params)))
                       (labelContentType params) evs.
Proof.
  destruct (isNull_or_not params) as [->|Hparams].
  - exists []. split; [cbn; now rewrite app_nil_r|constructor].
  - rewrite (generateLabel_run params s Hparams).
    destruct (authenticatedRequest_trace creds (generateLabelOptions params) s)
      as (evs & Htrace & Hall).
    exists evs. split.
    + now destruct (authenticatedRequest creds _ s) as [[e|response] s'].
    + eapply Forall_impl; [exact Hall|].
      intros [c|m u h b|ms|]; cbn; try tauto.
      intros (-> & -> & -> & token & ->).
      now destruct (generateLabelOptions_dispatch params token) as (? & ? & ? & ?).
Qed.

(** X14.  [generateLabel] never throws: every failure, the missing
    [params] included, comes back as a result with [success: false], an
    error message and no label, the message being that of the error
    thrown by the request.  A result with [success: true] has no error
    and no URL.  A response that is the empty text gives the failure "No
    label data received from DPD", any other text is the label. *)
Theorem generateLabel_never_throws (params : json) s :
  exists result,
    fst (generateLabel typeError creds params s) = Returned result
    /\ LabelResult.labelUrl result = None
    /\ (LabelResult.success result = true -> LabelResult.error result = None)
    /\ (LabelResult.success result = false ->
        LabelResult.labelData result = None
        /\ exists e, LabelResult.error result = Some e)
    /\ (forall e s',
          params <> JNull ->
          authenticatedRequest creds (generateLabelOptions params) s = (Raised e, s') ->
          result = labelFailure e)
    /\ (forall text s',
          params <> JNull ->
          authenticatedRequest creds (generateLabelOptions params) s
          = (Returned (RawText text), s') ->
          result = if String.eqb text ""
                   then labelFailure "No label data received from DPD"
                   else LabelResult.mk true None (Some (JStr text)) None).
Proof.
  destruct (isNull_or_not params) as [->|Hparams].
  - exists (labelFailure (typeError "params")).
    repeat split; try discriminate; try contradiction; eauto.
  - rewrite (generateLabel_run params s Hparams).
    destruct (authenticatedRequest creds _ s) as [[e|response] s1].
    + exists (labelFailure e). repeat split; try discriminate; eauto.
      now intros e' s' _ [= <- _].
    + exists (readLabel response). unfold readLabel.
      destruct (negb (payloadTruthy response)
                || payloadIsObject response
                   && negb (truthy (field "data" (Some (payloadValue response)))))
        eqn:Hcheck.
      * repeat split; try discriminate; eauto.
        intros text s' _ [= -> _].
        destruct (String.eqb text "") eqn:Htext; cbn in Hcheck; rewrite Htext in Hcheck;
          cbn in Hcheck; try discriminate; reflexivity.
      * repeat split; try discriminate.
        intros text s' _ [= -> _].
        destruct (String.eqb text "") eqn:Htext; cbn in Hcheck; rewrite Htext in Hcheck;
          cbn in Hcheck; try discriminate; reflexivity.
Qed.

(** X15.  Every business call of [generateLabel] is a [GET] of
    [/shipping/shipment/<shipmentId>/label/] under the base URL, without a
    body, whose [Accept] header is "text/vnd.citizen-clp" when the
    [format] given is "thermal" and "text/html" in every other case, a
    missing [format] included; both make it a label request. *)
Theorem generateLabel_request (params : json) s :
  (exists evs,
      trace (snd (generateLabel typeError creds params s)) = trace s ++ evs
      /\ labelDispatches (labelUrlOf (field "shipmentId" (Some params)))
                         (labelContentType params) evs)
  /\ (labelContentType params = "text/vnd.citizen-clp"
      <-> field "format" (Some params) = Some (JStr "thermal"))
  /\ (labelContentType params <> "text/vnd.citizen-clp"
      -> labelContentType params = "text/html")
  /\ isLabelRequest (generateLabelOptions params) = true.
Proof.
  split; [apply generateLabel_trace|]. split; [|split].
  - unfold labelContentType.
    destruct (field "format" (Some params)) as [[| | |format| |]|];
      try (split; discriminate).
    destruct (String.eqb format "thermal") eqn:Hformat.
    + apply String.eqb_eq in Hformat as ->. now split.
    + split; [discriminate|]. intros [= ->]. now rewrite String.eqb_refl in Hformat.
  - unfold labelContentType.
    destruct (field "format" (Some params)) as [[| | |format| |]|]; try reflexivity.
    now destruct (String.eqb format "thermal").
  - apply generateLabelOptions_label.
Qed.

Section Upload.
Variable uploadLabel : json -> string -> Outcome string.

Lemma generateAndUploadLabel_state (shipmentId : json) (labelFormat : string) s :
  snd (generateAndUploadLabel typeError uploadLabel shipmentId labelFormat creds s)
  = snd (generateLabel typeError creds
           (JObj [("shipmentId", shipmentId); ("labelFormat", JStr labelFormat)]) s).
Proof.
  unfold generateAndUploadLabel, tryCatch, bind at 1.
  destruct (generateLabel typeError creds _ s) as [[e|result] s1]; [reflexivity|].
  cbn [snd].
  destruct (negb (LabelResult.success result)
            || negb (truthy (LabelResult.labelData result))); [reflexivity|].
  unfold bind, dateNow, liftOutcome.
  now destruct (uploadLabel _ _).
Qed.

(** X16.  [generateAndUploadLabel] asks for the label as "text/html"
    whatever [labelFormat] is ("zpl", "clp" and "epl" included): the
    format is passed on under the name [labelFormat], which
    [generateLabel] does not read.  It never throws: a failure of the
    upload comes back as a result with [success: false]. *)
Theorem upload_label_requests_html (shipmentId : json) (labelFormat : string) s :
  let run := generateAndUploadLabel typeError uploadLabel shipmentId labelFormat creds s in
  (exists result, fst run = Returned result)
  /\ exists evs,
       trace (snd run) = trace s ++ evs
       /\ labelDispatches (labelUrlOf (Some shipmentId)) "text/html" evs.
Proof.
  cbv zeta. split.
  - unfold generateAndUploadLabel, tryCatch, bind at 1.
    destruct (generateLabel typeError creds _ s) as [[e|result] s1]; [now eexists|].
    destruct (negb (LabelResult.success result)
              || negb (truthy (LabelResult.labelData result))); [now eexists|].
    unfold bind, dateNow, liftOutcome.
    destruct (uploadLabel _ _); now eexists.
  - rewrite generateAndUploadLabel_state.
    apply (generateLabel_trace
             (JObj [("shipmentId", shipmentId); ("labelFormat", JStr labelFormat)]) s).
Qed.
End Upload.
End LabelProperties.

(** ** Letter case *)

Section LetterCase.

Lemma upper_of_lower_char (c : ascii) :
  (if isLower (if isUpper c then charOf (codeOf c + 32) else c)
   then charOf (codeOf (if isUpper c then charOf (codeOf c + 32) else c) - 32)
   else (if isUpper c then charOf (codeOf c + 32) else c))
  = (if isLower c then charOf (codeOf c - 32) else c).
Proof. destruct c as [[] [] [] [] [] [] [] []]; reflexivity. Qed.

Lemma upper_of_upper_char (c : ascii) :
  (if isLower (if isLower c then charOf (codeOf c - 32) else c)
   then charOf (codeOf (if isLower c then charOf (codeOf c - 32) else c) - 32)
   else (if isLower c then charOf (codeOf c - 32) else c))
  = (if isLower c then charOf (codeOf c - 32) else c).
Proof. destruct c as [[] [] [] [] [] [] [] []]; reflexivity. Qed.

Lemma lower_of_upper_char (c : ascii) :
  (if isUpper (if isLower c then charOf (codeOf c - 32) else c)
   then charOf (codeOf (if isLower c then charOf (codeOf c - 32) else c) + 32)
   else (if isLower c then charOf (codeOf c - 32) else c))
  = (if isUpper c then charOf (codeOf c + 32) else c).
Proof. destruct c as [[] [] [] [] [] [] [] []]; reflexivity. Qed.

Lemma isSpace_lower_char (c : ascii) :
  isSpace (if isUpper c then charOf (codeOf c + 32) else c) = isSpace c.
Proof. destruct c as [[] [] [] [] [] [] [] []]; reflexivity. Qed.

Lemma asciiUpperCase_lower (s : string) :
  asciiUpperCase (asciiLowerCase s) = asciiUpperCase s.
Proof.
  induction s as [|c s IH]; [reflexivity|].
  unfold asciiUpperCase, asciiLowerCase in *. cbn [mapString].
  now rewrite upper_of_lower_char, IH.
Qed.

Lemma asciiUpperCase_idempotent (s : string) :
  asciiUpperCase (asciiUpperCase s) = asciiUpperCase s.
Proof.
  induction s as [|c s IH]; [reflexivity|].
  unfold asciiUpperCase in *. cbn [mapString].
  now rewrite upper_of_upper_char, IH.
Qed.

Lemma asciiLowerCase_upper (s : string) :
  asciiLowerCase (asciiUpperCase s) = asciiLowerCase s.
Proof.
  induction s as [|c s IH]; [reflexivity|].
  unfold asciiUpperCase, asciiLowerCase in *. cbn [mapString].
  now rewrite lower_of_upper_char, IH.
Qed.

Lemma asciiRemoveSpaces_lower (s : string) :
  asciiRemoveSpaces (asciiLowerCase s) = asciiLowerCase (asciiRemoveSpaces s).
Proof.
  induction s as [|c s IH]; [reflexivity|].
  unfold asciiLowerCase in *. cbn [mapString asciiRemoveSpaces].
  rewrite isSpace_lower_char. destruct (isSpace c); [exact IH|].
  cbn [mapString]. now rewrite IH.
Qed.

Lemma asciiRemoveSpaces_append (a b : string) :
  asciiRemoveSpaces (a +:+ b) = asciiRemoveSpaces a +:+ asciiRemoveSpaces b.
Proof.
  induction a as [|c a IH]; [reflexivity|].
  change (String c a +:+ b) with (String c (a +:+ b)). cbn [asciiRemoveSpaces].
  destruct (isSpace c); [exact IH|].
  change (String c (asciiRemoveSpaces a) +:+ asciiRemoveSpaces b)
    with (String c (asciiRemoveSpaces a +:+ asciiRemoveSpaces b)).
  now rewrite IH.
Qed.
End LetterCase.

(** ** Statuses and tracking *)

Section StatusMapping.

Lemma statusOf_range key :
  In (strOr (default "" (statusOf key statusMap)) "created") internalStatuses.
Proof.
  unfold statusMap, internalStatuses. cbn [statusOf].
  repeat (match goal with
          | |- context [String.eqb key ?k] => destruct (String.eqb key k)
          end; [cbn; tauto|]).
  cbn. tauto.
Qed.

Lemma statusOf_found key name status :
  In (name, status) statusMap -> key = name -> statusOf key statusMap = Some status.
Proof.
  intros Hin ->. unfold statusMap in *. cbn in Hin.
  repeat (destruct Hin as [[= <- <-] | Hin]; [reflexivity|]). destruct Hin.
Qed.

Lemma statusOf_missing key (m : list (string * string)) :
  (forall name status, In (name, status) m -> key <> name) -> statusOf key m = None.
Proof.
  induction m as [|[k v] m IH]; intros Hno; [reflexivity|]. cbn [statusOf].
  destruct (String.eqb key k) eqn:Hk.
  - apply String.eqb_eq in Hk. exfalso. apply (Hno k v); [now left|exact Hk].
  - apply IH. intros name status Hin. apply (Hno name status). now right.
Qed.

(** X17.  Whatever the engine's [toUpperCase] gives, [mapDPDStatus] gives
    one of the eight internal statuses: the status a name of DPD stands
    for when the text in upper case is that name, and "created" when it is
    none of the eight names.  On ASCII text the letter case of the text
    does not matter. *)
Theorem status_mapping `{Strings} (dpdStatus : string) :
  In (mapDPDStatus dpdStatus) internalStatuses
  /\ (forall name status,
        In (name, status) statusMap -> toUpperCase dpdStatus = name ->
        mapDPDStatus dpdStatus = status)
  /\ ((forall name status, In (name, status) statusMap -> toUpperCase dpdStatus <> name) ->
      mapDPDStatus dpdStatus = "created")
  /\ @mapDPDStatus asciiStrings (asciiLowerCase dpdStatus)
     = @mapDPDStatus asciiStrings dpdStatus
  /\ @mapDPDStatus asciiStrings (asciiUpperCase dpdStatus)
     = @mapDPDStatus asciiStrings dpdStatus.
Proof.
  split; [apply statusOf_range|]. split; [|split; [|split]].
  - intros name status Hin Hname. unfold mapDPDStatus.
    rewrite (statusOf_found _ name status Hin Hname). cbn [default].
    unfold statusMap in Hin. cbn in Hin.
    repeat (destruct Hin as [[= <- <-] | Hin]; [reflexivity|]). destruct Hin.
  - intros Hno. unfold mapDPDStatus. now rewrite (statusOf_missing _ _ Hno).
  - unfold mapDPDStatus. cbn [toUpperCase asciiStrings].
    now rewrite asciiUpperCase_lower.
  - unfold mapDPDStatus. cbn [toUpperCase asciiStrings].
    now rewrite asciiUpperCase_idempotent.
Qed.
End StatusMapping.

Section TrackingProperties.
Context `{Runtime} `{Strings}.
Variable typeError : string -> string.
Variable toISOString : jsval -> Outcome string.
Variable creds : DPDCredentials.

Lemma mapStatusOf_range v status :
  mapStatusOf typeError v = Returned status -> In status internalStatuses.
Proof.
  destruct v as [[| | |text| |]|]; try discriminate.
  intros [= <-]. apply statusOf_range.
Qed.

Lemma mapEvents_spec events : forall updates,
  mapEvents typeError toISOString events = Returned updates ->
  length updates = length events
  /\ Forall (fun u => In (updateStatus u) internalStatuses) updates.
Proof.
  induction events as [|event events IH]; intros updates.
  - intros [= <-]. split; [reflexivity|constructor].
  - cbn [mapEvents].
    assert (forall rest,
              obind (mapStatusOf typeError (field "status" (Some event))) (fun status =>
              obind (toISOString (field "timestamp" (Some event))) (fun timestamp =>
              obind (mapEvents typeError toISOString events) (fun updates =>
              Returned (mkUpdate status timestamp (field "message" (Some event))
                          (field "location" (Some event)) :: updates))))
              = Returned rest ->
              length rest = length (event :: events)
              /\ Forall (fun u => In (updateStatus u) internalStatuses) rest) as Hstep.
    { intros rest.
      destruct (mapStatusOf typeError (field "status" (Some event))) as [e|status] eqn:Hs;
        [discriminate|].
      destruct (toISOString (field "timestamp" (Some event))) as [e|timestamp];
        [discriminate|].
      destruct (mapEvents typeError toISOString events) as [e|tail]; [discriminate|].
      intros [= <-]. destruct (IH tail eq_refl) as [Hlen Hall].
      split; [cbn; now rewrite Hlen|].
      constructor; [|exact Hall]. cbn. now apply (mapStatusOf_range _ _ Hs). }
    destruct event; try apply Hstep. discriminate.
Qed.

Lemma readTracking_spec response result :
  readTracking typeError toISOString response = Returned result ->
  if TrackResult.success result
  then TrackResult.error result = None
       /\ (exists status, TrackResult.status result = Some status
                          /\ In status internalStatuses)
       /\ (forall updates, TrackResult.statusHistory result = Some updates ->
             Forall (fun u => In (updateStatus u) internalStatuses) updates
             /\ exists events,
                  field "history" (field "data" (Some (payloadValue response)))
                  = Some (JArr events)
                  /\ length updates = length events)
  else result = trackFailure "No tracking data available".
Proof.
  assert (forall data,
            (if negb (truthy data)
             then Returned (trackFailure "No tracking data available")
             else
               obind (mapStatusOf typeError (field "status" data ??? Some (JStr "UNKNOWN")))
                 (fun status =>
               obind (if truthy (field "history" data)
                      then match field "history" data with
                           | Some (JArr events) =>
                               obind (mapEvents typeError toISOString events)
                                     (fun updates => Returned (Some updates))
                           | _ => Raised (typeError "response.data.history.map")
                           end
                      else Returned None) (fun statusHistory =>
               Returned (TrackResult.mk true (Some status) statusHistory
                           (field "estimatedDelivery" data) (field "actualDelivery" data)
                           None)))) = Returned result ->
            if TrackResult.success result
            then TrackResult.error result = None
                 /\ (exists status, TrackResult.status result = Some status
                                    /\ In status internalStatuses)
                 /\ (forall updates, TrackResult.statusHistory result = Some updates ->
                       Forall (fun u => In (updateStatus u) internalStatuses) updates
                       /\ exists events,
                            field "history" data = Some (JArr events)
                            /\ length updates = length events)
            else result = trackFailure "No tracking data available") as Hbody.
  { intros data. destruct (negb (truthy data)); [now intros [= <-]|].
    destruct (mapStatusOf typeError _) as [e|status] eqn:Hstatus; [discriminate|].
    cbn [obind].
    destruct (truthy (field "history" data)).
    - destruct (field "history" data) as [[| | | |events|]|]; try discriminate.
      destruct (mapEvents typeError toISOString events) as [e|updates] eqn:Hevents;
        [discriminate|].
      intros [= <-]. cbn. split; [reflexivity|]. split.
      + exists status. split; [reflexivity|]. now apply (mapStatusOf_range _ _ Hstatus).
      + intros updates' [= <-]. destruct (mapEvents_spec events updates Hevents).
        split; [assumption|]. now exists events.
    - intros [= <-]. cbn. split; [reflexivity|]. split.
      + exists status. split; [reflexivity|]. now apply (mapStatusOf_range _ _ Hstatus).
      + discriminate. }
  unfold readTracking. destruct response as [v|text]; [|apply Hbody].
  destruct v; try apply Hbody. discriminate.
Qed.

Lemma trackShipment_run (params : json) s :
  params <> JNull ->
  trackShipment typeError toISOString creds params s
  = match authenticatedRequest creds (trackShipmentOptions params) s with
    | (Raised e, s') => (Returned (trackFailure e), s')
    | (Returned response, s') =>
        (match readTracking typeError toISOString response with
         | Raised e => Returned (trackFailure e)
         | Returned result => Returned result
         end, s')
    end.
Proof.
  intros Hparams. unfold trackShipment, tryCatch, bind, liftOutcome, ret.
  destruct params; try contradiction;
    (destruct (authenticatedRequest creds _ s) as [[e|response] s']; [reflexivity|];
     now destruct (readTracking typeError toISOString response)).
Qed.

(** X18.  [trackShipment] never throws and makes at most three business
    calls.  A result with [success: true] has one of the eight internal
    statuses, and so has every entry of its history; a result with
    [success: false] has an error message and neither status nor
    history. *)
Theorem trackShipment_result (params : json) s :
  let run := trackShipment typeError toISOString creds params s in
  exists result,
    fst run = Returned result
    /\ (apiCalls s <= apiCalls (snd run) <= apiCalls s + 3)%nat
    /\ (TrackResult.success result = true ->
        TrackResult.error result = None
        /\ (exists status, TrackResult.status result = Some status
                           /\ In status internalStatuses)
        /\ (forall updates, TrackResult.statusHistory result = Some updates ->
              Forall (fun u => In (updateStatus u) internalStatuses) updates))
    /\ (TrackResult.success result = false ->
        TrackResult.status result = None
        /\ TrackResult.statusHistory result = None
        /\ exists e, TrackResult.error result = Some e).
Proof.
  cbv zeta. destruct (isNull_or_not params) as [->|Hparams].
  { exists (trackFailure (typeError "params")).
    cbn. repeat split; try discriminate; try lia; eauto. }
  rewrite (trackShipment_run params s Hparams).
  pose proof (requestLoop_counters creds (trackShipmentOptions params) 3 0 None s)
    as [_ Hcalls].
  change (requestLoop creds ?o 3 0 None s) with (authenticatedRequest creds o s) in Hcalls.
  destruct (authenticatedRequest creds _ s) as [[e|response] s']; cbn [fst snd] in *.
  - exists (trackFailure e). repeat split; try discriminate; try lia; eauto.
  - destruct (readTracking typeError toISOString response) as [e|result] eqn:Hread.
    + exists (trackFailure e). repeat split; try discriminate; try lia; eauto.
    + exists result. apply readTracking_spec in Hread.
      destruct (TrackResult.success result).
      * destruct Hread as (Herror & Hstatus & Hhistory).
        repeat split; try discriminate; try lia; try assumption.
        intros updates Hupdates. now apply Hhistory.
      * subst result. repeat split; try discriminate; try lia; eauto.
Qed.
End TrackingProperties.

(** ** Shipments *)

Section ShipmentProperties.
Context `{Runtime}.
Variable typeError : string -> string.
Variable ShipmentParams : Type.
Variable shipmentRequest : ShipmentParams -> Z -> Outcome json.
Variable creds : DPDCredentials.

Lemma readShipment_spec response result :
  readShipment typeError response = Returned result ->
  if ShipmentResult.success result
  then truthy (ShipmentResult.shipmentId result) = true
       /\ truthy (ShipmentResult.consignmentNumber result) = true
       /\ truthy (ShipmentResult.parcelNumber result) = true
       /\ ShipmentResult.trackingUrl result
          = Some (getTrackingUrl (valueOr (ShipmentResult.parcelNumber result) JNull))
       /\ ShipmentResult.error result = None
       /\ ShipmentResult.errorCode result = None
  else exists missing,
         result = shipmentFailure ("Missing required data: " +:+ missing)
                                  "INCOMPLETE_RESPONSE"
         /\ (missing = "shipmentId" \/ missing = "consignmentNumber"
             \/ missing = "parcelNumber").
Proof.
  unfold readShipment.
  set (responseData := field "data" (Some (payloadValue response))).
  set (shipmentId := field "shipmentId" responseData).
  set (consignmentNumber :=
         field "consignmentNumber" (elementAt0 (field "consignment" responseData))
         |?| field "consignmentNumber"
               (elementAt0 (field "consignmentDetail" responseData))).
  set (parcelNumber :=
         elementAt0
           (field "parcelNumbers" (elementAt0 (field "consignment" responseData))
            |?| field "parcelNumbers"
                  (elementAt0 (field "consignmentDetail" responseData)))).
  assert ((if negb (truthy consignmentNumber) || negb (truthy shipmentId)
              || negb (truthy parcelNumber)
           then Returned (shipmentFailure
                            ("Missing required data: "
                             +:+ (if negb (truthy shipmentId) then "shipmentId"
                                  else if negb (truthy consignmentNumber)
                                       then "consignmentNumber"
                                       else "parcelNumber"))
                            "INCOMPLETE_RESPONSE")
           else Returned (ShipmentResult.mk true shipmentId consignmentNumber parcelNumber
                            (Some (getTrackingUrl (valueOr parcelNumber JNull)))
                            None None)) = Returned result ->
          if ShipmentResult.success result
          then truthy (ShipmentResult.shipmentId result) = true
               /\ truthy (ShipmentResult.consignmentNumber result) = true
               /\ truthy (ShipmentResult.parcelNumber result) = true
               /\ ShipmentResult.trackingUrl result
                  = Some (getTrackingUrl
                            (valueOr (ShipmentResult.parcelNumber result) JNull))
               /\ ShipmentResult.error result = None
               /\ ShipmentResult.errorCode result = None
          else exists missing,
                 result = shipmentFailure ("Missing required data: " +:+ missing)
                                          "INCOMPLETE_RESPONSE"
                 /\ (missing = "shipmentId" \/ missing = "consignmentNumber"
                     \/ missing = "parcelNumber")) as Hbody.
  { destruct (truthy consignmentNumber) eqn:Hc, (truthy shipmentId) eqn:Hs,
             (truthy parcelNumber) eqn:Hp; cbn [negb orb];
      intros [= <-]; cbn [ShipmentResult.success shipmentFailure];
      try (eexists; split; [reflexivity|tauto]).
    cbn. now rewrite Hc, Hs, Hp. }
  destruct response as [v|text]; [|exact Hbody].
  destruct v; try exact Hbody. discriminate.
Qed.

Lemma createShipment_run params s :
  createShipment typeError ShipmentParams shipmentRequest creds params s
  = match shipmentRequest params (clock s) with
    | Raised e => (Returned (shipmentFailure e "SHIPMENT_CREATION_FAILED"), s)
    | Returned body =>
        match authenticatedRequest creds
                (mkOptions "POST" DPD_ENDPOINTS.SHIPMENT (Some body) None None None) s with
        | (Raised e, s') => (Returned (shipmentFailure e "SHIPMENT_CREATION_FAILED"), s')
        | (Returned response, s') =>
            (match readShipment typeError response with
             | Raised e => Returned (shipmentFailure e "SHIPMENT_CREATION_FAILED")
             | Returned result => Returned result
             end, s')
        end
    end.
Proof.
  unfold createShipment, tryCatch, bind, liftOutcome, ret, dateNow.
  destruct (shipmentRequest params (clock s)) as [e|body]; [reflexivity|].
  destruct (authenticatedRequest creds _ s) as [[e|response] s']; [reflexivity|].
  now destruct (readShipment typeError response).
Qed.

(** X19.  [createShipment] never throws and never reports a shipment
    short of an identifier.  A result with [success: true] has a shipment
    identifier, a consignment number and a parcel number that are all
    truthy, and the tracking URL of that parcel number; a result with
    [success: false] has none of them, an error message, and the code
    "INCOMPLETE_RESPONSE" or "SHIPMENT_CREATION_FAILED".  When the request
    body cannot be built, nothing is sent. *)
Theorem createShipment_result params s :
  let run := createShipment typeError ShipmentParams shipmentRequest creds params s in
  exists result,
    fst run = Returned result
    /\ (ShipmentResult.success result = true ->
        truthy (ShipmentResult.shipmentId result) = true
        /\ truthy (ShipmentResult.consignmentNumber result) = true
        /\ truthy (ShipmentResult.parcelNumber result) = true
        /\ ShipmentResult.trackingUrl result
           = Some (getTrackingUrl (valueOr (ShipmentResult.parcelNumber result) JNull))
        /\ ShipmentResult.error result = None
        /\ ShipmentResult.errorCode result = None)
    /\ (ShipmentResult.success result = false ->
        ShipmentResult.shipmentId result = None
        /\ ShipmentResult.consignmentNumber result = None
        /\ ShipmentResult.parcelNumber result = None
        /\ ShipmentResult.trackingUrl result = None
        /\ (exists e, ShipmentResult.error result = Some e)
        /\ (ShipmentResult.errorCode result = Some "INCOMPLETE_RESPONSE"
            \/ ShipmentResult.errorCode result = Some "SHIPMENT_CREATION_FAILED"))
    /\ (forall e, shipmentRequest params (clock s) = Raised e ->
                  run = (Returned (shipmentFailure e "SHIPMENT_CREATION_FAILED"), s)).
Proof.
  cbv zeta. rewrite createShipment_run.
  assert (forall e code,
             code = "INCOMPLETE_RESPONSE" \/ code = "SHIPMENT_CREATION_FAILED" ->
             (ShipmentResult.success (shipmentFailure e code) = true ->
              truthy (ShipmentResult.shipmentId (shipmentFailure e code)) = true
              /\ truthy (ShipmentResult.consignmentNumber (shipmentFailure e code)) = true
              /\ truthy (ShipmentResult.parcelNumber (shipmentFailure e code)) = true
              /\ ShipmentResult.trackingUrl (shipmentFailure e code)
                 = Some (getTrackingUrl
                           (valueOr (ShipmentResult.parcelNumber (shipmentFailure e code))
                                    JNull))
              /\ ShipmentResult.error (shipmentFailure e code) = None
              /\ ShipmentResult.errorCode (shipmentFailure e code) = None)
             /\ (ShipmentResult.success (shipmentFailure e code) = false ->
                 ShipmentResult.shipmentId (shipmentFailure e code) = None
                 /\ ShipmentResult.consignmentNumber (shipmentFailure e code) = None
                 /\ ShipmentResult.parcelNumber (shipmentFailure e code) = None
                 /\ ShipmentResult.trackingUrl (shipmentFailure e code) = None
                 /\ (exists e', ShipmentResult.error (shipmentFailure e code) = Some e')
                 /\ (ShipmentResult.errorCode (shipmentFailure e code)
                     = Some "INCOMPLETE_RESPONSE"
                     \/ ShipmentResult.errorCode (shipmentFailure e code)
                        = Some "SHIPMENT_CREATION_FAILED"))) as Hfailure.
  { intros e code Hcode. split; [discriminate|]. intros _. cbn.
    repeat split; eauto. destruct Hcode as [-> | ->]; tauto. }
  destruct (shipmentRequest params (clock s)) as [e|body].
  { exists (shipmentFailure e "SHIPMENT_CREATION_FAILED").
    split; [reflexivity|].
    destruct (Hfailure e "SHIPMENT_CREATION_FAILED") as [Hyes Hno]; [tauto|].
    split; [exact Hyes|]. split; [exact Hno|]. now intros e' [= <-]. }
  destruct (authenticatedRequest creds _ s) as [[e|response] s'].
  { exists (shipmentFailure e "SHIPMENT_CREATION_FAILED").
    split; [reflexivity|].
    destruct (Hfailure e "SHIPMENT_CREATION_FAILED") as [Hyes Hno]; [tauto|].
    split; [exact Hyes|]. split; [exact Hno|]. discriminate. }
  destruct (readShipment typeError response) as [e|result] eqn:Hread.
  { exists (shipmentFailure e "SHIPMENT_CREATION_FAILED").
    split; [reflexivity|].
    destruct (Hfailure e "SHIPMENT_CREATION_FAILED") as [Hyes Hno]; [tauto|].
    split; [exact Hyes|]. split; [exact Hno|]. discriminate. }
  exists result. split; [reflexivity|]. apply readShipment_spec in Hread.
  destruct (ShipmentResult.success result).
  - split; [intros _; exact Hread|]. split; discriminate.
  - destruct Hread as (missing & -> & _).
    destruct (Hfailure ("Missing required data: " +:+ missing) "INCOMPLETE_RESPONSE")
      as [Hyes Hno]; [tauto|].
    split; [exact Hyes|]. split; [exact Hno|]. discriminate.
Qed.

Lemma createShipment_returns params s :
  exists result s',
    createShipment typeError ShipmentParams shipmentRequest creds params s
    = (Returned result, s')
    /\ if ShipmentResult.success result
       then truthy (ShipmentResult.shipmentId result) = true
            /\ truthy (ShipmentResult.consignmentNumber result) = true
            /\ truthy (ShipmentResult.parcelNumber result) = true
            /\ ShipmentResult.error result = None
            /\ ShipmentResult.errorCode result = None
       else exists e code,
              result = shipmentFailure e code
              /\ (code = "INCOMPLETE_RESPONSE" \/ code = "SHIPMENT_CREATION_FAILED").
Proof.
  rewrite createShipment_run.
  destruct (shipmentRequest params (clock s)) as [e|body].
  { do 2 eexists. split; [reflexivity|]. cbn. eauto. }
  destruct (authenticatedRequest creds _ s) as [[e|response] s'].
  { do 2 eexists. split; [reflexivity|]. cbn. eauto. }
  destruct (readShipment typeError response) as [e|result] eqn:Hread.
  { do 2 eexists. split; [reflexivity|]. cbn. eauto. }
  exists result, s'. split; [reflexivity|]. apply readShipment_spec in Hread.
  destruct (ShipmentResult.success result).
  - tauto.
  - destruct Hread as (missing & -> & _). eauto.
Qed.

(** X20.  For a weight that is a whole number of kilograms,
    [calculateParcels] gives at least one parcel, zero and negative
    weights included, enough parcels of 30 kg to carry the weight, and
    not one more than needed. *)
Theorem calculateParcels_bounds (totalWeight : Z) :
  1 <= calculateParcels totalWeight
  /\ totalWeight <= 30 * calculateParcels totalWeight
  /\ (30 < totalWeight -> 30 * (calculateParcels totalWeight - 1) < totalWeight)
  /\ (totalWeight <= 30 -> calculateParcels totalWeight = 1).
Proof.
  unfold calculateParcels. destruct (totalWeight <=? 30) eqn:Hle.
  - repeat split; lia.
  - pose proof (Z.div_mod (- totalWeight) 30 ltac:(lia)) as Hdiv.
    pose proof (Z.mod_pos_bound (- totalWeight) 30 ltac:(lia)) as Hmod.
    repeat split; lia.
Qed.
End ShipmentProperties.

Section CompleteShipment.
Context `{Runtime}.
Variable typeError : string -> string.
Variable uploadLabel : json -> string -> Outcome string.
Variable ShipmentParams : Type.
Variable shipmentRequest : ShipmentParams -> Z -> Outcome json.
Variable shippingData : ShipmentParams -> ShipmentResult.t -> string -> Z -> Outcome json.
Variable updateOrder : ShipmentParams -> json -> Outcome unit.
Variable creds : DPDCredentials.

(** X21.  [createCompleteShipment] never throws.  A result with
    [success: false] has an error message, no label URL and one of the
    codes "INCOMPLETE_RESPONSE", "SHIPMENT_CREATION_FAILED" and
    "COMPLETE_SHIPMENT_FAILED".  A result with [success: true] and no
    error has the URL of the label, which is not empty, and the
    consignment number, but neither the shipment identifier nor the
    parcel number.  A result with [success: true] can carry an error:
    when the label cannot be made or stored, the result of the shipment is
    returned with its three identifiers, without a label URL, under the
    message "Shipment created but label generation failed: ...". *)
Theorem complete_shipment_result (params : ShipmentParams) (labelFormat : string) s :
  let run := createCompleteShipment typeError uploadLabel ShipmentParams shipmentRequest
               shippingData updateOrder params labelFormat creds s in
  exists result,
    fst run = Returned result
    /\ (ShipmentResult.success (CompleteResult.shipment result) = false ->
        CompleteResult.labelUrl result = None
        /\ (exists e, ShipmentResult.error (CompleteResult.shipment result) = Some e)
        /\ (exists code,
              ShipmentResult.errorCode (CompleteResult.shipment result) = Some code
              /\ In code ["INCOMPLETE_RESPONSE"; "SHIPMENT_CREATION_FAILED";
                          "COMPLETE_SHIPMENT_FAILED"]))
    /\ (ShipmentResult.success (CompleteResult.shipment result) = true ->
        ShipmentResult.error (CompleteResult.shipment result) = None ->
        (exists url, CompleteResult.labelUrl result = Some url /\ url <> "")
        /\ truthy (ShipmentResult.consignmentNumber (CompleteResult.shipment result))
           = true
        /\ ShipmentResult.shipmentId (CompleteResult.shipment result) = None
        /\ ShipmentResult.parcelNumber (CompleteResult.shipment result) = None)
    /\ (ShipmentResult.success (CompleteResult.shipment result) = true ->
        forall e,
          ShipmentResult.error (CompleteResult.shipment result) = Some e ->
          CompleteResult.labelUrl result = None
          /\ truthy (ShipmentResult.shipmentId (CompleteResult.shipment result)) = true
          /\ truthy (ShipmentResult.consignmentNumber (CompleteResult.shipment result))
             = true
          /\ truthy (ShipmentResult.parcelNumber (CompleteResult.shipment result)) = true
          /\ exists why, e = "Shipment created but label generation failed: " +:+ why).
Proof.
  cbv zeta. unfold createCompleteShipment, tryCatch, bind at 1.
  destruct (createShipment_returns typeError ShipmentParams shipmentRequest creds params s)
    as (shipmentResult & s1 & -> & Hshape).
  assert (forall e code,
            In code ["INCOMPLETE_RESPONSE"; "SHIPMENT_CREATION_FAILED";
                     "COMPLETE_SHIPMENT_FAILED"] ->
            exists result,
              Returned (CompleteResult.mk (shipmentFailure e code) None) = Returned result
              /\ (ShipmentResult.success (CompleteResult.shipment result) = false ->
                  CompleteResult.labelUrl result = None
                  /\ (exists e', ShipmentResult.error (CompleteResult.shipment result)
                                 = Some e')
                  /\ (exists code',
                        ShipmentResult.errorCode (CompleteResult.shipment result)
                        = Some code'
                        /\ In code' ["INCOMPLETE_RESPONSE"; "SHIPMENT_CREATION_FAILED";
                                     "COMPLETE_SHIPMENT_FAILED"]))
              /\ (ShipmentResult.success (CompleteResult.shipment result) = true ->
                  ShipmentResult.error (CompleteResult.shipment result) = None ->
                  (exists url, CompleteResult.labelUrl result = Some url /\ url <> "")
                  /\ truthy (ShipmentResult.consignmentNumber
                               (CompleteResult.shipment result)) = true
                  /\ ShipmentResult.shipmentId (CompleteResult.shipment result) = None
                  /\ ShipmentResult.parcelNumber (CompleteResult.shipment result) = None)
              /\ (ShipmentResult.success (CompleteResult.shipment result) = true ->
                  forall e',
                    ShipmentResult.error (CompleteResult.shipment result) = Some e' ->
                    CompleteResult.labelUrl result = None
                    /\ truthy (ShipmentResult.shipmentId
                                 (CompleteResult.shipment result)) = true
                    /\ truthy (ShipmentResult.consignmentNumber
                                 (CompleteResult.shipment result)) = true
                    /\ truthy (ShipmentResult.parcelNumber
                                 (CompleteResult.shipment result)) = true
                    /\ exists why,
                         e' = "Shipment created but label generation failed: " +:+ why))
    as Hfailure.
  { intros e code Hcode. eexists. split; [reflexivity|]. cbn [CompleteResult.shipment
      CompleteResult.labelUrl shipmentFailure ShipmentResult.success
      ShipmentResult.error ShipmentResult.errorCode].
    split; [|split; discriminate].
    intros _. split; [reflexivity|]. split; [now exists e|]. now exists code. }
  destruct (ShipmentResult.success shipmentResult) eqn:Hsuccess.
  - destruct Hshape as (Hid & Hcn & Hpn & Herror & Hcode).
    rewrite Hid, Hcn, Hpn. cbn [negb orb].
    unfold bind at 1.
    destruct (generateAndUploadLabel typeError uploadLabel _ labelFormat creds s1)
      as [[e|labelResult] s2].
    { cbn [fst]. apply Hfailure. cbn. tauto. }
    destruct (negb (LabelResult.success labelResult)
              || negb (nonEmpty (LabelResult.labelUrl labelResult))) eqn:Hlabel.
    + eexists. split; [reflexivity|].
      cbn [CompleteResult.shipment CompleteResult.labelUrl withError
           ShipmentResult.success ShipmentResult.error ShipmentResult.errorCode
           ShipmentResult.shipmentId ShipmentResult.consignmentNumber
           ShipmentResult.parcelNumber].
      split; [rewrite Hsuccess; discriminate|]. split; [discriminate|].
      intros _ e [= <-]. split; [reflexivity|]. rewrite Hid, Hcn, Hpn.
      repeat split. eauto.
    + apply orb_false_iff in Hlabel as [_ Hurl]. apply negb_false_iff in Hurl.
      unfold bind, dateNow, liftOutcome.
      destruct (shippingData params shipmentResult _ (clock s2)) as [e|data].
      { cbn [fst]. apply Hfailure. cbn. tauto. }
      unfold tryCatch, throw. destruct (updateOrder params data) as [e|[]].
      { cbn [fst]. apply Hfailure. cbn. tauto. }
      eexists. split; [reflexivity|].
      cbn [CompleteResult.shipment CompleteResult.labelUrl
           ShipmentResult.success ShipmentResult.error ShipmentResult.errorCode
           ShipmentResult.shipmentId ShipmentResult.consignmentNumber
           ShipmentResult.parcelNumber].
      split; [discriminate|]. split; [|discriminate].
      intros _ _. split; [|now rewrite Hcn].
      destruct (LabelResult.labelUrl labelResult) as [url|]; [|discriminate].
      exists url. split; [reflexivity|]. intros ->. discriminate.
  - destruct Hshape as (e & code & -> & Hcode). cbn [negb orb ShipmentResult.success
      shipmentFailure]. cbn [fst ret].
    apply Hfailure. destruct Hcode as [-> | ->]; cbn; tauto.
Qed.
End CompleteShipment.

(** ** The cache seen by the callers *)

Section CacheCallers.
Context `{Runtime}.
Variable creds : DPDCredentials.

Lemma hasValidToken_getGeoSession s :
  (fst (hasValidToken s) = Returned true ->
   exists token,
     geoSession (store s) = Some token /\ token <> ""
     /\ getGeoSession creds false s = (Returned token, s))
  /\ (fst (hasValidToken s) = Returned false ->
      getGeoSession creds false s = authenticate creds s).
Proof.
  split.
  - unfold hasValidToken, getGeoSession, bind, getStore, dateNow, ret. cbn [fst negb andb].
    intros [= Hvalid]. rewrite Hvalid.
    unfold cacheValid in Hvalid. apply andb_true_iff in Hvalid as [Htoken _].
    destruct (geoSession (store s)) as [token|]; [|discriminate].
    exists token. split; [reflexivity|]. split; [|reflexivity].
    intros ->. discriminate.
  - unfold hasValidToken, getGeoSession, bind, getStore, dateNow, ret. cbn [fst negb andb].
    now intros [= ->].
Qed.

(** X22.  [hasValidToken] tells what [getGeoSession] will do: when it
    answers [true], [getGeoSession] hands back the cached token, which is
    not empty, with no network call; when it answers [false],
    [getGeoSession] logs in.  It changes nothing itself, and right after
    [clearGeoSession] it answers [false] and [getTokenExpiry] gives
    [null]. *)
Theorem hasValidToken_agrees s :
  snd (hasValidToken s) = s
  /\ (fst (hasValidToken s) = Returned true ->
      exists token,
        geoSession (store s) = Some token /\ token <> ""
        /\ getGeoSession creds false s = (Returned token, s))
  /\ (fst (hasValidToken s) = Returned false ->
      getGeoSession creds false s = authenticate creds s)
  /\ fst (hasValidToken (cleared s)) = Returned false
  /\ fst (getTokenExpiry (cleared s)) = Returned None.
Proof.
  destruct (hasValidToken_getGeoSession s) as [Hyes Hno].
  split; [reflexivity|]. split; [exact Hyes|]. split; [exact Hno|].
  split; reflexivity.
Qed.

(** X23.  [getAuthStatus] never throws and never makes a business call.
    With a valid token in the cache it reports [authenticated: true]
    without any network call; otherwise it logs in once, and reports
    [authenticated: false] when the login fails.  The expiry it reports
    is never a date: it is [null], or absent after a failure. *)
Theorem getAuthStatus_report s :
  exists report,
    fst (getAuthStatus creds s) = Returned report
    /\ apiCalls (snd (getAuthStatus creds s)) = apiCalls s
    /\ (forall date, AuthStatus.expiresAt report <> Some (Some date))
    /\ (fst (hasValidToken s) = Returned true ->
        getAuthStatus creds s = (Returned (AuthStatus.mk true (Some None)), s))
    /\ (fst (hasValidToken s) = Returned false ->
        authCalls (snd (getAuthStatus creds s)) = S (authCalls s)
        /\ (forall e, authAttempt (authCalls s) = Raised e ->
                      report = AuthStatus.mk false None)
        /\ (forall token, authAttempt (authCalls s) = Returned token -> token <> "" ->
                          report = AuthStatus.mk true (Some None))).
Proof.
  pose proof (getGeoSession_counters creds false s) as [_ Hapi].
  destruct (hasValidToken_getGeoSession s) as [Hyes Hno].
  unfold getAuthStatus, tryCatch, bind, ret.
  destruct (fst (hasValidToken s)) as [e|[|]] eqn:Hvalid.
  - discriminate.
  - destruct (Hyes eq_refl) as (token & _ & Hne & Hrun). rewrite Hrun.
    apply String.eqb_neq in Hne. rewrite Hne. cbn [negb fst snd].
    eexists. repeat split; try discriminate.
  - specialize (Hno eq_refl). rewrite Hno in *.
    pose proof (authenticate_counters creds s) as [Hauth _].
    destruct (authAttempt (authCalls s)) as [e|token] eqn:Hlogin.
    + rewrite (authenticate_failed creds s e Hlogin) in *. cbn [fst snd] in *.
      eexists. repeat split; try discriminate; try assumption.
    + rewrite (authenticate_ok creds s token Hlogin) in *. cbn [fst snd] in *.
      eexists. repeat split; try discriminate; try assumption.
      intros token' [= <-] Hne. apply String.eqb_neq in Hne. now rewrite Hne.
Qed.
End CacheCallers.


(** ** Address validation *)

Section AddressProperties.
Context `{Strings}.
Variable lookupNet : string -> LookupOutcome.
Variable encodeURIComponent : string -> string.
Variable typeError : string -> string.

Lemma judge_spec town data result :
  judge typeError town data = Returned result ->
  (serviceable result = true -> valid result = true)
  /\ (exists m, message result = Some m)
  /\ (valid result = true ->
      exists plain,
        judge typeError "" data = Returned plain
        /\ valid plain = true /\ serviceable plain = serviceable result).
Proof.
  unfold judge.
  set (result0 := field "result" (Some data)).
  set (served := match field "country" result0 with
                 | Some (JStr c) =>
                     String.eqb c "England" || String.eqb c "Wales"
                     || String.eqb c "Scotland"
                 | _ => false
                 end).
  set (returnedTown := field "admin_district" result0 |?| field "parish" result0
                       |?| Some (JStr "")).
  assert ((if negb (truthy result0) then Returned (invalid "Invalid postcode")
           else
             if String.eqb town "" then
               if negb true
               then Returned (mkResult true served
                                (Some ("Postcode valid but town mismatch. Expected: "
                                       +:+ template returnedTown)))
               else Returned (mkResult true served
                                (Some (if served
                                       then "Address is valid and serviceable by DPD"
                                       else "Address is valid but may not be serviceable by DPD ("
                                            +:+ template (field "country" result0)
                                            +:+ ")")))
             else
               match returnedTown with
               | Some (JStr t) =>
                   if negb (includes (toLowerCase t) (toLowerCase town)
                            || includes (toLowerCase town) (toLowerCase t))
                   then Returned (mkResult true served
                                    (Some ("Postcode valid but town mismatch. Expected: "
                                           +:+ template returnedTown)))
                   else Returned (mkResult true served
                                    (Some (if served
                                           then "Address is valid and serviceable by DPD"
                                           else "Address is valid but may not be serviceable by DPD ("
                                                +:+ template (field "country" result0)
                                                +:+ ")")))
               | _ => Raised (typeError "returnedTown.toLowerCase")
               end) = Returned result ->
          (serviceable result = true -> valid result = true)
          /\ (exists m, message result = Some m)
          /\ (valid result = true ->
              exists plain,
                (if negb (truthy result0) then Returned (invalid "Invalid postcode")
                 else Returned (mkResult true served
                                  (Some (if served
                                         then "Address is valid and serviceable by DPD"
                                         else "Address is valid but may not be serviceable by DPD ("
                                              +:+ template (field "country" result0)
                                              +:+ ")")))) = Returned plain
                /\ valid plain = true /\ serviceable plain = serviceable result))
    as Hbody.
  { destruct (negb (truthy result0)).
    - intros [= <-]. cbn. split; [discriminate|]. split; [eauto|discriminate].
    - destruct (String.eqb town "").
      + intros [= <-]. cbn. split; [reflexivity|]. split; [eauto|]. eauto.
      + destruct returnedTown as [[| | |t| |]|]; try discriminate.
        destruct (negb (includes (toLowerCase t) (toLowerCase town)
                        || includes (toLowerCase town) (toLowerCase t)));
          intros [= <-]; cbn; (split; [reflexivity|]); (split; [eauto|]); eauto. }
  destruct data; try exact Hbody. discriminate.
Qed.

Lemma validateAddress_run params calls :
  let cleanPostcode := toUpperCase (removeSpaces (postcode params)) in
  let url := "https://api.postcodes.io/postcodes/" +:+ encodeURIComponent cleanPostcode in
  validateAddress lookupNet encodeURIComponent typeError params calls
  = if negb (regexTest postcodeRegex cleanPostcode)
    then (Returned (invalid "Invalid UK postcode format"), calls)
    else
      (match lookupNet url with
       | LookupErr e => Returned (invalid e)
       | LookupResp response =>
           if negb (lookupOk response) then
             if lookupStatus response =? 404
             then Returned (invalid "Postcode not found in UK database")
             else Returned (invalid ("Postcode lookup failed: "
                                     +:+ lookupStatusText response))
           else
             match lookupJson response with
             | Raised e => Returned (invalid e)
             | Returned data =>
                 match judge typeError (town params) data with
                 | Raised e => Returned (invalid e)
                 | Returned result => Returned result
                 end
             end
       end, calls ++ [url]).
Proof.
  cbv zeta. unfold validateAddress, fetchLookup.
  destruct (negb (regexTest postcodeRegex _)); [reflexivity|].
  destruct (lookupNet _) as [e|response]; [reflexivity|].
  destruct (negb (lookupOk response)).
  - now destruct (lookupStatus response =? 404).
  - destruct (lookupJson response) as [e|data]; [reflexivity|].
    now destruct (judge typeError (town params) data).
Qed.

(** X24.  [validateAddress] never throws and looks the postcode up at most
    once; every result has a message, and an address is reported
    serviceable only if it is reported valid. *)
Theorem validateAddress_result params calls :
  let run := validateAddress lookupNet encodeURIComponent typeError params calls in
  exists result,
    fst run = Returned result
    /\ (serviceable result = true -> valid result = true)
    /\ (exists m, message result = Some m)
    /\ (snd run = calls
        \/ snd run
           = calls ++ ["https://api.postcodes.io/postcodes/"
                       +:+ encodeURIComponent
                             (toUpperCase (removeSpaces (postcode params)))]).
Proof.
  cbv zeta. rewrite validateAddress_run.
  assert (forall m, (serviceable (invalid m) = true -> valid (invalid m) = true)
                    /\ exists m', message (invalid m) = Some m') as Hinvalid
    by (intros m; split; [discriminate|now exists m]).
  destruct (negb (regexTest postcodeRegex _)).
  { eexists. split; [reflexivity|]. destruct (Hinvalid "Invalid UK postcode format").
    split; [assumption|]. split; [assumption|now left]. }
  cbn [fst snd].
  assert (forall result : ValidateAddressResult,
            (serviceable result = true -> valid result = true) ->
            (exists m, message result = Some m) ->
            exists result',
              Returned result = Returned result'
              /\ (serviceable result' = true -> valid result' = true)
              /\ (exists m, message result' = Some m)
              /\ (calls ++ ["https://api.postcodes.io/postcodes/"
                            +:+ encodeURIComponent
                                  (toUpperCase (removeSpaces (postcode params)))]
                  = calls
                  \/ calls ++ ["https://api.postcodes.io/postcodes/"
                               +:+ encodeURIComponent
                                     (toUpperCase (removeSpaces (postcode params)))]
                     = calls ++ ["https://api.postcodes.io/postcodes/"
                                 +:+ encodeURIComponent
                                       (toUpperCase (removeSpaces (postcode params)))]))
    as Hdone.
  { intros result Himp Hmsg. exists result. split; [reflexivity|].
    split; [exact Himp|]. split; [exact Hmsg|now right]. }
  destruct (lookupNet _) as [e|response].
  { apply Hdone; apply Hinvalid. }
  destruct (negb (lookupOk response)).
  { destruct (lookupStatus response =? 404); apply Hdone; apply Hinvalid. }
  destruct (lookupJson response) as [e|data].
  { apply Hdone; apply Hinvalid. }
  destruct (judge typeError (town params) data) as [e|result] eqn:Hjudge.
  { apply Hdone; apply Hinvalid. }
  destruct (judge_spec _ _ _ Hjudge) as (Himp & Hmsg & _).
  now apply Hdone.
Qed.

End AddressProperties.

(** ** Address validation on ASCII text *)

Section AsciiAddresses.
#[local] Existing Instance asciiStrings.
Variable lookupNet : string -> LookupOutcome.
Variable encodeURIComponent : string -> string.
Variable typeError : string -> string.

Lemma asciiUpperCase_empty (s : string) :
  String.eqb (asciiUpperCase s) "" = String.eqb s "".
Proof. now destruct s. Qed.

(** X25.  On ASCII text, where the engine's string functions are those of
    [asciiStrings], the letter case of the postcode and of the town and
    the white space in the postcode do not matter to [validateAddress]: a
    postcode in lower case, or with a space put anywhere in it, and a
    town in upper case give the same result and the same lookup. *)
Theorem validateAddress_normalises (code before after place : string)
    (calls : list string) :
  validateAddress lookupNet encodeURIComponent typeError
    (mkParams (toLowerCase code) place) calls
  = validateAddress lookupNet encodeURIComponent typeError (mkParams code place) calls
  /\ validateAddress lookupNet encodeURIComponent typeError
       (mkParams (before +:+ " " +:+ after) place) calls
     = validateAddress lookupNet encodeURIComponent typeError
         (mkParams (before +:+ after) place) calls
  /\ validateAddress lookupNet encodeURIComponent typeError
       (mkParams code (toUpperCase place)) calls
     = validateAddress lookupNet encodeURIComponent typeError (mkParams code place) calls.
Proof.
  split; [|split].
  - unfold validateAddress. cbn [postcode town].
    now rewrite asciiRemoveSpaces_lower, asciiUpperCase_lower.
  - unfold validateAddress. cbn [postcode town].
    rewrite !asciiRemoveSpaces_append. change (asciiRemoveSpaces " ") with "".
    change ("" +:+ asciiRemoveSpaces after) with (asciiRemoveSpaces after).
    reflexivity.
  - unfold validateAddress, judge. cbn [postcode town].
    now rewrite asciiUpperCase_empty, asciiLowerCase_upper.
Qed.
End AsciiAddresses.

(** ** The time a request waits *)

Section RequestTime.
Context `{Runtime}.
Variable creds : DPDCredentials.
Variable opts : DPDRequestOptions.

Lemma elapsed_shift (l : list Z) (a : Z) :
  foldr (fun ms total => Z.max 0 ms + total) a l
  = a + foldr (fun ms total => Z.max 0 ms + total) 0 l.
Proof. induction l as [|ms l IH]; cbn; lia. Qed.

Lemma linear_waits_total (m : nat) :
  2 * foldr (fun ms total => Z.max 0 ms + total) 0
        (List.map (fun k => DPD_API.RETRY_DELAY * (Z.of_nat k + 1)) (seq 0 m))
  = DPD_API.RETRY_DELAY * Z.of_nat m * (Z.of_nat m + 1).
Proof.
  induction m as [|m IH]; [reflexivity|].
  rewrite seq_S, List.map_app, foldr_app. cbn [List.map foldr Nat.add].
  rewrite elapsed_shift. unfold DPD_API.RETRY_DELAY in *. nia.
Qed.

(** X27.  The waits of a call of [authenticatedRequest] add up to
    [RETRY_DELAY * m * (m + 1) / 2] for some [m <= retryAttempts - 1]:
    with the three attempts of the default a call waits 3000 ms at most
    in all, and with one attempt or none it never waits. *)
Theorem request_total_wait s :
  let waited := elapsed (trace (snd (authenticatedRequest creds opts s)))
                - elapsed (trace s) in
  exists m : nat,
    Z.of_nat m <= Z.max 0 (retryAttemptsOf opts - 1)
    /\ 2 * waited = DPD_API.RETRY_DELAY * Z.of_nat m * (Z.of_nat m + 1)
    /\ (retryAttempts opts = None -> 0 <= waited <= 3000)
    /\ (retryAttemptsOf opts <= 1 -> waited = 0).
Proof.
  cbv zeta.
  destruct (request_delays_linear creds opts s) as (m & Hm & Hdelays).
  assert (2 * (elapsed (trace (snd (authenticatedRequest creds opts s)))
               - elapsed (trace s))
          = DPD_API.RETRY_DELAY * Z.of_nat m * (Z.of_nat m + 1)) as Htotal.
  { unfold elapsed. rewrite Hdelays, foldr_app, elapsed_shift.
    pose proof (linear_waits_total m) as Hsum. lia. }
  exists m. split; [exact Hm|]. split; [exact Htotal|]. split.
  - intros Hdefault. unfold retryAttemptsOf in Hm. rewrite Hdefault in Hm.
    cbn in Hm. unfold DPD_API.RETRY_DELAY, DPD_API.RETRY_ATTEMPTS in *. nia.
  - intros Hone. assert (m = 0%nat) as -> by lia.
    unfold DPD_API.RETRY_DELAY in Htotal. lia.
Qed.
End RequestTime.

(** ** The logger and the prices *)

Section LoggerProperties.
Context `{Runtime}.

(** X28.  [sanitizeHeaders] removes the headers named [Authorization],
    [authorization], [GeoSession], [Set-Cookie] and [set-cookie], in
    exactly these spellings, and keeps every other header as it is, a
    header named [geosession] included; applied to the headers that
    [authenticatedRequest] sends it leaves no [GeoSession] header.
    Sanitizing twice is sanitizing once. *)
Theorem sanitizeHeaders_spec (hs : gmap string string) :
  sanitizeHeaders None = None
  /\ exists out,
       sanitizeHeaders (Some hs) = Some out
       /\ (forall k, In k sensitiveHeaders -> out !! k = None)
       /\ (forall k, ~ In k sensitiveHeaders -> out !! k = hs !! k)
       /\ out !! "geosession" = hs !! "geosession"
       /\ sanitizeHeaders (Some out) = Some out
       /\ (forall opts token,
             hs = sentHeaders opts token ->
             out !! "GeoSession" = None
             /\ (headersOf opts !! "Content-Type" = None ->
                 out !! "Content-Type" = Some "application/json")).
Proof.
  split; [reflexivity|]. eexists. split; [reflexivity|].
  set (out := delete "set-cookie" _).
  assert (forall k, In k sensitiveHeaders -> out !! k = None) as Hgone.
  { intros k Hk. unfold out. cbn in Hk.
    destruct Hk as [<- | [<- | [<- | [<- | [<- | []]]]]];
      repeat (rewrite lookup_delete_eq || (rewrite lookup_delete_ne by discriminate));
      reflexivity. }
  assert (forall k, ~ In k sensitiveHeaders -> out !! k = hs !! k) as Hkept.
  { intros k Hk. unfold out. cbn in Hk.
    repeat (rewrite lookup_delete_ne by (intros <-; apply Hk; tauto)). reflexivity. }
  split; [exact Hgone|]. split; [exact Hkept|]. split; [|split].
  - apply Hkept. cbn. intros [Hk | [Hk | [Hk | [Hk | [Hk | []]]]]]; discriminate.
  - cbn [sanitizeHeaders]. f_equal. apply map_eq. intros k.
    destruct (decide (In k sensitiveHeaders)) as [Hk|Hk].
    + rewrite (Hgone k Hk). cbn in Hk.
      destruct Hk as [<- | [<- | [<- | [<- | [<- | []]]]]];
        repeat (rewrite lookup_delete_eq || (rewrite lookup_delete_ne by discriminate));
        reflexivity.
    + cbn in Hk.
      repeat (rewrite lookup_delete_ne by (intros <-; apply Hk; tauto)). reflexivity.
  - intros opts token ->. split; [apply Hgone; cbn; tauto|].
    intros Hnone. rewrite Hkept.
    + rewrite (sentHeaders_default opts token _ Hnone). reflexivity.
    + cbn. intros [Hk | [Hk | [Hk | [Hk | [Hk | []]]]]]; discriminate.
Qed.
End LoggerProperties.

Section PriceProperties.

(** X29.  With [calculateDeliveryFee] an order that qualifies for free
    delivery pays nothing, and any other pays the customer price of the
    service, the flat fee standing in for a service that has no price and
    also for one whose customer price is zero; no service given is
    service "12".  When the fee is not negative, a larger order never
    pays more. *)
Theorem delivery_fee_cases (subtotal : Z) (service : option string)
    (pricing : Pricing) :
  let fee := calculateDeliveryFee subtotal service pricing in
  (qualifiesForFreeDelivery subtotal pricing = true -> fee = 0)
  /\ (qualifiesForFreeDelivery subtotal pricing = false ->
      (forall s, services pricing !! default "12" service = Some s ->
                 customerPrice s <> 0 -> fee = customerPrice s)
      /\ (forall s, services pricing !! default "12" service = Some s ->
                    customerPrice s = 0 -> fee = flatDeliveryFee pricing)
      /\ (services pricing !! default "12" service = None ->
          fee = flatDeliveryFee pricing))
  /\ calculateDeliveryFee subtotal None pricing
     = calculateDeliveryFee subtotal (Some "12") pricing
  /\ (0 <= fee ->
      forall larger, subtotal <= larger ->
                     calculateDeliveryFee larger service pricing <= fee).
Proof.
  cbv zeta. unfold calculateDeliveryFee, qualifiesForFreeDelivery.
  destruct (freeDeliveryThreshold pricing <=? subtotal) eqn:Hfree.
  - repeat split; try discriminate.
    intros _ larger Hlarger.
    assert ((freeDeliveryThreshold pricing <=? larger) = true) as -> by lia. lia.
  - split; [discriminate|]. split; [|split; [reflexivity|]].
    + intros _. split; [|split].
      * intros s -> Hprice. apply Z.eqb_neq in Hprice. now rewrite Hprice.
      * intros s -> Hprice. now rewrite Hprice.
      * now intros ->.
    + intros Hfee larger Hlarger.
      destruct (freeDeliveryThreshold pricing <=? larger); [exact Hfee|lia].
Qed.
End PriceProperties.

(** ** The further statements at concrete inputs *)

Lemma request_without_attempts_witness :
  let R := sampleRuntime [] [okResp shipmentBody] in
  let opts := postRequest None (Some 0) in
  let s := initialState cachedT1 0 in
  retryAttemptsOf opts <= 0
  /\ @authenticatedRequest R sampleCredentials opts s
     = (Raised "Request failed after retries", s).
Proof.
  cbv zeta. split; [cbn; lia|].
  apply (@request_without_attempts (sampleRuntime [] [okResp shipmentBody])
           sampleCredentials (postRequest None (Some 0)) (initialState cachedT1 0)).
  cbn. lia.
Defined.

Lemma request_without_retry_witness :
  let R := sampleRuntime [] [serverError errorBody; okResp shipmentBody] in
  let opts := mkOptions "POST" "/shipping/shipment" None None (Some false) None in
  let s := initialState cachedT1 0 in
  retryOf opts = false
  /\ 1 <= retryAttemptsOf opts
  /\ fst (@authenticatedRequest R sampleCredentials opts s) = Raised "Invalid service"
  /\ delaysOf (trace (snd (@authenticatedRequest R sampleCredentials opts s))) = [].
Proof.
  cbv zeta. split; [reflexivity|].
  split; [unfold retryAttemptsOf, DPD_API.RETRY_ATTEMPTS; cbn; lia|].
  pose proof (@request_without_retry
                (sampleRuntime [] [serverError errorBody; okResp shipmentBody])
                sampleCredentials
                (mkOptions "POST" "/shipping/shipment" None None (Some false) None)
                (initialState cachedT1 0) eq_refl) as Hrun.
  specialize (Hrun ltac:(unfold retryAttemptsOf, DPD_API.RETRY_ATTEMPTS; cbn; lia)).
  cbv zeta in Hrun. destruct Hrun as (_ & _ & Hraised & _ & _ & Hdelays).
  split; [|exact Hdelays].
  apply Hraised. vm_compute. reflexivity.
Defined.

Lemma token_cached_for_90_minutes_witness :
  let R := sampleRuntime [okResp (loginBody "T1")] [] in
  let s := initialState emptyCache 0 in
  @authAttempt R (authCalls s) = Returned "T1"
  /\ "T1" <> ""
  /\ (forall other s2,
        store s2 = cachedT1 -> clock s2 < 5400000 ->
        @getGeoSession R other false s2 = (Returned "T1", s2)).
Proof.
  cbv zeta. split; [vm_compute; reflexivity|]. split; [discriminate|].
  destruct (@token_cached_for_90_minutes (sampleRuntime [okResp (loginBody "T1")] [])
              sampleCredentials (initialState emptyCache 0) "T1")
    as (_ & _ & Hcached & _).
  - vm_compute. reflexivity.
  - discriminate.
  - exact Hcached.
Defined.

Lemma session_acquired_after_failures_witness :
  let R := sampleRuntime [NetErr "socket hang up"; okResp (loginBody "T1")] [] in
  let this := newGeoSessionManager sampleCredentials None in
  let s := initialState (mkInMemory None None) 0 in
  @storedValid R (clock s) (storageGet (store s)) = false
  /\ @authAttempt R 0 = Raised "socket hang up"
  /\ @authAttempt R 1 = Returned "T1"
  /\ fst (@getValidGeoSession R _ (@resolving _ inMemoryStorage) this s) = Returned "T1"
  /\ delaysOf (trace (snd (@getValidGeoSession R _ (@resolving _ inMemoryStorage) this s)))
     = [2000].
Proof.
  cbv zeta. split; [reflexivity|]. split; [vm_compute; reflexivity|].
  split; [vm_compute; reflexivity|].
  destruct (@session_acquired_after_failures
              (sampleRuntime [NetErr "socket hang up"; okResp (loginBody "T1")] [])
              (newGeoSessionManager sampleCredentials None)
              _ inMemoryStorage (initialState (mkInMemory None None) 0) 1%nat "T1")
    as (Hrun & _ & _ & Hdelays).
  - reflexivity.
  - intros i Hi. exists "socket hang up". destruct i as [|i]; [|lia].
    vm_compute. reflexivity.
  - vm_compute. reflexivity.
  - cbn. lia.
  - rewrite Hrun. split; [reflexivity|]. cbn [snd]. exact Hdelays.
Defined.

Lemma acquired_session_reused_witness :
  let R := sampleRuntime [okResp (loginBody "T1")] [] in
  let this := newGeoSessionManager sampleCredentials None in
  let s := initialState (mkInMemory None None) 0 in
  let s1 := snd (@getValidGeoSession R _ (@resolving _ inMemoryStorage) this s) in
  @storedValid R (clock s) (storageGet (store s)) = false
  /\ @getValidGeoSession R _ (@resolving _ inMemoryStorage) this s = (Returned "T1", s1)
  /\ (forall s2 : State InMemoryGeoSessionStorage,
        store s2 = store s1 -> clock s2 < clock s1 + 90 * 60 * 1000 ->
        @getValidGeoSession R _ (@resolving _ inMemoryStorage) this s2 = (Returned "T1", s2)).
Proof.
  cbv zeta. split; [reflexivity|]. split; [vm_compute; reflexivity|].
  destruct (@acquired_session_reused
              (sampleRuntime [okResp (loginBody "T1")] [])
              (newGeoSessionManager sampleCredentials None)
              (initialState (mkInMemory None None) 0)
              (snd (@getValidGeoSession (sampleRuntime [okResp (loginBody "T1")] []) _
                      (@resolving _ inMemoryStorage)
                      (newGeoSessionManager sampleCredentials None)
                      (initialState (mkInMemory None None) 0)))
              "T1") as (_ & Hreused).
  - reflexivity.
  - vm_compute. reflexivity.
  - discriminate.
  - exact Hreused.
Defined.

Lemma acquisition_failure_wrapped_witness :
  let R := sampleRuntime [okResp (loginBody "T1")] [] in
  let this := newGeoSessionManager sampleCredentials None in
  let s := initialState tt 0 in
  fst (@getValidGeoSession R _ unreachableStorage this s)
  = Raised ("Failed to get valid geo session: " +:+ "storage unreachable")
  /\ authCalls (snd (@getValidGeoSession R _ unreachableStorage this s)) = authCalls s.
Proof.
  cbv zeta. split; [reflexivity|].
  destruct (@acquisition_failure_wrapped
              (sampleRuntime [okResp (loginBody "T1")] [])
              (newGeoSessionManager sampleCredentials None)
              _ unreachableStorage (initialState tt 0)
              ("Failed to get valid geo session: " +:+ "storage unreachable"))
    as (_ & Hget & _).
  - reflexivity.
  - now destruct (Hget "storage unreachable" eq_refl) as [_ Hcalls].
Defined.

Lemma unexpired_session_always_accepted_witness :
  let R := sampleRuntime [] [] in
  let this := newGeoSessionManager sampleCredentials None in
  let s := initialState (mkInMemory (Some "T1") (Some InvalidDate)) 172700000 in
  storageGet (store s) = Some (mkStored (Some "T1") (Some InvalidDate))
  /\ "T1" <> ""
  /\ @getValidGeoSession R _ (@resolving _ inMemoryStorage) this s = (Returned "T1", s).
Proof.
  cbv zeta. split; [reflexivity|]. split; [discriminate|].
  destruct (@unexpired_session_always_accepted
              (sampleRuntime [] []) (newGeoSessionManager sampleCredentials None)
              _ inMemoryStorage
              (initialState (mkInMemory (Some "T1") (Some InvalidDate)) 172700000)
              "T1" InvalidDate) as (_ & _ & Haccepted & _).
  - reflexivity.
  - discriminate.
  - apply Haccepted. reflexivity.
Defined.

Lemma accept_header_marks_label_request_witness :
  let R := sampleRuntime [] [] in
  let opts := postRequest (Some labelHeaders) None in
  @headersOf opts !! "Accept" = Some (getAcceptHeader "zpl")
  /\ @isLabelRequest opts = true.
Proof.
  cbv zeta. split; [vm_compute; reflexivity|].
  destruct (@accept_header_marks_label_request (sampleRuntime [] []) "zpl"
              (postRequest (Some labelHeaders) None)) as [Hlabel _].
  - vm_compute. reflexivity.
  - exact Hlabel.
Defined.

